(** * Annotation importers: GFF, TSV and JSON loaders over a relational store

    A shallow embedding of the import scripts of the repository:
    - the GFF folder importer ([processGffFile], [insertFeatureBatch],
      [processGffFolder]),
    - the PostgreSQL TSV importer ([import-tsv.mjs]) and the SQLite TSV
      importer ([import_bakta_sqlite.mjs]),
    - the JSON importer ([import-json-files.js]).

    Strings are sequences of code units below 256 ([string] of the Standard
    Library); numbers are exact integers, with [None] standing for [NaN];
    the database is a list of rows tagged by their table, driven through a
    session that keeps the visible state, the state of the open transaction
    and a plan saying which statements fail. *)

From Stdlib Require Import ZArith Ascii String List Lia Bool.
From stdpp Require Import base gmap strings list.

Open Scope string_scope.
Open Scope list_scope.
Open Scope nat_scope.

Set Warnings "-register-all".

(** ** JavaScript string primitives *)

Module Js.

(** [WhiteSpace] and [LineTerminator] code units below 256: TAB, LF, VT, FF,
    CR, SP and NBSP. *)
Definition isWhiteSpace (c : ascii) : bool :=
  let n := nat_of_ascii c in
  Nat.eqb n 9 || Nat.eqb n 10 || Nat.eqb n 11 || Nat.eqb n 12
  || Nat.eqb n 13 || Nat.eqb n 32 || Nat.eqb n 160.

Fixpoint trimStart (s : string) : string :=
  match s with
  | String c r => if isWhiteSpace c then trimStart r else s
  | EmptyString => EmptyString
  end.

Fixpoint trimEnd (s : string) : string :=
  match s with
  | EmptyString => EmptyString
  | String c r =>
      match trimEnd r with
      | EmptyString => if isWhiteSpace c then EmptyString else String c EmptyString
      | r' => String c r'
      end
  end.

(** [s.trim()] *)
Definition trim (s : string) : string := trimEnd (trimStart s).

(** A string is falsy exactly when it is empty. *)
Definition truthy (s : string) : bool :=
  match s with EmptyString => false | _ => true end.

(** [s.startsWith(p)] *)
Definition startsWith (p s : string) : bool := String.prefix p s.

(** [s.includes(c)] for a one-character needle. *)
Fixpoint includesChar (c : ascii) (s : string) : bool :=
  match s with
  | EmptyString => false
  | String d r => Ascii.eqb d c || includesChar c r
  end.

(** [s.includes(p)] *)
Fixpoint includes (p s : string) : bool :=
  String.prefix p s ||
  match s with
  | EmptyString => false
  | String _ r => includes p r
  end.

Fixpoint rev_acc (s acc : string) : string :=
  match s with
  | EmptyString => acc
  | String c r => rev_acc r (String c acc)
  end.

Definition rev (s : string) : string := rev_acc s EmptyString.

(** [s.endsWith(p)] *)
Definition endsWith (p s : string) : bool := String.prefix (rev p) (rev s).

Definition lowerChar (c : ascii) : ascii :=
  let n := nat_of_ascii c in
  if (Nat.leb 65 n && Nat.leb n 90)
     || (Nat.leb 192 n && Nat.leb n 222 && negb (Nat.eqb n 215))
  then ascii_of_nat (n + 32) else c.

(** [s.toLowerCase()] *)
Fixpoint toLowerCase (s : string) : string :=
  match s with
  | EmptyString => EmptyString
  | String c r => String (lowerChar c) (toLowerCase r)
  end.

(** Puts a character in front of the first piece of a split. *)
Definition consHead (c : ascii) (l : list string) : list string :=
  match l with
  | [] => [String c EmptyString]
  | x :: xs => String c x :: xs
  end.

(** [s.split(sep)] for a one-character separator: never empty, the empty
    string splits into one empty piece. *)
Fixpoint split (sep : ascii) (s : string) : list string :=
  match s with
  | EmptyString => [EmptyString]
  | String c r =>
      if Ascii.eqb c sep then EmptyString :: split sep r
      else consHead c (split sep r)
  end.

(** [s.split(sep)] for a separator of one character or more; [skip] counts
    the characters of a separator already recognised. *)
Fixpoint splitOn_from (sep : string) (skip : nat) (s : string) : list string :=
  match s with
  | EmptyString => [EmptyString]
  | String c r =>
      match skip with
      | S k => splitOn_from sep k r
      | O =>
          if String.prefix sep s
          then EmptyString :: splitOn_from sep (String.length sep - 1) r
          else consHead c (splitOn_from sep 0 r)
      end
  end.

Definition splitOn (sep s : string) : list string := splitOn_from sep 0 s.

Fixpoint drop (n : nat) (s : string) : string :=
  match n, s with
  | S k, String _ r => drop k r
  | _, _ => s
  end.

(** [s.replace(p, '')] with a string pattern: the first occurrence of [p]
    is removed. *)
Fixpoint removeFirst (p s : string) : string :=
  if String.prefix p s then drop (String.length p) s
  else match s with
       | EmptyString => EmptyString
       | String c r => String c (removeFirst p r)
       end.

(** Value of a digit in the given radix. *)
Definition digitValue (radix : Z) (c : ascii) : option Z :=
  let n := Z.of_nat (nat_of_ascii c) in
  let v :=
    if (48 <=? n)%Z && (n <=? 57)%Z then Some (n - 48)%Z
    else if (97 <=? n)%Z && (n <=? 122)%Z then Some (n - 87)%Z
    else if (65 <=? n)%Z && (n <=? 90)%Z then Some (n - 55)%Z
    else None in
  match v with
  | Some d => if (d <? radix)%Z then Some d else None
  | None => None
  end.

(** Longest prefix of digits, read in the radix; [None] when there is no
    digit at all. *)
Fixpoint readDigits (radix : Z) (acc : option Z) (s : string) : option Z :=
  match s with
  | EmptyString => acc
  | String c r =>
      match digitValue radix c with
      | Some d =>
          readDigits radix
            (Some (match acc with Some a => a * radix + d | None => d end)%Z) r
      | None => acc
      end
  end.

Definition stripSign (s : string) : Z * string :=
  match s with
  | String c r =>
      if Ascii.eqb c "-" then ((-1)%Z, r)
      else if Ascii.eqb c "+" then (1%Z, r)
      else (1%Z, s)
  | EmptyString => (1%Z, s)
  end.

(** [parseInt(s)] with no radix argument: leading white space and a sign are
    skipped, a [0x] or [0X] prefix selects radix 16, the digits are read up
    to the first character that is none; [None] is [NaN]. Integers are
    exact here (the rounding of a double past 2^53 is not modelled). *)
Definition parseInt (s : string) : option Z :=
  let '(sign, s1) := stripSign (trimStart s) in
  let '(radix, s2) :=
    if String.prefix "0x" s1 || String.prefix "0X" s1
    then (16%Z, drop 2 s1) else (10%Z, s1) in
  match readDigits radix None s2 with
  | Some n => Some (sign * n)%Z
  | None => None
  end.

(** [n || 1] on the result of [parseInt]: [NaN] and zero are falsy. *)
Definition orOne (n : option Z) : Z :=
  match n with
  | Some z => if (z =? 0)%Z then 1%Z else z
  | None => 1%Z
  end.

(** [s || null] *)
Definition orNull (s : string) : option string :=
  if truthy s then Some s else None.

(** [Array.prototype.join] *)
Fixpoint join (sep : string) (l : list string) : string :=
  match l with
  | [] => EmptyString
  | [x] => x
  | x :: xs => x +:+ sep +:+ join sep xs
  end.

End Js.

(** ** The GFF attribute column *)

(** [obj[k] = v] on an object literal used as a map.  The name [__proto__]
    is an inherited accessor of every object literal: assigning a string to
    it stores nothing. *)
Definition setProperty (k v : string) (o : gmap string string) : gmap string string :=
  if String.eqb k "__proto__" then o else <[k:=v]> o.

(** Body of the loop over [attrPairs] in [processGffFile]. *)
Definition parsePair (attributesObj : gmap string string) (pair : string)
  : gmap string string :=
  if negb (Js.includesChar "=" pair) then
    match Js.split ":" pair with
    | [k; v] => setProperty (Js.trim k) (Js.trim v) attributesObj
    | _ => attributesObj
    end
  else
    match Js.split "=" pair with
    | key :: value :: _ =>
        if Js.truthy key && Js.truthy value
        then setProperty (Js.trim key) (Js.trim value) attributesObj
        else attributesObj
    | _ => attributesObj
    end.

(** The attribute parser of [processGffFile]: [attributesObj] after the
    loop, for the ninth column [attributesStr]. *)
Definition parseAttributes (attributesStr : string) : gmap string string :=
  if Js.truthy attributesStr
  then fold_left parsePair (Js.split ";" attributesStr) ∅
  else ∅.


(** ** Values, rows and tables *)

(** A parsed JSON document, as [JSON.parse] returns it.  Numbers are the
    integral ones; an object lists its own properties. *)
Inductive json :=
| JNull
| JBool (b : bool)
| JNum (n : Z)
| JStr (s : string)
| JArr (items : list json)
| JObj (fields : list (string * json)).

(** A statement parameter, and so a stored cell. *)
Inductive value :=
| VNull                              (* null, also an undefined parameter *)
| VNum (n : option Z)                (* a number; [None] is NaN *)
| VText (s : string)
| VTexts (l : list string)           (* an array of strings *)
| VAttrs (o : gmap string string)    (* JSON.stringify(attributesObj) *)
| VJson (j : json).                  (* a value taken from a JSON document *)

Definition row := list (string * value).

(** The cell of column [c]; a column the row does not list holds NULL. *)
Fixpoint col (c : string) (r : row) : value :=
  match r with
  | [] => VNull
  | (c', v) :: r' => if String.eqb c c' then v else col c r'
  end.

(** [SET c = v] *)
Fixpoint setCol (c : string) (v : value) (r : row) : row :=
  match r with
  | [] => [(c, v)]
  | (c', v') :: r' =>
      if String.eqb c c' then (c, v) :: r' else (c', v') :: setCol c v r'
  end.

(** SQL [=] on the cells the importers compare: numbers and texts; a
    comparison with NULL is never true. *)
Definition sqlEq (a b : value) : bool :=
  match a, b with
  | VNum (Some x), VNum (Some y) => Z.eqb x y
  | VText x, VText y => String.eqb x y
  | _, _ => false
  end.

(** The rows of every table, oldest first, each tagged by its table. *)
Definition tables := list (string * row).

Definition inTable (t : string) (e : string * row) : bool := String.eqb (fst e) t.

(** [SELECT * FROM t WHERE cond] *)
Definition selectRows (t : string) (cond : row -> bool) (T : tables) : list row :=
  map snd (List.filter (fun e => inTable t e && cond (snd e)) T).

(** [DELETE FROM t WHERE cond] *)
Definition deleteRows (t : string) (cond : row -> bool) (T : tables) : tables :=
  List.filter (fun e => negb (inTable t e && cond (snd e))) T.

(** [UPDATE t SET ... WHERE cond] *)
Definition updateRows (t : string) (set : row -> row) (cond : row -> bool)
  (T : tables) : tables :=
  map (fun e => if inTable t e && cond (snd e) then (fst e, set (snd e)) else e) T.

(** [INSERT INTO t ... VALUES r1, r2, ...] *)
Definition insertRows (t : string) (rs : list row) (T : tables) : tables :=
  T ++ map (pair t) rs.

(** ** Sessions, faults and the console *)

Inductive error :=
| DbError (statement : nat)      (* the database rejected a statement *)
| IoError (path : string)        (* a file could not be read or parsed *)
| TypeError                      (* property access on null *)
| NoTransaction.                 (* SQLite: ROLLBACK with no transaction *)

Inductive method := ConsoleLog | ConsoleWarn | ConsoleError.

(** One console call: the template of the source and the values of its
    placeholders. *)
Record logline := LogLine {
  log_method : method;
  log_template : string;
  log_args : list value
}.

Record session := Session {
  visible : tables;             (* what every connection sees *)
  pending : option tables;      (* the open transaction's view, if any *)
  sequences : string -> nat;    (* next generated key of each table *)
  catalog : list string;        (* tables that exist (SQLite schema) *)
  issued : nat;                 (* database calls made so far *)
  console : list logline
}.

Inductive outcome (A : Type) :=
| Ok (a : A)
| Throw (e : error)
| Exit (code : nat).            (* process.exit(code) *)

Arguments Ok {A} a.
Arguments Throw {A} e.
Arguments Exit {A} code.

Definition M (A : Type) : Type := session -> outcome A * session.

Definition ret {A} (a : A) : M A := fun s => (Ok a, s).

Definition bind {A B} (m : M A) (k : A -> M B) : M B :=
  fun s =>
    match m s with
    | (Ok a, s') => k a s'
    | (Throw e, s') => (Throw e, s')
    | (Exit c, s') => (Exit c, s')
    end.

Declare Scope io_scope.
Delimit Scope io_scope with io.
Bind Scope io_scope with M.

Notation "x <- m ;; k" := (bind m (fun x => k))
  (at level 100, m at next level, k at level 200, right associativity) : io_scope.
Notation "m ;; k" := (bind m (fun _ => k))
  (at level 100, k at level 200, right associativity) : io_scope.

Open Scope io_scope.

Definition throw {A} (e : error) : M A := fun s => (Throw e, s).

(** [process.exit(code)]: nothing runs afterwards, handlers included. *)
Definition processExit {A} (code : nat) : M A := fun s => (Exit code, s).

(** [try { body } catch (e) { handler }] *)
Definition tryCatch {A} (body : M A) (handler : error -> M A) : M A :=
  fun s =>
    match body s with
    | (Throw e, s') => handler e s'
    | r => r
    end.

(** [for (const x of l) { ... }] threading the loop's local variables. *)
Fixpoint foldM {A S} (f : S -> A -> M S) (l : list A) (st : S) : M S :=
  match l with
  | [] => ret st
  | x :: l' => st' <- f st x ;; foldM f l' st'
  end.

Fixpoint forM {A} (l : list A) (f : A -> M unit) : M unit :=
  match l with
  | [] => ret tt
  | x :: l' => f x ;; forM l' f
  end.

Definition say (m : method) (template : string) (args : list value) : M unit :=
  fun s =>
    (Ok tt, Session (visible s) (pending s) (sequences s) (catalog s) (issued s)
              (console s ++ [LogLine m template args])).

Definition vnat (n : nat) : value := VNum (Some (Z.of_nat n)).

(** The exit code of the process once the script's top level has run:
    zero when the event loop drains. *)
Definition exitCode {A} (o : outcome A) : nat :=
  match o with
  | Ok _ => 0
  | Throw _ => 1
  | Exit c => c
  end.

Section Database.

(** The fault plan: [faulty k] says that database call number [k] of the
    run fails (constraint violation, lost connection, ...). *)
Variable faulty : nat -> bool.

(** Every database call takes the next number and fails when the plan
    says so, before it has any effect. *)
Definition call : M unit :=
  fun s =>
    let k := issued s in
    let s' := Session (visible s) (pending s) (sequences s) (catalog s) (S k) (console s) in
    if faulty k then (Throw (DbError k), s') else (Ok tt, s').

(** The tables a statement reads: the transaction's view inside one. *)
Definition current (s : session) : tables :=
  match pending s with
  | Some T => T
  | None => visible s
  end.

(** A statement's writes go to the open transaction, and straight to the
    visible state when there is none (autocommit). *)
Definition write (f : tables -> tables) : M unit :=
  fun s =>
    match pending s with
    | Some T =>
        (Ok tt, Session (visible s) (Some (f T)) (sequences s) (catalog s) (issued s) (console s))
    | None =>
        (Ok tt, Session (f (visible s)) None (sequences s) (catalog s) (issued s) (console s))
    end.

Definition read {A} (f : tables -> A) : M A := fun s => (Ok (f (current s)), s).

(** Next key of table [t]; a sequence is never rewound. *)
Definition nextval (t : string) : M nat :=
  fun s =>
    let n := sequences s t in
    (Ok n, Session (visible s) (pending s)
             (fun t' => if String.eqb t' t then S n else sequences s t')
             (catalog s) (issued s) (console s)).

(** [pool.connect()]: a call that can fail and touches no row. *)
Definition connect : M unit := call.

Definition sqlBegin : M unit :=
  call ;;
  fun s => (Ok tt, Session (visible s) (Some (current s)) (sequences s) (catalog s) (issued s) (console s)).

Definition sqlCommit : M unit :=
  call ;;
  fun s => (Ok tt, Session (current s) None (sequences s) (catalog s) (issued s) (console s)).

(** ROLLBACK discards the transaction's view.  It is not subject to the
    plan: when the connection is gone the server aborts the transaction
    by itself. *)
Definition sqlRollback : M unit :=
  fun s => (Ok tt, Session (visible s) None (sequences s) (catalog s) (S (issued s)) (console s)).

(** SQLite reports an error for a ROLLBACK outside a transaction. *)
Definition sqliteRollback : M unit :=
  fun s =>
    match pending s with
    | Some _ => sqlRollback s
    | None => (Throw NoTransaction,
               Session (visible s) None (sequences s) (catalog s) (S (issued s)) (console s))
    end.

Definition sqlSelect (t : string) (cond : row -> bool) : M (list row) :=
  call ;; read (selectRows t cond).

Definition sqlDelete (t : string) (cond : row -> bool) : M unit :=
  call ;; write (deleteRows t cond).

Definition sqlUpdate (t : string) (set : row -> row) (cond : row -> bool) : M unit :=
  call ;; write (updateRows t set cond).

(** One INSERT statement with one row or more. *)
Definition sqlInsert (t : string) (rs : list row) : M unit :=
  call ;; write (insertRows t rs).

(** An INSERT into a table whose key column [key] is generated; the key is
    returned ([RETURNING], [lastID]). *)
Definition sqlInsertKeyed (t key : string) (r : row) : M value :=
  call ;;
  n <- nextval t ;;
  write (insertRows t [(key, vnat n) :: r]) ;;
  ret (vnat n).

(** [CREATE TABLE t] and the like. *)
Definition sqlCreate (ts : list string) : M unit :=
  call ;;
  fun s => (Ok tt, Session (visible s) (pending s) (sequences s) (catalog s ++ ts) (issued s) (console s)).

End Database.

(** ** Paths *)

(** [path.join(folder, file)] for a folder path that needs no
    normalisation. *)
Definition pathJoin (folder file : string) : string := folder +:+ "/" +:+ file.

(** [path.basename(p)]: the last segment of the path that is not empty. *)
Definition basename (p : string) : string :=
  List.last (List.filter Js.truthy (Js.split "/" p)) EmptyString.

(** ** The GFF folder importer *)

Module Gff.

(** What the file system answers for a path: the size [fs.promises.stat]
    reports, and the lines [readline] delivers ([None] when the stream
    fails). *)
Record fileInfo := FileInfo {
  file_size : nat;
  file_lines : option (list string)
}.

Definition disk := string -> option fileInfo.

Definition isGffFile (filename : string) : bool :=
  let lowerFilename := Js.toLowerCase filename in
  Js.endsWith ".gff" lowerFilename || Js.endsWith ".gff3" lowerFilename.

Definition TAB : ascii := "009"%char.

Definition BATCH_SIZE : nat := 1000.

(** [x === '.' ? null : x] *)
Definition nullIfDot (x : string) : value :=
  if String.eqb x "." then VNull else VText x.

(** The array pushed to [batchValues] for one data line, under the column
    names of [insertFeatureBatch]. *)
Definition featureRow (fileId : value) (columns : list string) : row :=
  match columns with
  | seqid :: source :: type :: start :: end_ :: score :: strand :: phase
    :: attributesStr :: _ =>
      [ ("file_id", fileId);
        ("seqid", VText seqid);
        ("source", VText source);
        ("type", VText type);
        ("start", VNum (Some (Js.orOne (Js.parseInt start))));
        ("end", VNum (Some (Js.orOne (Js.parseInt end_))));
        ("score", nullIfDot score);
        ("strand", nullIfDot strand);
        ("phase", nullIfDot phase);
        ("attributes", VAttrs (parseAttributes attributesStr)) ]
  | _ => []
  end.

(** [parts[i]] as a statement parameter: undefined is sent as NULL. *)
Definition param (parts : list string) (i : nat) : value :=
  match nth_error parts i with
  | Some x => VText x
  | None => VNull
  end.

Definition isLineTerminator (c : ascii) : bool :=
  let n := nat_of_ascii c in Nat.eqb n 10 || Nat.eqb n 13.

Fixpoint takeWhile (p : ascii -> bool) (s : string) : string :=
  match s with
  | String c r => if p c then String c (takeWhile p r) else EmptyString
  | EmptyString => EmptyString
  end.

Fixpoint dropWhile (p : ascii -> bool) (s : string) : string :=
  match s with
  | String c r => if p c then dropWhile p r else s
  | EmptyString => EmptyString
  end.

(** Last character of [w] that [.] matches, if any. *)
Fixpoint lastDot (w : string) : option ascii :=
  match w with
  | EmptyString => None
  | String c r =>
      match lastDot r with
      | Some d => Some d
      | None => if isLineTerminator c then None else Some c
      end
  end.

(** Group 1 of [/##species\s+(.+)/] matched at the very start of [s]: the
    white space is taken greedily and gives characters back only when
    nothing is left for the group. *)
Definition speciesAt (s : string) : option string :=
  if String.prefix "##species" s then
    let r := Js.drop 9 s in
    match takeWhile Js.isWhiteSpace r with
    | EmptyString => None
    | String _ w' =>
        match takeWhile (fun c => negb (isLineTerminator c))
                (dropWhile Js.isWhiteSpace r) with
        | EmptyString =>
            match lastDot w' with
            | Some c => Some (String c EmptyString)
            | None => None
            end
        | g => Some g
        end
    end
  else None.

(** [line.match(/##species\s+(.+)/)], group 1 of the leftmost match. *)
Fixpoint matchSpecies (s : string) : option string :=
  match speciesAt s with
  | Some g => Some g
  | None =>
      match s with
      | EmptyString => None
      | String _ r => matchSpecies r
      end
  end.

(** [MAX(region_id)] over some rows; NULL ([None]) when no row has one. *)
Definition maxId (rows : list row) : option Z :=
  fold_left
    (fun m r =>
       match col "region_id" r, m with
       | VNum (Some z), Some z' => Some (Z.max z z')
       | VNum (Some z), None => Some z
       | _, _ => m
       end)
    rows None.

(** [WHERE file_id = fileId] *)
Definition ownedBy (fileId : value) (r : row) : bool := sqlEq (col "file_id" r) fileId.

(** [SELECT MAX(region_id) FROM sequence_regions WHERE file_id = fileId] *)
Definition maxRegion (fileId : value) (T : tables) : option Z :=
  maxId (selectRows "sequence_regions" (ownedBy fileId) T).

(** The loop's local variables. *)
Record loopVars := LoopVars {
  lineCount : nat;
  featureCount : nat;
  sequenceRegionCount : nat;
  batchValues : list row
}.

Section Importer.

Variable faulty : nat -> bool.
Variable files : disk.

(** One INSERT for the whole batch. *)
Definition insertFeatureBatch (featureBatch : list row) : M unit :=
  sqlInsert faulty "gff_features" featureBatch.

Definition setFileColumn (c : string) (v fileId : value) : M unit :=
  sqlUpdate faulty "gff_files" (setCol c v)
    (ownedBy fileId).

(** The branch for a line that starts with [#]. *)
Definition headerLine (fileId : value) (st : loopVars) (line : string) : M loopVars :=
  if Js.startsWith "##gff-version" line then
    setFileColumn "version" (param (Js.split " " line) 1) fileId ;; ret st
  else if Js.startsWith "#!genome-build" line then
    setFileColumn "genome_build" (param (Js.split " " line) 1) fileId ;; ret st
  else if Js.startsWith "#!genome-build-accession" line then
    setFileColumn "genome_build_accession" (param (Js.split " " line) 1) fileId ;; ret st
  else if Js.startsWith "#!annotation-date" line then
    setFileColumn "annotation_date" (param (Js.split " " line) 1) fileId ;; ret st
  else if Js.startsWith "#!annotation-source" line then
    setFileColumn "annotation_source"
      (VText (Js.removeFirst "#!annotation-source " line)) fileId ;; ret st
  else if Js.startsWith "##sequence-region" line then
    let parts := Js.split " " line in
    if 4 <=? length parts then
      sqlInsertKeyed faulty "sequence_regions" "region_id"
        [ ("file_id", fileId);
          ("seqid", param parts 1);
          ("start", VNum (Js.parseInt (nth 2 parts EmptyString)));
          ("end", VNum (Js.parseInt (nth 3 parts EmptyString))) ] ;;
      ret (LoopVars (lineCount st) (featureCount st)
             (S (sequenceRegionCount st)) (batchValues st))
    else ret st
  else if Js.startsWith "##species" line then
    match matchSpecies line with
    | Some speciesUrl =>
        call faulty ;;
        write (fun T =>
                 updateRows "sequence_regions"
                   (setCol "species_url" (VText speciesUrl))
                   (fun r => sqlEq (col "region_id" r) (VNum (maxRegion fileId T)))
                   T) ;;
        ret st
    | None => ret st
    end
  else ret st.

(** Body of [for await (const line of rl)]. *)
Definition lineStep (fileId : value) (st0 : loopVars) (line : string) : M loopVars :=
  let st := LoopVars (S (lineCount st0)) (featureCount st0)
              (sequenceRegionCount st0) (batchValues st0) in
  (if (N.of_nat (lineCount st) mod 100000 =? 0)%N
   then say ConsoleLog "Processed ${lineCount.toLocaleString()} lines..."
          [vnat (lineCount st)]
   else ret tt) ;;
  if negb (Js.truthy (Js.trim line)) then ret st
  else if Js.startsWith "#" line then headerLine fileId st line
  else
    let columns := Js.split TAB line in
    if length columns <? 9 then ret st
    else
      let batch := batchValues st ++ [featureRow fileId columns] in
      let st1 := LoopVars (lineCount st) (S (featureCount st))
                   (sequenceRegionCount st) batch in
      if BATCH_SIZE <=? length batch then
        insertFeatureBatch batch ;;
        ret (LoopVars (lineCount st1) (featureCount st1)
               (sequenceRegionCount st1) [])
      else ret st1.

(** The record of the file: the id of the first row with this filename,
    its dependent rows deleted, or else a new row. *)
Definition openFileRecord (fileName filePath : string) (fileSize : nat) : M value :=
  existingFile <- sqlSelect faulty "gff_files"
                    (fun r => sqlEq (col "filename" r) (VText fileName)) ;;
  match existingFile with
  | r0 :: _ =>
      let fileId := col "file_id" r0 in
      say ConsoleLog
        "File ${fileName} already exists in database with ID ${fileId}. Updating..."
        [VText fileName; fileId] ;;
      sqlDelete faulty "gff_features" (ownedBy fileId) ;;
      sqlDelete faulty "sequence_regions" (ownedBy fileId) ;;
      sqlUpdate faulty "gff_files"
        (fun r => setCol "file_size" (vnat fileSize)
                    (setCol "original_path" (VText filePath) r))
        (ownedBy fileId) ;;
      ret fileId
  | [] =>
      sqlInsertKeyed faulty "gff_files" "file_id"
        [ ("filename", VText fileName);
          ("original_path", VText filePath);
          ("file_size", vnat fileSize);
          ("version", VNull);
          ("genome_build", VNull);
          ("genome_build_accession", VNull);
          ("annotation_date", VNull);
          ("annotation_source", VNull) ]
  end.

(** The loop over the lines of the file and the insertion of the features
    still queued after it; the loop's variables are returned. *)
Definition readLines (fileId : value) (filePath : string) (info : fileInfo)
  : M loopVars :=
  lines <- match file_lines info with
           | Some l => ret l
           | None => throw (IoError filePath)
           end ;;
  st <- foldM (lineStep fileId) lines (LoopVars 0 0 0 []) ;;
  (if 0 <? length (batchValues st)
   then insertFeatureBatch (batchValues st) else ret tt) ;;
  ret st.

(** The part of [processGffFile] inside [try]. *)
Definition importGff (fileName filePath : string) (info : fileInfo) : M value :=
  sqlBegin faulty ;;
  fileId <- openFileRecord fileName filePath (file_size info) ;;
  st <- readLines fileId filePath info ;;
  sqlCommit faulty ;;
  say ConsoleLog "GFF file processed successfully:" [] ;;
  say ConsoleLog "- File ID: ${fileId}" [fileId] ;;
  say ConsoleLog "- Lines processed: ${lineCount.toLocaleString()}" [vnat (lineCount st)] ;;
  say ConsoleLog "- Features imported: ${featureCount.toLocaleString()}"
    [vnat (featureCount st)] ;;
  say ConsoleLog "- Sequence regions: ${sequenceRegionCount}"
    [vnat (sequenceRegionCount st)] ;;
  ret fileId.

Definition processGffFile (filePath : string) : M value :=
  let fileName := basename filePath in
  info <- match files filePath with
          | Some i => ret i
          | None => throw (IoError filePath)
          end ;;
  say ConsoleLog "Processing file: ${fileName} (${(fileSize / 1024 / 1024).toFixed(2)} MB)"
    [VText fileName; vnat (file_size info)] ;;
  connect faulty ;;
  tryCatch (importGff fileName filePath info)
    (fun err =>
       sqlRollback ;;
       say ConsoleError "Error processing GFF file:" [] ;;
       throw err).

(** The loop of [processGffFolder] over [gffFiles], from index [i]. *)
Fixpoint processEach (folderPath : string) (total i : nat) (gffFiles : list string)
  : M unit :=
  match gffFiles with
  | [] => ret tt
  | file :: rest =>
      let filePath := pathJoin folderPath file in
      say ConsoleLog "\nProcessing file ${i + 1} of ${gffFiles.length}: ${file}"
        [vnat (i + 1); vnat total; VText file] ;;
      tryCatch (processGffFile filePath ;; ret tt)
        (fun err => say ConsoleError "Failed to process file ${file}:" [VText file]) ;;
      processEach folderPath total (S i) rest
  end.

(** [processGffFolder]; [listing] is what [readdir] answers, [None] when it
    fails. *)
Definition processGffFolder (folderPath : string) (listing : option (list string))
  : M unit :=
  tryCatch
    (say ConsoleLog "Scanning folder: ${folderPath}" [VText folderPath] ;;
     ls <- match listing with
           | Some l => ret l
           | None => throw (IoError folderPath)
           end ;;
     let gffFiles := List.filter isGffFile ls in
     say ConsoleLog "Found ${gffFiles.length} GFF file(s)" [vnat (length gffFiles)] ;;
     processEach folderPath (length gffFiles) 0 gffFiles ;;
     say ConsoleLog "\nAll files processed." [])
    (fun err => say ConsoleError "Error scanning folder:" []).

(** The script from the call of [processGffFolder] on. *)
Definition script (folderPath : string) (listing : option (list string)) : M unit :=
  tryCatch
    (processGffFolder folderPath listing ;;
     say ConsoleLog "Script completed." [])
    (fun err => say ConsoleError "Script failed:" [] ;; processExit 1).

End Importer.

End Gff.

(** ** The TSV importers *)

Module Tsv.

(** [readFile(path, 'utf-8')]: the text of the file, [None] when the read
    fails. *)
Definition disk := string -> option string.

Definition TAB : ascii := "009"%char.
Definition LF : ascii := "010"%char.

Record metadata := Metadata {
  software_version : string;
  database_version : string;
  database_type : string;
  doi : string;
  url : string
}.

(** Body of the loop of [parseMetadata]. *)
Definition metadataStep (m : metadata) (line : string) : metadata :=
  if Js.startsWith "# Software:" line then
    Metadata (Js.trim (Js.removeFirst "# Software:" line))
      (database_version m) (database_type m) (doi m) (url m)
  else if Js.startsWith "# Database:" line then
    let parts := Js.split "," (Js.trim (Js.removeFirst "# Database:" line)) in
    let m1 :=
      if 1 <=? length parts
      then Metadata (software_version m) (Js.trim (nth 0 parts EmptyString))
             (database_type m) (doi m) (url m)
      else m in
    if 2 <=? length parts
    then Metadata (software_version m1) (database_version m1)
           (Js.trim (nth 1 parts EmptyString)) (doi m1) (url m1)
    else m1
  else if Js.startsWith "# DOI:" line then
    Metadata (software_version m) (database_version m) (database_type m)
      (Js.trim (Js.removeFirst "# DOI:" line)) (url m)
  else if Js.startsWith "# URL:" line then
    Metadata (software_version m) (database_version m) (database_type m)
      (doi m) (Js.trim (Js.removeFirst "# URL:" line))
  else m.

Definition parseMetadata (lines : list string) : metadata :=
  fold_left metadataStep lines
    (Metadata EmptyString EmptyString EmptyString EmptyString EmptyString).

(** [fileName.replace(/\.[^/.]+$/, '')]: the last dot and what follows go,
    when what follows is not empty and holds no slash. *)
Fixpoint stripExtension (s : string) : string :=
  match s with
  | EmptyString => EmptyString
  | String c r =>
      if Ascii.eqb c "." && Js.truthy r
         && negb (Js.includesChar "/" r) && negb (Js.includesChar "." r)
      then EmptyString
      else String c (stripExtension r)
  end.

Definition isHeaderLine (line : string) : bool := Js.startsWith "#" line.

Definition isDataLine (line : string) : bool :=
  negb (Js.startsWith "#" line) && Js.truthy (Js.trim line).

(** [parts[i]], a string for every index within the array. *)
Definition part (parts : list string) (i : nat) : string := nth i parts EmptyString.

(** [s || null] as a parameter. *)
Definition textOrNull (s : string) : value :=
  match Js.orNull s with
  | Some x => VText x
  | None => VNull
  end.

(** The cross references of the ninth column, when there is one that is
    not empty. *)
Definition dbxrefsOf (parts : list string) : option (list string) :=
  if (8 <? length parts) && Js.truthy (part parts 8)
  then Some (List.filter (fun x => Js.truthy (Js.trim x)) (Js.splitOn ", " (part parts 8)))
  else None.

(** The ten parameters of one annotation, under their column names;
    [dbxrefs] is the ninth column as the importer passes it. *)
Definition annotationRow (dbxrefs genomeId : value) (parts : list string) : row :=
  [ ("genome_id", genomeId);
    ("sequence_id", VText (part parts 0));
    ("feature_type", VText (part parts 1));
    ("start_position", VNum (Js.parseInt (part parts 2)));
    ("stop_position", VNum (Js.parseInt (part parts 3)));
    ("strand", VText (part parts 4));
    ("locus_tag", textOrNull (part parts 5));
    ("gene", textOrNull (part parts 6));
    ("product", textOrNull (part parts 7));
    ("dbxrefs", dbxrefs) ].

(** PostgreSQL: an array of strings or null. *)
Definition pgDbxrefs (parts : list string) : value :=
  match dbxrefsOf parts with
  | Some l => VTexts l
  | None => VNull
  end.

(** SQLite: the array as JSON text, or null. *)
Definition sqliteDbxrefs (parts : list string) : value :=
  match dbxrefsOf parts with
  | Some l => VJson (JArr (map JStr l))
  | None => VNull
  end.

(** [Math.ceil(n / b)] *)
Definition ceilDiv (n b : nat) : nat := (n + (b - 1)) / b.

(** [l.slice(start, end)] for [start <= end <= l.length]. *)
Definition slice {A} (start end_ : nat) (l : list A) : list A :=
  firstn (end_ - start) (skipn start l).

(** The batch of index [batchIndex]. *)
Definition batchOf (batchSize : nat) (dataLines : list string) (batchIndex : nat)
  : list string :=
  let start := batchIndex * batchSize in
  let end_ := Nat.min (start + batchSize) (length dataLines) in
  slice start end_ dataLines.

Definition genomeRow (sampleId : string) (m : metadata) (filePath : string) : row :=
  [ ("sample_id", VText sampleId);
    ("software_version", VText (software_version m));
    ("database_version", VText (database_version m));
    ("database_type", VText (database_type m));
    ("doi", VText (doi m));
    ("url", VText (url m));
    ("file_path", VText filePath) ].

Definition readFile (files : disk) (filePath : string) : M string :=
  match files filePath with
  | Some text => ret text
  | None => throw (IoError filePath)
  end.

Definition matches (filePattern file : string) : bool :=
  Js.includes filePattern (Js.toLowerCase file).

(** *** PostgreSQL ([import-tsv.mjs]) *)

Module Pg.

Section Importer.

Variable faulty : nat -> bool.
Variable files : disk.

Definition batchSize : nat := 1000.

(** The rows one batch contributes: lines with fewer than 8 columns are
    skipped. *)
Definition batchRows (genomeId : value) (batch : list string) : list row :=
  flat_map
    (fun line =>
       let parts := Js.split TAB line in
       if length parts <? 8 then []
       else [annotationRow (pgDbxrefs parts) genomeId parts])
    batch.

(** The part of [processTsvFile] inside [try]. *)
Definition importTsv (filePath : string) : M unit :=
  sqlBegin faulty ;;
  fileContent <- readFile files filePath ;;
  let lines := Js.split LF fileContent in
  let headerLines := List.filter isHeaderLine lines in
  let dataLines := List.filter isDataLine lines in
  let metadata := parseMetadata headerLines in
  let fileName := basename filePath in
  let sampleId := stripExtension fileName in
  genomeId <- sqlInsertKeyed faulty "genomes" "id" (genomeRow sampleId metadata filePath) ;;
  let totalBatches := ceilDiv (length dataLines) batchSize in
  forM (seq 0 totalBatches)
    (fun batchIndex =>
       let rows := batchRows genomeId (batchOf batchSize dataLines batchIndex) in
       if 0 <? length rows then sqlInsert faulty "annotations" rows else ret tt) ;;
  sqlCommit faulty ;;
  say ConsoleLog "Imported ${dataLines.length} annotations from ${fileName}"
    [vnat (length dataLines); VText fileName].

Definition processTsvFile (filePath : string) : M unit :=
  say ConsoleLog "Processing file: ${filePath}" [VText filePath] ;;
  connect faulty ;;
  tryCatch (importTsv filePath)
    (fun error =>
       sqlRollback ;;
       say ConsoleError "Error processing file ${filePath}:" [VText filePath] ;;
       throw error).

(** The loop of [main] over [tsvFiles], from index [i]. *)
Fixpoint processEach (folderPath : string) (total i : nat) (tsvFiles : list string)
  : M unit :=
  match tsvFiles with
  | [] => ret tt
  | file :: rest =>
      processTsvFile (pathJoin folderPath file) ;;
      say ConsoleLog "Processed ${i + 1}/${tsvFiles.length} files" [vnat (i + 1); vnat total] ;;
      processEach folderPath total (S i) rest
  end.

(** [main]; [listing] is what [readdir] answers, [None] when it fails. *)
Definition main (folderPath filePattern : string) (listing : option (list string))
  : M unit :=
  tryCatch
    (ls <- match listing with
           | Some l => ret l
           | None => throw (IoError folderPath)
           end ;;
     let tsvFiles := List.filter (matches filePattern) ls in
     (if length tsvFiles =? 0 then
        say ConsoleLog "No TSV files found in ${folderPath} matching pattern ${filePattern}"
          [VText folderPath; VText filePattern] ;;
        processExit 1
      else ret tt) ;;
     say ConsoleLog "Found ${tsvFiles.length} TSV files to import" [vnat (length tsvFiles)] ;;
     processEach folderPath (length tsvFiles) 0 tsvFiles ;;
     say ConsoleLog "All files processed successfully" [])
    (fun error => say ConsoleError "Error:" [] ;; processExit 1).

End Importer.

End Pg.

(** *** SQLite ([import_bakta_sqlite.mjs]) *)

Module Sqlite.

Section Importer.

Variable faulty : nat -> bool.
Variable files : disk.

Definition batchSize : nat := 500.

(** [open], [db.prepare], [insertStmt.finalize] and [db.close]: calls that
    can fail and touch no row. *)
Definition openDatabase : M unit := call faulty.
Definition prepare : M unit := call faulty.
Definition finalize : M unit := call faulty.
Definition closeDatabase : M unit := call faulty.

Definition initializeDatabase : M unit :=
  call faulty ;;
  tablesExist <- (fun s => (Ok (existsb (String.eqb "genomes") (catalog s)), s)) ;;
  if negb tablesExist then
    say ConsoleLog "Creating database schema..." [] ;;
    sqlCreate faulty ["genomes"] ;;
    sqlCreate faulty ["annotations"] ;;
    sqlCreate faulty
      [ "idx_annotations_sequence_id"; "idx_annotations_feature_type";
        "idx_annotations_locus_tag"; "idx_annotations_gene" ]
  else ret tt.

(** Body of the loop over the lines of a batch: one [insertStmt.run] for a
    line of 8 columns or more. *)
Definition insertLine (genomeId : value) (line : string) : M unit :=
  let parts := Js.split TAB line in
  if length parts <? 8 then ret tt
  else sqlInsert faulty "annotations" [annotationRow (sqliteDbxrefs parts) genomeId parts].

(** The part of [processTsvFile] inside [try]. *)
Definition importTsv (filePath : string) : M unit :=
  fileContent <- readFile files filePath ;;
  let lines := Js.split LF fileContent in
  let headerLines := List.filter isHeaderLine lines in
  let dataLines := List.filter isDataLine lines in
  let metadata := parseMetadata headerLines in
  let fileName := basename filePath in
  let sampleId := stripExtension fileName in
  sqlBegin faulty ;;
  genomeId <- sqlInsertKeyed faulty "genomes" "id" (genomeRow sampleId metadata filePath) ;;
  let totalBatches := ceilDiv (length dataLines) batchSize in
  prepare ;;
  forM (seq 0 totalBatches)
    (fun batchIndex =>
       forM (batchOf batchSize dataLines batchIndex) (insertLine genomeId)) ;;
  finalize ;;
  sqlCommit faulty ;;
  say ConsoleLog "Imported ${dataLines.length} annotations from ${fileName}"
    [vnat (length dataLines); VText fileName].

Definition processTsvFile (filePath : string) : M unit :=
  say ConsoleLog "Processing file: ${filePath}" [VText filePath] ;;
  tryCatch (importTsv filePath)
    (fun error =>
       sqliteRollback ;;
       say ConsoleError "Error processing file ${filePath}:" [VText filePath] ;;
       throw error).

(** The counters of [main]. *)
Record tally := Tally { successCount : nat; errorCount : nat }.

(** The loop of [main] over [tsvFiles], from index [i]. *)
Fixpoint processEach (folderPath : string) (total i : nat) (tsvFiles : list string)
  (t : tally) : M tally :=
  match tsvFiles with
  | [] => ret t
  | file :: rest =>
      t' <- tryCatch
              (processTsvFile (pathJoin folderPath file) ;;
               ret (Tally (S (successCount t)) (errorCount t)))
              (fun error => ret (Tally (successCount t) (S (errorCount t)))) ;;
      say ConsoleLog "Processed ${i + 1}/${tsvFiles.length} files" [vnat (i + 1); vnat total] ;;
      processEach folderPath total (S i) rest t'
  end.

(** [main]; [listing] is what [readdir] answers, [None] when it fails. *)
Definition main (folderPath filePattern dbPath : string) (listing : option (list string))
  : M unit :=
  tryCatch
    (openDatabase ;;
     initializeDatabase ;;
     ls <- match listing with
           | Some l => ret l
           | None => throw (IoError folderPath)
           end ;;
     let tsvFiles := List.filter (matches filePattern) ls in
     (if length tsvFiles =? 0 then
        say ConsoleLog "No TSV files found in ${folderPath} matching pattern ${filePattern}"
          [VText folderPath; VText filePattern] ;;
        processExit 1
      else ret tt) ;;
     say ConsoleLog "Found ${tsvFiles.length} TSV files to import into ${dbPath}"
       [vnat (length tsvFiles); VText dbPath] ;;
     t <- processEach folderPath (length tsvFiles) 0 tsvFiles (Tally 0 0) ;;
     say ConsoleLog
       "Import completed: ${successCount} files successful, ${errorCount} files failed"
       [vnat (successCount t); vnat (errorCount t)] ;;
     closeDatabase)
    (fun error => say ConsoleError "Error:" [] ;; processExit 1).

End Importer.

End Sqlite.

End Tsv.

(** ** The JSON importer ([import-json-files.js]) *)

Module Json.

(** What [readFile] followed by [JSON.parse] yields for a path; [None] when
    either throws. *)
Definition disk := string -> option json.

(** Own property [k] of an object; [None] is undefined. *)
Fixpoint field (k : string) (fields : list (string * json)) : option json :=
  match fields with
  | [] => None
  | (k', v) :: rest => if String.eqb k k' then Some v else field k rest
  end.

(** [x.k]: a TypeError on null, undefined on every value that is no object
    (none of the names read here is a property of a string, a number, a
    boolean or an array). *)
Definition get (x : json) (k : string) : M (option json) :=
  match x with
  | JNull => throw TypeError
  | JObj fields => ret (field k fields)
  | _ => ret None
  end.

(** Truthiness of a property that was read. *)
Definition truthy (x : option json) : bool :=
  match x with
  | None => false
  | Some JNull => false
  | Some (JBool b) => b
  | Some (JNum n) => negb (Z.eqb n 0)
  | Some (JStr s) => Js.truthy s
  | Some (JArr _) => true
  | Some (JObj _) => true
  end.

(** [x || null] as a parameter. *)
Definition orNull (x : option json) : value :=
  match x with
  | Some j => if truthy x then VJson j else VNull
  | None => VNull
  end.

(** [x && Array.isArray(x)]: the items of the array, if it is one. *)
Definition asArray (x : option json) : option (list json) :=
  match x with
  | Some (JArr items) => Some items
  | _ => None
  end.

Section Importer.

Variable faulty : nat -> bool.
Variable files : disk.

(** [x.k || null] for each property [k], under the column it is bound to. *)
Fixpoint params (x : json) (bindings : list (string * string)) : M row :=
  match bindings with
  | [] => ret []
  | (column, k) :: rest =>
      v <- get x k ;;
      r <- params x rest ;;
      ret ((column, orNull v) :: r)
  end.

(** A column bound to the property of the same name. *)
Definition same (names : list string) : list (string * string) :=
  map (fun k => (k, k)) names.

(** [if (x.k && Array.isArray(x.k)) for (const item of x.k) INSERT INTO t
    (ownerColumn, itemColumn) VALUES (owner, item)] *)
Definition insertList (x : json) (k t ownerColumn itemColumn : string) (owner : value)
  : M unit :=
  l <- get x k ;;
  match asArray l with
  | Some items =>
      forM items
        (fun item => sqlInsert faulty t [[(ownerColumn, owner); (itemColumn, VJson item)]])
  | None => ret tt
  end.

Definition insertFeature (feature : json) (genomeId : value) : M unit :=
  basic <- params feature
             (("feature_id", "id")
              :: same [ "type"; "contig"; "start"; "stop"; "strand"; "frame"; "gene";
                        "product"; "start_type"; "rbs_motif"; "locus" ]) ;;
  featureId <- sqlInsertKeyed faulty "features" "id" (("genome_id", genomeId) :: basic) ;;
  insertList feature "db_xrefs" "db_xrefs" "feature_id" "db_xref" featureId ;;
  insertList feature "genes" "genes" "feature_id" "gene" featureId ;;
  ups <- get feature "ups" ;;
  (match ups with
   | Some u =>
       if truthy ups then
         r <- params u (same ["uniparc_id"; "ncbi_nrp_id"; "uniref100_id"]) ;;
         upsId <- sqlInsertKeyed faulty "ups" "id" (("feature_id", featureId) :: r) ;;
         insertList u "db_xrefs" "ups_db_xrefs" "ups_id" "db_xref" upsId
       else ret tt
   | None => ret tt
   end) ;;
  ips <- get feature "ips" ;;
  (match ips with
   | Some i =>
       if truthy ips then
         r <- params i (same ["uniref100_id"; "uniref90_id"]) ;;
         sqlInsert faulty "ips" [("feature_id", featureId) :: r]
       else ret tt
   | None => ret tt
   end) ;;
  psc <- get feature "psc" ;;
  (match psc with
   | Some p =>
       if truthy psc then
         r <- params p (same ["uniref90_id"; "gene"; "product"; "uniref50_id"; "cog_id"; "cog_category"]) ;;
         pscId <- sqlInsertKeyed faulty "psc" "id" (("feature_id", featureId) :: r) ;;
         insertList p "go_ids" "psc_go_ids" "psc_id" "go_id" pscId ;;
         insertList p "ec_ids" "psc_ec_ids" "psc_id" "ec_id" pscId
       else ret tt
   | None => ret tt
   end) ;;
  pscc <- get feature "pscc" ;;
  match pscc with
  | Some p =>
      if truthy pscc then
        r <- params p (same ["uniref50_id"; "product"]) ;;
        psccId <- sqlInsertKeyed faulty "pscc" "id" (("feature_id", featureId) :: r) ;;
        insertList p "db_xrefs" "pscc_db_xrefs" "pscc_id" "db_xref" psccId
      else ret tt
  | None => ret tt
  end.

(** [processFile]: the statements run on a pooled client with no
    transaction around them (BEGIN, COMMIT and ROLLBACK are commented out
    in the source), and no error leaves the function. *)
Definition processFile (filePath : string) : M unit :=
  say ConsoleLog "Processing file: ${filePath}" [VText filePath] ;;
  tryCatch
    (jsonData <- match files filePath with
                 | Some j => ret j
                 | None => throw (IoError filePath)
                 end ;;
     features <- get jsonData "features" ;;
     match (if truthy features then asArray features else None) with
     | None =>
         say ConsoleWarn "No features array found in file: ${filePath}" [VText filePath]
     | Some items =>
         connect faulty ;;
         tryCatch
           (let fileName := basename filePath in
            genomeId <- sqlInsertKeyed faulty "genomes" "id" [("filename", VText fileName)] ;;
            forM items (fun feature => insertFeature feature genomeId) ;;
            say ConsoleLog "Successfully imported ${jsonData.features.length} features from ${filePath}"
              [vnat (length items); VText filePath])
           (fun err => say ConsoleError "Error processing file ${filePath}:" [VText filePath])
     end)
    (fun err => say ConsoleError "Error reading or parsing file ${filePath}:" [VText filePath]).

(** The loop of [processDirectory]: [inFlight] counts the promises pushed
    since the last [Promise.all].  Each import is run when it is pushed;
    how the imports in flight interleave, and what becomes of those still
    in flight when the pool is closed, is outside this sequential model. *)
Fixpoint processEach (dirPath : string) (jsonFiles : list string) (inFlight : nat)
  : M unit :=
  match jsonFiles with
  | [] => ret tt
  | file :: rest =>
      processFile (pathJoin dirPath file) ;;
      processEach dirPath rest (if 4 <=? S inFlight then 0 else S inFlight)
  end.

(** [processDirectory]; [listing] is what [readdir] answers, [None] when it
    fails.  Closing the pool in [finally] touches no row. *)
Definition processDirectory (dirPath : string) (listing : option (list string)) : M unit :=
  tryCatch
    (ls <- match listing with
           | Some l => ret l
           | None => throw (IoError dirPath)
           end ;;
     let jsonFiles := List.filter (fun file => Js.endsWith ".json" (Js.toLowerCase file)) ls in
     say ConsoleLog "Found ${jsonFiles.length} JSON files to process" [vnat (length jsonFiles)] ;;
     processEach dirPath jsonFiles 0 ;;
     say ConsoleLog "Finished processing all files" [])
    (fun err => say ConsoleError "Error reading directory:" []).

End Importer.

End Json.

(** * Properties *)

(** ** Splitting *)

Lemma includesChar_app c a b :
  Js.includesChar c (a +:+ b) = Js.includesChar c a || Js.includesChar c b.
Proof.
  induction a as [|d a IH]; simpl; [reflexivity|].
  rewrite IH. apply orb_assoc.
Qed.



Lemma split_length_pos c s : 0 < length (Js.split c s).
Proof.
  induction s as [|d s IH]; simpl; [lia|].
  destruct (Ascii.eqb d c); simpl; [lia|].
  destruct (Js.split c s); simpl in *; lia.
Qed.


Lemma truthy_nonempty s : s <> EmptyString -> Js.truthy s = true.
Proof. destruct s; [congruence | reflexivity]. Qed.

(** ** The attribute parser *)


















(** ** Feature and annotation rows *)

Lemma nth_split_columns (columns : list string) :
  9 <= length columns ->
  exists rest,
    columns = nth 0 columns "" :: nth 1 columns "" :: nth 2 columns ""
              :: nth 3 columns "" :: nth 4 columns "" :: nth 5 columns ""
              :: nth 6 columns "" :: nth 7 columns "" :: nth 8 columns "" :: rest.
Proof.
  intros H.
  do 9 (destruct columns as [|? columns]; [simpl in H; lia|]).
  exists columns. reflexivity.
Qed.


Definition tabbed (fields : list string) : string :=
  Js.join (String Gff.TAB EmptyString) fields.




(** ** Files with no feature array, folders with no matching file *)

Definition processingLine (filePath : string) : logline :=
  LogLine ConsoleLog "Processing file: ${filePath}" [VText filePath].



Definition isJsonFile (file : string) : bool := Js.endsWith ".json" (Js.toLowerCase file).

Ltac plan_cases :=
  repeat match goal with
         | |- context [if ?f ?k then _ else _] =>
             match type of f with nat -> bool => destruct (f k) end
         end.

(** C7, as the code has it. Over a folder that lists no matching file:
    both TSV importers exit with code 1 and leave every row as it was (the
    PostgreSQL one makes no database call at all; the SQLite one has opened
    the database and created its schema when absent); the GFF importer and
    the JSON importer make no database call, log a count of zero and their
    completion, and end normally, with exit code 0. *)
Theorem no_matching_file (faulty : nat -> bool) (folderPath filePattern dbPath : string)
  (ls : list string) (s : session) :
  (List.filter (Tsv.matches filePattern) ls = [] ->
     (forall files,
        let run := Tsv.Pg.main faulty files folderPath filePattern (Some ls) s in
        fst run = Exit 1 /\ visible (snd run) = visible s
        /\ pending (snd run) = pending s /\ issued (snd run) = issued s)
     /\ (forall files,
           let run := Tsv.Sqlite.main faulty files folderPath filePattern dbPath (Some ls) s in
           fst run = Exit 1 /\ visible (snd run) = visible s
           /\ pending (snd run) = pending s))
  /\ (List.filter Gff.isGffFile ls = [] ->
      forall files,
        let run := Gff.script faulty files folderPath (Some ls) s in
        fst run = Ok tt /\ exitCode (fst run) = 0
        /\ visible (snd run) = visible s /\ pending (snd run) = pending s
        /\ issued (snd run) = issued s
        /\ console (snd run)
           = console s
             ++ [ LogLine ConsoleLog "Scanning folder: ${folderPath}" [VText folderPath];
                  LogLine ConsoleLog "Found ${gffFiles.length} GFF file(s)" [vnat 0];
                  LogLine ConsoleLog "\nAll files processed." [];
                  LogLine ConsoleLog "Script completed." [] ])
  /\ (List.filter isJsonFile ls = [] ->
      forall files,
        let run := Json.processDirectory faulty files folderPath (Some ls) s in
        fst run = Ok tt /\ exitCode (fst run) = 0
        /\ visible (snd run) = visible s /\ pending (snd run) = pending s
        /\ issued (snd run) = issued s
        /\ console (snd run)
           = console s
             ++ [ LogLine ConsoleLog "Found ${jsonFiles.length} JSON files to process" [vnat 0];
                  LogLine ConsoleLog "Finished processing all files" [] ]).
Proof.
  split; [|split].
  - intros Hnone. split; intros files run; unfold run.
    + unfold Tsv.Pg.main, tryCatch, bind, ret, say, processExit.
      rewrite Hnone. cbn. repeat split; reflexivity.
    + unfold Tsv.Sqlite.main, Tsv.Sqlite.openDatabase, Tsv.Sqlite.initializeDatabase,
        Tsv.Sqlite.closeDatabase, sqlCreate, tryCatch, bind, ret, say, processExit, call.
      rewrite Hnone.
      cbn [length Nat.eqb visible pending sequences catalog issued console].
      plan_cases; cbn [visible pending sequences catalog issued console];
        try (repeat split; reflexivity).
      all: destruct (existsb _ _); cbn [negb visible pending sequences catalog issued console];
        plan_cases; cbn [visible pending sequences catalog issued console fst snd];
        repeat split; reflexivity.
  - intros Hnone files run. unfold run.
    unfold Gff.script, Gff.processGffFolder, tryCatch, bind, ret, say.
    rewrite Hnone. cbn. rewrite <- !app_assoc. repeat split; reflexivity.
  - intros Hnone files run. unfold run.
    unfold Json.processDirectory, tryCatch, bind, ret, say.
    fold isJsonFile. rewrite Hnone. cbn. rewrite <- !app_assoc. repeat split; reflexivity.
Qed.

Lemma no_matching_file_witness :
  let s := Session [("genomes", [("id", vnat 1)])] None (fun _ => 2) [] 0 [] in
  let ls := ["notes.txt"; "README"] in
  fst (Tsv.Pg.main (fun _ => false) (fun _ => None) "data" ".tsv" (Some ls) s) = Exit 1
  /\ fst (Gff.script (fun _ => false) (fun _ => None) "data" (Some ls) s) = Ok tt
  /\ fst (Json.processDirectory (fun _ => false) (fun _ => None) "data" (Some ls) s) = Ok tt.
Proof.
  pose proof (no_matching_file (fun _ => false) "data" ".tsv" "bakta.db"
                ["notes.txt"; "README"]
                (Session [("genomes", [("id", vnat 1)])] None (fun _ => 2) [] 0 []))
    as (Htsv & Hgff & Hjson).
  split; [|split].
  - exact (proj1 (proj1 (Htsv eq_refl) (fun _ => None))).
  - exact (proj1 (Hgff eq_refl (fun _ => None))).
  - exact (proj1 (Hjson eq_refl (fun _ => None))).
Defined.

(** The GFF importer over a folder with no GFF file ends with exit code 0,
    not 1. *)
Lemma gff_empty_folder_exits_normally :
  let ls := ["notes.txt"; "README"] in
  let s := Session [] None (fun _ => 1) [] 0 [] in
  List.filter Gff.isGffFile ls = []
  /\ exitCode (fst (Gff.script (fun _ => false) (fun _ => None) "data" (Some ls) s)) <> 1.
Proof. split; [reflexivity | vm_compute; discriminate]. Qed.

(** ** Invariants of a run *)

(** A relation between the session before and after that every step
    keeps. *)
Definition keeps (I : session -> session -> Prop) {A} (m : M A) : Prop :=
  forall s, I s (snd (m s)).

Section Keeps.

Variable I : session -> session -> Prop.
Hypothesis I_refl : forall s, I s s.
Hypothesis I_trans : forall s1 s2 s3, I s1 s2 -> I s2 s3 -> I s1 s3.

Lemma keeps_ret {A} (a : A) : keeps I (ret a).
Proof. intros s. apply I_refl. Qed.

Lemma keeps_throw {A} (e : error) : keeps I (@throw A e).
Proof. intros s. apply I_refl. Qed.

Lemma keeps_exit {A} (c : nat) : keeps I (@processExit A c).
Proof. intros s. apply I_refl. Qed.

Lemma keeps_bind {A B} (m : M A) (k : A -> M B) :
  keeps I m -> (forall a, keeps I (k a)) -> keeps I (bind m k).
Proof.
  intros Hm Hk s. unfold bind. specialize (Hm s).
  destruct (m s) as [[a|e|c] s1]; cbn [snd] in *; try exact Hm.
  eapply I_trans; [exact Hm | apply Hk].
Qed.

Lemma keeps_tryCatch {A} (m : M A) (h : error -> M A) :
  keeps I m -> (forall e, keeps I (h e)) -> keeps I (tryCatch m h).
Proof.
  intros Hm Hh s. unfold tryCatch. specialize (Hm s).
  destruct (m s) as [[a|e|c] s1]; cbn [snd] in *; try exact Hm.
  eapply I_trans; [exact Hm | apply Hh].
Qed.

Lemma keeps_forM {A} (l : list A) (f : A -> M unit) :
  (forall x, keeps I (f x)) -> keeps I (forM l f).
Proof.
  intros Hf. induction l as [|x l IH]; cbn [forM].
  - apply keeps_ret.
  - apply keeps_bind; [apply Hf | intros _; exact IH].
Qed.

Lemma keeps_foldM {A S} (f : S -> A -> M S) (l : list A) :
  (forall st x, keeps I (f st x)) -> forall st, keeps I (foldM f l st).
Proof.
  intros Hf. induction l as [|x l IH]; intros st; cbn [foldM].
  - apply keeps_ret.
  - apply keeps_bind; [apply Hf | intros st'; apply IH].
Qed.

End Keeps.

(** Outcomes that are not [process.exit]. *)
Definition returns {A} (m : M A) : Prop := forall s c, fst (m s) <> Exit c.

Lemma returns_ret {A} (a : A) : returns (ret a).
Proof. intros s c. discriminate. Qed.

Lemma returns_throw {A} (e : error) : returns (@throw A e).
Proof. intros s c. discriminate. Qed.

Lemma returns_bind {A B} (m : M A) (k : A -> M B) :
  returns m -> (forall a, returns (k a)) -> returns (bind m k).
Proof.
  intros Hm Hk s c. unfold bind. specialize (Hm s).
  destruct (m s) as [[a|e|c'] s1]; cbn [fst] in *.
  - apply Hk.
  - discriminate.
  - exfalso. exact (Hm c' eq_refl).
Qed.

Lemma returns_tryCatch {A} (m : M A) (h : error -> M A) :
  returns m -> (forall e, returns (h e)) -> returns (tryCatch m h).
Proof.
  intros Hm Hh s c. unfold tryCatch. specialize (Hm s).
  destruct (m s) as [[a|e|c'] s1]; cbn [fst] in *.
  - discriminate.
  - apply Hh.
  - exfalso. exact (Hm c' eq_refl).
Qed.

Lemma returns_forM {A} (l : list A) (f : A -> M unit) :
  (forall x, returns (f x)) -> returns (forM l f).
Proof.
  intros Hf. induction l as [|x l IH]; cbn [forM].
  - apply returns_ret.
  - apply returns_bind; [apply Hf | intros _; exact IH].
Qed.

Lemma returns_foldM {A S} (f : S -> A -> M S) (l : list A) :
  (forall st x, returns (f st x)) -> forall st, returns (foldM f l st).
Proof.
  intros Hf. induction l as [|x l IH]; intros st; cbn [foldM].
  - apply returns_ret.
  - apply returns_bind; [apply Hf | intros st'; apply IH].
Qed.

Lemma returns_say m t a : returns (say m t a).
Proof. intros s c. discriminate. Qed.

Lemma returns_call faulty : returns (call faulty).
Proof. intros s c. unfold call. destruct (faulty _); discriminate. Qed.

Lemma returns_write f : returns (write f).
Proof. intros s c. unfold write. destruct (pending s); discriminate. Qed.

Lemma returns_read {A} (f : tables -> A) : returns (read f).
Proof. intros s c. discriminate. Qed.

Lemma returns_nextval t : returns (nextval t).
Proof. intros s c. discriminate. Qed.

Lemma returns_sqlRollback : returns sqlRollback.
Proof. intros s c. discriminate. Qed.

Lemma returns_sqliteRollback : returns sqliteRollback.
Proof. intros s c. unfold sqliteRollback. destruct (pending s); discriminate. Qed.

Lemma returns_step (f : session -> session) : returns (fun s => (Ok tt, f s)).
Proof. intros s c. discriminate. Qed.

Create HintDb returns.

#[local] Hint Resolve returns_ret returns_throw returns_say returns_call returns_write
  returns_read returns_nextval returns_sqlRollback returns_sqliteRollback
  returns_step : returns.

Ltac returns_tac :=
  repeat first
    [ progress auto with returns
    | apply returns_bind; [|intros ?]
    | apply returns_tryCatch; [|intros ?]
    | apply returns_forM; intros ?
    | apply returns_foldM; intros ? ?
    | match goal with
      | |- returns (if ?b then _ else _) => destruct b
      | |- returns (match ?x with _ => _ end) => destruct x
      end ].

Lemma returns_readFile files p : returns (Tsv.readFile files p).
Proof. unfold Tsv.readFile. returns_tac. Qed.

Lemma returns_sqlite_processTsvFile faulty files p :
  returns (Tsv.Sqlite.processTsvFile faulty files p).
Proof.
  unfold Tsv.Sqlite.processTsvFile, Tsv.Sqlite.importTsv, Tsv.Sqlite.insertLine,
    Tsv.Sqlite.prepare, Tsv.Sqlite.finalize,
    sqlBegin, sqlCommit, sqlInsert, sqlInsertKeyed.
  returns_tac; apply returns_readFile.
Qed.

(** ** What a run adds to the console *)

(** The console grew by lines that all satisfy [P]. *)
Definition says (P : logline -> Prop) (s s' : session) : Prop :=
  exists extra, console s' = console s ++ extra /\ Forall P extra.

Lemma says_refl P s : says P s s.
Proof. exists []. split; [symmetry; apply app_nil_r | constructor]. Qed.

Lemma says_trans P s1 s2 s3 : says P s1 s2 -> says P s2 s3 -> says P s1 s3.
Proof.
  intros (e1 & H1 & F1) (e2 & H2 & F2). exists (e1 ++ e2). split.
  - rewrite H2, H1. symmetry. apply app_assoc.
  - apply Forall_app. split; assumption.
Qed.

(** Steps that leave the console alone. *)
Definition silent {A} (m : M A) : Prop := forall s, console (snd (m s)) = console s.

Lemma silent_keeps P {A} (m : M A) : silent m -> keeps (says P) m.
Proof. intros H s. exists []. rewrite H, app_nil_r. split; [reflexivity | constructor]. Qed.

Lemma silent_call faulty : silent (call faulty).
Proof. intros s. unfold call. destruct (faulty _); reflexivity. Qed.

Lemma silent_write f : silent (write f).
Proof. intros s. unfold write. destruct (pending s); reflexivity. Qed.

Lemma silent_read {A} (f : tables -> A) : silent (read f).
Proof. intros s. reflexivity. Qed.

Lemma silent_nextval t : silent (nextval t).
Proof. intros s. reflexivity. Qed.

Lemma silent_sqlRollback : silent sqlRollback.
Proof. intros s. reflexivity. Qed.

Lemma silent_sqliteRollback : silent sqliteRollback.
Proof. intros s. unfold sqliteRollback. destruct (pending s); reflexivity. Qed.

Lemma says_say P m t a : P (LogLine m t a) -> keeps (says P) (say m t a).
Proof.
  intros H s. exists [LogLine m t a]. split; [reflexivity | repeat constructor; exact H].
Qed.

Ltac says_tac P :=
  repeat first
    [ apply (keeps_ret (says P) (says_refl P))
    | apply (keeps_throw (says P) (says_refl P))
    | apply silent_keeps;
      first [ apply silent_call | apply silent_write | apply silent_read
            | apply silent_nextval | apply silent_sqlRollback
            | apply silent_sqliteRollback | (intros ?; reflexivity) ]
    | apply says_say
    | apply (keeps_bind (says P) (says_trans P)); [|intros ?]
    | apply (keeps_tryCatch (says P) (says_trans P)); [|intros ?]
    | apply (keeps_forM (says P) (says_refl P) (says_trans P)); intros ?
    | apply (keeps_foldM (says P) (says_refl P) (says_trans P)); intros ? ?
    | match goal with
      | |- keeps _ (if ?b then _ else _) => destruct b
      | |- keeps _ (match ?x with _ => _ end) => destruct x
      end ].

(** A console line that does not announce a file. *)
Definition notProcessing (l : logline) : Prop :=
  log_template l <> "Processing file: ${filePath}".

(** The paths of the files announced on the console, oldest first. *)
Definition processedPaths (c : list logline) : list value :=
  flat_map
    (fun l =>
       if String.eqb (log_template l) "Processing file: ${filePath}"
       then log_args l else [])
    c.

Lemma processedPaths_app c1 c2 :
  processedPaths (c1 ++ c2) = processedPaths c1 ++ processedPaths c2.
Proof. apply flat_map_app. Qed.

Lemma processedPaths_quiet extra :
  Forall notProcessing extra -> processedPaths extra = [].
Proof.
  induction 1 as [|l extra Hl _ IH]; [reflexivity|].
  cbn [processedPaths flat_map]. apply String.eqb_neq in Hl. rewrite Hl.
  exact IH.
Qed.

Lemma sqlite_importTsv_says faulty files p :
  keeps (says notProcessing) (Tsv.Sqlite.importTsv faulty files p).
Proof.
  unfold Tsv.Sqlite.importTsv, Tsv.Sqlite.insertLine, Tsv.Sqlite.prepare,
    Tsv.Sqlite.finalize, Tsv.readFile, sqlBegin, sqlCommit, sqlInsert, sqlInsertKeyed.
  says_tac notProcessing; unfold notProcessing; cbn; discriminate.
Qed.

(** One file in the SQLite importer: never an exit, one announcement. *)
Lemma sqlite_processTsvFile_console faulty files p s :
  processedPaths (console (snd (Tsv.Sqlite.processTsvFile faulty files p s)))
  = processedPaths (console s) ++ [VText p].
Proof.
  assert (H : keeps (says notProcessing)
                (tryCatch (Tsv.Sqlite.importTsv faulty files p)
                   (fun error =>
                      sqliteRollback ;;
                      say ConsoleError "Error processing file ${filePath}:" [VText p] ;;
                      throw error))).
  { apply (keeps_tryCatch _ (says_trans _)); [apply sqlite_importTsv_says|].
    intros e. says_tac notProcessing. unfold notProcessing; cbn; discriminate. }
  unfold Tsv.Sqlite.processTsvFile, bind at 1. unfold say at 1.
  match goal with |- context [tryCatch ?m ?h ?s1] => destruct (H s1) as (extra & Hc & Hq) end.
  rewrite Hc. cbn [console]. rewrite !processedPaths_app.
  rewrite (processedPaths_quiet extra Hq), app_nil_r. reflexivity.
Qed.

Definition processedLine (i total : nat) : logline :=
  LogLine ConsoleLog "Processed ${i + 1}/${tsvFiles.length} files" [vnat (i + 1); vnat total].

Lemma sqlite_processEach_total faulty files folderPath total :
  forall tsvFiles i t s,
  exists t' s',
    Tsv.Sqlite.processEach faulty files folderPath total i tsvFiles t s = (Ok t', s')
    /\ Tsv.Sqlite.successCount t' + Tsv.Sqlite.errorCount t'
       = Tsv.Sqlite.successCount t + Tsv.Sqlite.errorCount t + length tsvFiles
    /\ processedPaths (console s')
       = processedPaths (console s)
         ++ map (fun file => VText (pathJoin folderPath file)) tsvFiles.
Proof.
  induction tsvFiles as [|file rest IH]; intros i t s.
  - exists t, s. cbn. rewrite app_nil_r. repeat split; lia.
  - cbn [Tsv.Sqlite.processEach].
    pose proof (returns_sqlite_processTsvFile faulty files (pathJoin folderPath file) s) as Hret.
    pose proof (sqlite_processTsvFile_console faulty files (pathJoin folderPath file) s) as Hcon.
    unfold bind at 1. unfold tryCatch at 1. unfold bind at 1.
    destruct (Tsv.Sqlite.processTsvFile faulty files (pathJoin folderPath file) s)
      as [[[]|e|c] s1]; cbn [fst snd] in *; [| |exfalso; exact (Hret c eq_refl)].
    + unfold ret at 1. unfold bind at 1. unfold say at 1.
      match goal with |- context [Tsv.Sqlite.processEach _ _ _ _ _ _ ?t1 ?s2] =>
        destruct (IH (S i) t1 s2) as (t' & s' & Hrun & Hsum & Hpaths) end.
      exists t', s'. split; [exact Hrun|]. split.
      * rewrite Hsum. cbn. lia.
      * rewrite Hpaths. cbn [console]. rewrite processedPaths_app, Hcon.
        cbn. rewrite app_nil_r, <- app_assoc. reflexivity.
    + unfold ret at 1. unfold bind at 1. unfold say at 1.
      match goal with |- context [Tsv.Sqlite.processEach _ _ _ _ _ _ ?t1 ?s2] =>
        destruct (IH (S i) t1 s2) as (t' & s' & Hrun & Hsum & Hpaths) end.
      exists t', s'. split; [exact Hrun|]. split.
      * rewrite Hsum. cbn. lia.
      * rewrite Hpaths. cbn [console]. rewrite processedPaths_app, Hcon.
        cbn. rewrite app_nil_r, <- app_assoc. reflexivity.
Qed.

Definition tallyLine (t : Tsv.Sqlite.tally) : logline :=
  LogLine ConsoleLog
    "Import completed: ${successCount} files successful, ${errorCount} files failed"
    [vnat (Tsv.Sqlite.successCount t); vnat (Tsv.Sqlite.errorCount t)].

Definition foundLine (n : nat) : logline :=
  LogLine ConsoleLog "Found ${tsvFiles.length} TSV files to import" [vnat n].

Definition addLine (l : logline) (s : session) : session :=
  Session (visible s) (pending s) (sequences s) (catalog s) (issued s) (console s ++ [l]).

Lemma sqlite_initializeDatabase_says faulty :
  keeps (says notProcessing) (Tsv.Sqlite.initializeDatabase faulty).
Proof.
  unfold Tsv.Sqlite.initializeDatabase, sqlCreate.
  says_tac notProcessing. unfold notProcessing; cbn; discriminate.
Qed.

Lemma sqlite_main_unfold faulty files folderPath filePattern dbPath ls s s1 s2 t s4 :
  let tsvFiles := List.filter (Tsv.matches filePattern) ls in
  (length tsvFiles =? 0) = false ->
  Tsv.Sqlite.openDatabase faulty s = (Ok tt, s1) ->
  Tsv.Sqlite.initializeDatabase faulty s1 = (Ok tt, s2) ->
  Tsv.Sqlite.processEach faulty files folderPath (length tsvFiles) 0 tsvFiles
    (Tsv.Sqlite.Tally 0 0)
    (addLine (LogLine ConsoleLog
                "Found ${tsvFiles.length} TSV files to import into ${dbPath}"
                [vnat (length tsvFiles); VText dbPath]) s2) = (Ok t, s4) ->
  Tsv.Sqlite.main faulty files folderPath filePattern dbPath (Some ls) s
  = match call faulty (addLine (tallyLine t) s4) with
    | (Throw _, s') => (Exit 1, addLine (LogLine ConsoleError "Error:" []) s')
    | r => r
    end.
Proof.
  intros tsvFiles Hlen Hopen Hinit Hrun.
  unfold Tsv.Sqlite.main. unfold tryCatch at 1.
  unfold bind at 1. rewrite Hopen. unfold bind at 1. rewrite Hinit.
  unfold bind at 1. unfold ret at 1. fold tsvFiles. rewrite Hlen.
  unfold bind at 1. unfold ret at 1. unfold bind at 1. unfold say at 1.
  unfold addLine in Hrun. unfold bind at 1. rewrite Hrun.
  unfold bind at 1. unfold say at 1. unfold Tsv.Sqlite.closeDatabase, tallyLine, addLine.
  destruct (call faulty _) as [[[]|e|c] s5]; reflexivity.
Qed.

(** C5, as the code has it. In the SQLite TSV importer, once the database
    is open and initialised, a folder with matching files is processed to
    the end whatever fails on the way: every matching file is announced, in
    order, and the tally line is logged with counts that add up to the
    number of files.  In the PostgreSQL TSV importer the loop ends at the
    first file whose import throws, in the state that import left, and
    [main] then logs the error and exits with code 1. *)
Theorem tsv_main_after_failure (faulty : nat -> bool) (files : Tsv.disk)
  (folderPath filePattern dbPath : string) (ls : list string) :
  let tsvFiles := List.filter (Tsv.matches filePattern) ls in
  tsvFiles <> [] ->
  (forall s s1 s2,
     Tsv.Sqlite.openDatabase faulty s = (Ok tt, s1) ->
     Tsv.Sqlite.initializeDatabase faulty s1 = (Ok tt, s2) ->
     let run := Tsv.Sqlite.main faulty files folderPath filePattern dbPath (Some ls) s in
     processedPaths (console (snd run))
     = processedPaths (console s)
       ++ map (fun file => VText (pathJoin folderPath file)) tsvFiles
     /\ exists t, In (tallyLine t) (console (snd run))
          /\ Tsv.Sqlite.successCount t + Tsv.Sqlite.errorCount t = length tsvFiles)
  /\ (forall file rest total i e s1 s2,
        Tsv.Pg.processTsvFile faulty files (pathJoin folderPath file) s1 = (Throw e, s2) ->
        Tsv.Pg.processEach faulty files folderPath total i (file :: rest) s1 = (Throw e, s2))
  /\ (forall s e s2,
        Tsv.Pg.processEach faulty files folderPath (length tsvFiles) 0 tsvFiles
          (addLine (foundLine (length tsvFiles)) s) = (Throw e, s2) ->
        Tsv.Pg.main faulty files folderPath filePattern (Some ls) s
        = (Exit 1, addLine (LogLine ConsoleError "Error:" []) s2)).
Proof.
  intros tsvFiles Hne.
  assert (Hlen : (length tsvFiles =? 0) = false).
  { destruct tsvFiles; [congruence | reflexivity]. }
  split; [|split].
  - intros s s1 s2 Hopen Hinit run.
    assert (Hs2 : processedPaths (console s2) = processedPaths (console s)).
    { pose proof (silent_call faulty s) as H1.
      unfold Tsv.Sqlite.openDatabase in Hopen. rewrite Hopen in H1. cbn [snd] in H1.
      destruct (sqlite_initializeDatabase_says faulty s1) as (extra & Hc & Hq).
      rewrite Hinit in Hc. cbn [snd] in Hc.
      rewrite Hc, processedPaths_app, (processedPaths_quiet _ Hq), app_nil_r, H1.
      reflexivity. }
    assert (Hfound : processedPaths (console (addLine (LogLine ConsoleLog
                "Found ${tsvFiles.length} TSV files to import into ${dbPath}"
                [vnat (length tsvFiles); VText dbPath]) s2)) = processedPaths (console s)).
    { cbn [addLine console]. rewrite processedPaths_app, Hs2. cbn. apply app_nil_r. }
    destruct (sqlite_processEach_total faulty files folderPath (length tsvFiles)
                tsvFiles 0 (Tsv.Sqlite.Tally 0 0)
                (addLine (LogLine ConsoleLog
                   "Found ${tsvFiles.length} TSV files to import into ${dbPath}"
                   [vnat (length tsvFiles); VText dbPath]) s2))
      as (t & s4 & Hrun & Hsum & Hpaths).
    rewrite Hfound in Hpaths.
    unfold run.
    rewrite (sqlite_main_unfold faulty files folderPath filePattern dbPath ls s s1 s2 t s4
               Hlen Hopen Hinit Hrun).
    unfold call, addLine. cbn [visible pending sequences catalog issued console].
    destruct (faulty _); cbn [fst snd console].
    + rewrite !processedPaths_app. cbn [processedPaths flat_map String.eqb Ascii.eqb
        Bool.eqb log_template tallyLine]. rewrite !app_nil_r. split; [exact Hpaths|].
      exists t. split; [|cbn in Hsum; lia].
      apply in_or_app. left. apply in_or_app. right. left. reflexivity.
    + rewrite !processedPaths_app. cbn [processedPaths flat_map String.eqb Ascii.eqb
        Bool.eqb log_template tallyLine]. rewrite !app_nil_r. split; [exact Hpaths|].
      exists t. split; [|cbn in Hsum; lia].
      apply in_or_app. right. left. reflexivity.
  - intros file rest total i e s1 s2 Hrun.
    cbn [Tsv.Pg.processEach]. unfold bind at 1. rewrite Hrun. reflexivity.
  - intros s e s2 Hrun.
    unfold Tsv.Pg.main. unfold tryCatch at 1.
    unfold bind at 1. unfold ret at 1. fold tsvFiles. rewrite Hlen.
    unfold bind at 1. unfold ret at 1. unfold bind at 1. unfold say at 1.
    fold (foundLine (length tsvFiles)). fold (addLine (foundLine (length tsvFiles)) s).
    unfold bind at 1. rewrite Hrun. reflexivity.
Qed.

(** A folder of two TSV files: [a.tsv] cannot be read, [b.tsv] holds one
    annotation. *)
Definition twoFiles : Tsv.disk :=
  fun p =>
    if String.eqb p "data/b.tsv"
    then Some (tabbed ["c1"; "cds"; "1"; "9"; "+"; "L1"; "geneA"; "prod"])
    else None.

Definition emptySession : session := Session [] None (fun _ => 1) [] 0 [].

Lemma tsv_main_after_failure_witness :
  let run := Tsv.Sqlite.main (fun _ => false) twoFiles "data" ".tsv" "bakta.db"
               (Some ["a.tsv"; "b.tsv"]) emptySession in
  processedPaths (console (snd run)) = [VText "data/a.tsv"; VText "data/b.tsv"]
  /\ exists t, In (tallyLine t) (console (snd run))
       /\ Tsv.Sqlite.successCount t + Tsv.Sqlite.errorCount t = 2.
Proof.
  assert (Hne : List.filter (Tsv.matches ".tsv") ["a.tsv"; "b.tsv"] <> [])
    by (vm_compute; discriminate).
  pose (s1 := snd (Tsv.Sqlite.openDatabase (fun _ => false) emptySession)).
  pose (s2 := snd (Tsv.Sqlite.initializeDatabase (fun _ => false) s1)).
  assert (H1 : Tsv.Sqlite.openDatabase (fun _ => false) emptySession = (Ok tt, s1))
    by (vm_compute; reflexivity).
  assert (H2 : Tsv.Sqlite.initializeDatabase (fun _ => false) s1 = (Ok tt, s2))
    by (vm_compute; reflexivity).
  pose proof (proj1 (tsv_main_after_failure (fun _ => false) twoFiles "data" ".tsv"
                       "bakta.db" ["a.tsv"; "b.tsv"] Hne) emptySession s1 s2 H1 H2) as H.
  vm_compute in H |- *. exact H.
Defined.

(** The PostgreSQL TSV importer over the same folder: the unreadable first
    file ends the run with exit code 1; the second file is never announced
    and none of its rows is written, and no tally is printed. *)
Lemma pg_main_stops_at_first_failure :
  let run := Tsv.Pg.main (fun _ => false) twoFiles "data" ".tsv"
               (Some ["a.tsv"; "b.tsv"]) emptySession in
  fst run = Exit 1
  /\ processedPaths (console (snd run)) = [VText "data/a.tsv"]
  /\ visible (snd run) = []
  /\ map log_template (console (snd run))
     = [ "Found ${tsvFiles.length} TSV files to import";
         "Processing file: ${filePath}";
         "Error processing file ${filePath}:";
         "Error:" ].
Proof. vm_compute. repeat split; reflexivity. Qed.

(** ** Transactions *)

Definition txOpen (s : session) : Prop := exists T, pending s = Some T.

(** Inside a transaction a step leaves the visible rows alone and the
    transaction open. *)
Definition inTx (s s' : session) : Prop :=
  txOpen s -> visible s' = visible s /\ txOpen s'.

Lemma inTx_refl s : inTx s s.
Proof. intros H. split; [reflexivity | exact H]. Qed.

Lemma inTx_trans s1 s2 s3 : inTx s1 s2 -> inTx s2 s3 -> inTx s1 s3.
Proof.
  intros H12 H23 H1. destruct (H12 H1) as [Hv H2]. destruct (H23 H2) as [Hv' H3].
  split; [congruence | exact H3].
Qed.

Lemma inTx_call faulty : keeps inTx (call faulty).
Proof.
  intros s H. unfold call. destruct (faulty _); cbn; split; auto.
Qed.

Lemma inTx_write f : keeps inTx (write f).
Proof.
  intros s [T H]. unfold write. rewrite H. cbn. split; [reflexivity | eexists; reflexivity].
Qed.

Lemma inTx_plain {A} (m : M A) :
  (forall s, visible (snd (m s)) = visible s /\ pending (snd (m s)) = pending s) ->
  keeps inTx m.
Proof.
  intros H s [T HT]. destruct (H s) as [Hv Hp]. split; [exact Hv|].
  exists T. congruence.
Qed.

Ltac inTx_tac :=
  repeat first
    [ apply (keeps_ret inTx inTx_refl)
    | apply (keeps_throw inTx inTx_refl)
    | apply inTx_call
    | apply inTx_write
    | apply inTx_plain; intros ?; split; reflexivity
    | apply (keeps_bind inTx inTx_trans); [|intros ?]
    | apply (keeps_forM inTx inTx_refl inTx_trans); intros ?
    | apply (keeps_foldM inTx inTx_refl inTx_trans); intros ? ?
    | match goal with
      | |- keeps _ (if ?b then _ else _) => destruct b
      | |- keeps _ (match ?x with _ => _ end) => destruct x
      end ].

(** A step after which the visible rows are as before. *)
Definition sameRows (s s' : session) : Prop := visible s' = visible s.

Lemma sameRows_refl s : sameRows s s.
Proof. reflexivity. Qed.

Lemma sameRows_trans s1 s2 s3 : sameRows s1 s2 -> sameRows s2 s3 -> sameRows s1 s3.
Proof. unfold sameRows. congruence. Qed.

(** Run inside a transaction, the computation changes the visible rows
    only if it ends normally. *)
Definition failsafe {A} (m : M A) : Prop :=
  forall s, txOpen s ->
    match fst (m s) with
    | Ok _ => True
    | _ => visible (snd (m s)) = visible s
    end.

Lemma failsafe_bind {A B} (m : M A) (k : A -> M B) :
  keeps inTx m -> (forall a, failsafe (k a)) -> failsafe (bind m k).
Proof.
  intros Hm Hk s Hs. unfold bind. destruct (Hm s Hs) as [Hv Hopen].
  destruct (m s) as [[a|e|c] s1]; cbn [fst snd] in *; try exact Hv.
  specialize (Hk a s1 Hopen). destruct (fst (k a s1)); [exact I | congruence | congruence].
Qed.

(** The end of every import: COMMIT, then console lines only. *)
Lemma failsafe_commit {B} faulty (k : M B) :
  (forall s, exists b, fst (k s) = Ok b) -> failsafe (sqlCommit faulty ;; k).
Proof.
  intros Hk s Hs. unfold sqlCommit, bind, call.
  cbn [visible pending sequences catalog issued console].
  destruct (faulty _); cbn [fst snd visible]; [reflexivity|].
  match goal with |- context [k ?s1] => destruct (Hk s1) as [b Hb] end.
  destruct (k _) as [o s2]. cbn [fst] in *. rewrite Hb. exact I.
Qed.

Lemma failsafe_keeps {A} (m : M A) : keeps inTx m -> failsafe m.
Proof.
  intros Hm s Hs. destruct (Hm s Hs) as [Hv _]. destruct (fst (m s)); auto.
Qed.

(** BEGIN on a clean connection, then a failsafe body: a failure leaves the
    visible rows as they were. *)
Lemma transaction_atomic {A} faulty (body : M A) :
  failsafe body ->
  forall s, pending s = None ->
    match fst ((sqlBegin faulty ;; body) s) with
    | Ok _ => True
    | _ => visible (snd ((sqlBegin faulty ;; body) s)) = visible s
    end.
Proof.
  intros Hbody s Hs. unfold sqlBegin, bind, call.
  cbn [visible pending sequences catalog issued console].
  destruct (faulty _); cbn [fst snd visible]; [reflexivity|].
  match goal with |- context [body ?s1] =>
    assert (Hopen : txOpen s1) by (eexists; reflexivity);
    specialize (Hbody s1 Hopen); destruct (body s1) as [[a|e|c] s2]
  end; cbn [fst snd] in *; auto.
Qed.

Lemma gff_lineStep_inTx faulty fileId st line :
  keeps inTx (Gff.lineStep faulty fileId st line).
Proof.
  unfold Gff.lineStep, Gff.headerLine, Gff.setFileColumn, Gff.insertFeatureBatch,
    sqlInsert, sqlInsertKeyed, sqlUpdate.
  inTx_tac.
Qed.

Lemma gff_importGff_failsafe faulty fileName filePath info :
  forall s, pending s = None ->
    match fst (Gff.importGff faulty fileName filePath info s) with
    | Ok _ => True
    | _ => visible (snd (Gff.importGff faulty fileName filePath info s)) = visible s
    end.
Proof.
  unfold Gff.importGff. apply transaction_atomic.
  apply failsafe_bind.
  { unfold Gff.openFileRecord, sqlSelect, sqlDelete, sqlUpdate, sqlInsertKeyed. inTx_tac. }
  intros fileId. apply failsafe_bind.
  { unfold Gff.readLines.
    apply (keeps_bind inTx inTx_trans); [inTx_tac|]. intros lines.
    apply (keeps_bind inTx inTx_trans).
    { apply (keeps_foldM inTx inTx_refl inTx_trans). intros st line.
      apply gff_lineStep_inTx. }
    intros st. unfold Gff.insertFeatureBatch, sqlInsert. inTx_tac. }
  intros st. apply failsafe_commit. intros s. eexists. reflexivity.
Qed.

Lemma pg_importTsv_failsafe faulty files filePath :
  forall s, pending s = None ->
    match fst (Tsv.Pg.importTsv faulty files filePath s) with
    | Ok _ => True
    | _ => visible (snd (Tsv.Pg.importTsv faulty files filePath s)) = visible s
    end.
Proof.
  unfold Tsv.Pg.importTsv. apply transaction_atomic.
  apply failsafe_bind; [unfold Tsv.readFile; inTx_tac|]. intros fileContent.
  apply failsafe_bind; [unfold sqlInsertKeyed; inTx_tac|]. intros genomeId.
  apply failsafe_bind; [unfold sqlInsert; inTx_tac|]. intros _.
  apply failsafe_commit. intros s. eexists. reflexivity.
Qed.

Lemma sqlite_importTsv_failsafe faulty files filePath :
  forall s, pending s = None ->
    match fst (Tsv.Sqlite.importTsv faulty files filePath s) with
    | Ok _ => True
    | _ => visible (snd (Tsv.Sqlite.importTsv faulty files filePath s)) = visible s
    end.
Proof.
  intros s Hs. unfold Tsv.Sqlite.importTsv. unfold bind at 1.
  unfold Tsv.readFile. destruct (files filePath) as [text|]; [|reflexivity].
  unfold ret at 1.
  apply (transaction_atomic faulty); [|exact Hs].
  apply failsafe_bind; [unfold sqlInsertKeyed; inTx_tac|]. intros genomeId.
  apply failsafe_bind; [unfold Tsv.Sqlite.prepare; inTx_tac|]. intros _.
  apply failsafe_bind.
  { unfold Tsv.Sqlite.insertLine, sqlInsert. inTx_tac. }
  intros _.
  apply failsafe_bind; [unfold Tsv.Sqlite.finalize; inTx_tac|]. intros _.
  apply failsafe_commit. intros s'. eexists. reflexivity.
Qed.

(** C2, as the code has it. In the GFF importer and in both TSV importers,
    a file import that starts on a connection with no open transaction and
    fails, at whatever point and for whatever reason, leaves the visible
    rows of every table exactly as they were and no transaction open: no
    file or genome row, feature, annotation or sequence region of the
    failed file can be seen afterwards. *)
Theorem failed_import_leaves_rows (faulty : nat -> bool) (filePath : string)
  (s s' : session) (e : error) :
  pending s = None ->
  (forall files,
     Gff.processGffFile faulty files filePath s = (Throw e, s') ->
     visible s' = visible s /\ pending s' = None)
  /\ (forall files,
        Tsv.Pg.processTsvFile faulty files filePath s = (Throw e, s') ->
        visible s' = visible s /\ pending s' = None)
  /\ (forall files,
        Tsv.Sqlite.processTsvFile faulty files filePath s = (Throw e, s') ->
        visible s' = visible s /\ pending s' = None).
Proof.
  intros Hs. split; [|split]; intros files.
  - unfold Gff.processGffFile. unfold bind at 1.
    destruct (files filePath) as [info|]; cbn [throw ret].
    2:{ intros H; inversion H; subst. auto. }
    unfold bind at 1. unfold say at 1. unfold bind at 1. unfold connect, call.
    cbn [visible pending sequences catalog issued console].
    destruct (faulty _).
    { intros H; inversion H; subst. cbn. auto. }
    unfold tryCatch.
    match goal with |- context [Gff.importGff _ _ _ _ ?s1] =>
      pose proof (gff_importGff_failsafe faulty (basename filePath) filePath info s1 Hs) as Hsafe;
      destruct (Gff.importGff faulty (basename filePath) filePath info s1) as [[a|e1|c] s2]
    end; cbn [fst snd visible] in Hsafe; try discriminate.
    unfold bind, sqlRollback, say, throw. intros H; inversion H; subst. cbn. auto.
  - unfold Tsv.Pg.processTsvFile. unfold bind at 1. unfold say at 1.
    unfold bind at 1. unfold connect, call.
    cbn [visible pending sequences catalog issued console].
    destruct (faulty _).
    { intros H; inversion H; subst. cbn. auto. }
    unfold tryCatch.
    match goal with |- context [Tsv.Pg.importTsv _ _ _ ?s1] =>
      pose proof (pg_importTsv_failsafe faulty files filePath s1 Hs) as Hsafe;
      destruct (Tsv.Pg.importTsv faulty files filePath s1) as [[a|e1|c] s2]
    end; cbn [fst snd visible] in Hsafe; try discriminate.
    unfold bind, sqlRollback, say, throw. intros H; inversion H; subst. cbn. auto.
  - unfold Tsv.Sqlite.processTsvFile. unfold bind at 1. unfold say at 1.
    unfold tryCatch.
    match goal with |- context [Tsv.Sqlite.importTsv _ _ _ ?s1] =>
      pose proof (sqlite_importTsv_failsafe faulty files filePath s1 Hs) as Hsafe;
      destruct (Tsv.Sqlite.importTsv faulty files filePath s1) as [[a|e1|c] s2]
    end; cbn [fst snd visible] in Hsafe; try discriminate.
    unfold bind, sqliteRollback, sqlRollback, say, throw.
    destruct (pending s2); intros H; inversion H; subst; cbn; auto.
Qed.

Lemma failed_import_leaves_rows_witness :
  let faulty := fun k => k =? 3 in
  let run := Tsv.Pg.processTsvFile faulty twoFiles "data/b.tsv" emptySession in
  fst run = Throw (DbError 3) /\ visible (snd run) = [] /\ pending (snd run) = None.
Proof.
  pose (run := Tsv.Pg.processTsvFile (fun k => k =? 3) twoFiles "data/b.tsv" emptySession).
  assert (Hrun : run = (Throw (DbError 3), snd run)) by (vm_compute; reflexivity).
  split; [exact (f_equal fst Hrun)|].
  exact (proj1 (proj2 (failed_import_leaves_rows (fun k => k =? 3) "data/b.tsv"
                         emptySession (snd run) (DbError 3) eq_refl))
           twoFiles Hrun).
Defined.

(** A JSON file with one feature. *)
Definition oneFeature : Json.disk :=
  fun p =>
    if String.eqb p "data/a.json"
    then Some (JObj [("features", JArr [JObj [("id", JStr "f1"); ("type", JStr "cds")]])])
    else None.

(** The JSON importer runs with no transaction: when the insertion of the
    feature is rejected (call 2, after [pool.connect] and the insertion of
    the genome), the failure is logged and the genome row of the failed
    file stays visible. *)
Lemma json_failed_import_leaves_genome :
  let faulty := fun k => k =? 2 in
  let run := Json.processFile faulty oneFeature "data/a.json" emptySession in
  map log_template (console (snd run))
  = ["Processing file: ${filePath}"; "Error processing file ${filePath}:"]
  /\ visible (snd run) = [("genomes", [("id", vnat 1); ("filename", VText "a.json")])]
  /\ visible (snd run) <> visible emptySession.
Proof. vm_compute. repeat split; try reflexivity. discriminate. Qed.

(** ** Queries over changed tables *)

Lemma selectRows_app t c T1 T2 :
  selectRows t c (T1 ++ T2) = selectRows t c T1 ++ selectRows t c T2.
Proof. unfold selectRows. rewrite List.filter_app, map_app. reflexivity. Qed.

Lemma selectRows_tagged t t' c (rs : list row) :
  selectRows t c (map (pair t') rs)
  = if String.eqb t' t then List.filter c rs else [].
Proof.
  unfold selectRows, inTable.
  induction rs as [|r rs IH]; cbn [map List.filter fst snd].
  - destruct (String.eqb t' t); reflexivity.
  - destruct (String.eqb t' t); cbn [andb] in *.
    + destruct (c r); cbn [map]; rewrite IH; reflexivity.
    + exact IH.
Qed.

Lemma selectRows_insert t t' c rs T :
  selectRows t c (insertRows t' rs T)
  = selectRows t c T ++ (if String.eqb t' t then List.filter c rs else []).
Proof. unfold insertRows. rewrite selectRows_app, selectRows_tagged. reflexivity. Qed.

Lemma selectRows_update_other t t' c set cond T :
  String.eqb t' t = false ->
  selectRows t c (updateRows t' set cond T) = selectRows t c T.
Proof.
  intros Hne. unfold selectRows, updateRows, inTable.
  induction T as [|[t0 r] T IH]; [reflexivity|].
  cbn [map List.filter fst snd].
  destruct (String.eqb t0 t') eqn:E0; cbn [andb fst snd].
  - apply String.eqb_eq in E0. subst t0.
    destruct (cond r); cbn [fst snd]; rewrite Hne; cbn [andb]; exact IH.
  - destruct (String.eqb t0 t); cbn [andb fst snd].
    + destruct (c r); cbn [map]; rewrite IH; reflexivity.
    + exact IH.
Qed.

Lemma selectRows_update_same t c set cond T :
  (forall r, c (set r) = c r) ->
  selectRows t c (updateRows t set cond T)
  = map (fun r => if cond r then set r else r) (selectRows t c T).
Proof.
  intros Hset. unfold selectRows, updateRows, inTable.
  induction T as [|[t0 r] T IH]; [reflexivity|].
  cbn [map List.filter fst snd].
  destruct (String.eqb t0 t) eqn:E0; cbn [andb fst snd].
  - destruct (cond r) eqn:Ec; cbn [fst snd]; rewrite E0; cbn [andb].
    + rewrite Hset. destruct (c r); cbn [map snd]; rewrite ?Ec, IH; reflexivity.
    + destruct (c r); cbn [map snd]; rewrite ?Ec, IH; reflexivity.
  - rewrite E0. cbn [andb]. exact IH.
Qed.

Lemma selectRows_delete_other t t' c c' T :
  String.eqb t' t = false ->
  selectRows t c (deleteRows t' c' T) = selectRows t c T.
Proof.
  intros Hne. unfold selectRows, deleteRows, inTable.
  induction T as [|[t0 r] T IH]; [reflexivity|].
  cbn [map List.filter fst snd].
  destruct (String.eqb t0 t') eqn:E0; cbn [andb negb].
  - apply String.eqb_eq in E0. subst t0. rewrite Hne. cbn [andb].
    destruct (c' r); cbn [negb]; [exact IH|].
    cbn [List.filter fst snd]. rewrite Hne. cbn [andb]. exact IH.
  - cbn [List.filter fst snd].
    destruct (String.eqb t0 t); cbn [andb].
    + destruct (c r); cbn [map snd]; rewrite IH; reflexivity.
    + exact IH.
Qed.

Lemma selectRows_delete_same t c T : selectRows t c (deleteRows t c T) = [].
Proof.
  unfold selectRows, deleteRows, inTable.
  induction T as [|[t0 r] T IH]; [reflexivity|].
  cbn [map List.filter fst snd].
  destruct (String.eqb t0 t && c r) eqn:E; cbn [negb]; [exact IH|].
  cbn [List.filter fst snd]. rewrite E. exact IH.
Qed.

Lemma col_setCol_other c c' v r :
  String.eqb c c' = false -> col c (setCol c' v r) = col c r.
Proof.
  intros Hne. induction r as [|[c0 v0] r IH]; cbn [setCol col].
  - rewrite Hne. reflexivity.
  - destruct (String.eqb c' c0) eqn:E0; cbn [col].
    + apply String.eqb_eq in E0. subst c0. rewrite Hne. reflexivity.
    + destruct (String.eqb c c0); [reflexivity | exact IH].
Qed.

(** ** Prefixes *)

Lemma prefix_clash p1 : forall p2 s,
  String.prefix p1 s = true -> String.prefix p2 s = true ->
  String.prefix p1 p2 = true \/ String.prefix p2 p1 = true.
Proof.
  induction p1 as [|a p1 IH]; intros p2 s H1 H2; [left; destruct p2; reflexivity|].
  destruct p2 as [|b p2]; [right; reflexivity|].
  destruct s as [|c s]; [discriminate H1|].
  cbn [String.prefix] in *.
  destruct (ascii_dec a c) as [->|]; [|discriminate H1].
  destruct (ascii_dec b c) as [->|]; [|discriminate H2].
  destruct (ascii_dec c c) as [_|Hn]; [|congruence].
  apply (IH p2 s); assumption.
Qed.

Lemma startsWith_excludes p1 p2 s :
  String.prefix p1 p2 = false -> String.prefix p2 p1 = false ->
  Js.startsWith p1 s = true -> Js.startsWith p2 s = false.
Proof.
  unfold Js.startsWith. intros H12 H21 H1.
  destruct (String.prefix p2 s) eqn:H2; [|reflexivity].
  destruct (prefix_clash p1 p2 s H1 H2); congruence.
Qed.

Lemma startsWith_hash p s :
  Js.startsWith (String "#" p) s = true -> Js.startsWith "#" s = true.
Proof.
  unfold Js.startsWith. destruct s as [|c s]; cbn [String.prefix]; [discriminate|].
  destruct (ascii_dec "#" c); [intros _; destruct s; reflexivity | discriminate].
Qed.

Lemma trimEnd_nonblank c r :
  Js.isWhiteSpace c = false -> Js.truthy (Js.trimEnd (String c r)) = true.
Proof.
  intros Hc. cbn [Js.trimEnd]. destruct (Js.trimEnd r); [rewrite Hc|]; reflexivity.
Qed.

Lemma hash_not_blank s : Js.startsWith "#" s = true -> Js.truthy (Js.trim s) = true.
Proof.
  unfold Js.startsWith. destruct s as [|c s]; cbn [String.prefix]; [discriminate|].
  destruct (ascii_dec "#" c) as [<-|]; [|discriminate]. intros _.
  unfold Js.trim. cbn [Js.trimStart].
  change (Js.isWhiteSpace "#") with false. cbv iota.
  apply trimEnd_nonblank. reflexivity.
Qed.

(** ** What a GFF file holds *)

(** A line that gives a feature: not blank, no comment, 9 columns or more. *)
Definition isFeatureLine (line : string) : bool :=
  Js.truthy (Js.trim line) && negb (Js.startsWith "#" line)
  && (9 <=? length (Js.split Gff.TAB line)).

(** The feature rows of a file, in the order of its lines. *)
Definition fileFeatures (fileId : value) (lines : list string) : list row :=
  map (fun line => Gff.featureRow fileId (Js.split Gff.TAB line))
    (List.filter isFeatureLine lines).

Definition regionRow (fileId : value) (n : nat) (parts : list string) : row :=
  [ ("region_id", vnat n);
    ("file_id", fileId);
    ("seqid", Gff.param parts 1);
    ("start", VNum (Js.parseInt (nth 2 parts EmptyString)));
    ("end", VNum (Js.parseInt (nth 3 parts EmptyString))) ].

(** The species URL goes to the rows with the largest region id. *)
Definition markLatest (speciesUrl : string) (regions : list row) : list row :=
  map (fun r =>
         if sqlEq (col "region_id" r) (VNum (Gff.maxId regions))
         then setCol "species_url" (VText speciesUrl) r else r)
    regions.

(** The sequence regions declared so far and the next region id, after one
    more line: a [##sequence-region] pragma of four fields or more adds a
    row, a [##species] pragma marks the latest one. *)
Definition regionStep (fileId : value) (acc : list row * nat) (line : string)
  : list row * nat :=
  if Js.startsWith "##sequence-region" line then
    let parts := Js.split " " line in
    if 4 <=? length parts
    then (fst acc ++ [regionRow fileId (snd acc) parts], S (snd acc))
    else acc
  else if Js.startsWith "##species" line then
    match Gff.matchSpecies line with
    | Some speciesUrl => (markLatest speciesUrl (fst acc), snd acc)
    | None => acc
    end
  else acc.

(** The sequence-region rows of a file, the first one taking id [n]. *)
Definition fileRegions (fileId : value) (n : nat) (lines : list string) : list row :=
  fst (fold_left (regionStep fileId) lines ([], n)).

Definition featuresOf (fileId : value) (T : tables) : list row :=
  selectRows "gff_features" (Gff.ownedBy fileId) T.

Definition regionsOf (fileId : value) (T : tables) : list row :=
  selectRows "sequence_regions" (Gff.ownedBy fileId) T.

Definition fileRecords (T : tables) : list row :=
  selectRows "gff_files" (fun _ => true) T.

(** ** Runs in which no statement fails *)

Section FaultFree.

Variable faulty : nat -> bool.
Hypothesis no_fault : forall k, faulty k = false.

(** [s'] is [s] inside the same transaction, now at [T']: nothing visible
    has changed. *)
Definition txAt (s s' : session) (T' : tables) : Prop :=
  pending s' = Some T' /\ visible s' = visible s.

Lemma run_say m t a s T :
  pending s = Some T ->
  exists s', say m t a s = (Ok tt, s') /\ txAt s s' T /\ sequences s' = sequences s.
Proof. intros Hp. eexists. split; [reflexivity|]. repeat split; assumption. Qed.

Lemma run_statement f s T :
  pending s = Some T ->
  exists s', (call faulty ;; write f) s = (Ok tt, s')
    /\ txAt s s' (f T) /\ sequences s' = sequences s.
Proof.
  intros Hp. unfold bind, call, write. rewrite no_fault.
  cbn [pending visible sequences catalog issued console]. rewrite Hp.
  eexists. split; [reflexivity|]. repeat split; reflexivity.
Qed.

Lemma run_select t cond s T :
  pending s = Some T ->
  exists s', sqlSelect faulty t cond s = (Ok (selectRows t cond T), s')
    /\ txAt s s' T /\ sequences s' = sequences s.
Proof.
  intros Hp. unfold sqlSelect, bind, call, read, current. rewrite no_fault.
  cbn [pending visible sequences catalog issued console]. rewrite Hp.
  eexists. split; [reflexivity|]. repeat split; try reflexivity; try assumption.
Qed.

Lemma run_insertKeyed t key r s T :
  pending s = Some T ->
  exists s',
    sqlInsertKeyed faulty t key r s = (Ok (vnat (sequences s t)), s')
    /\ txAt s s' (insertRows t [(key, vnat (sequences s t)) :: r] T)
    /\ sequences s' t = S (sequences s t)
    /\ (forall t', String.eqb t' t = false -> sequences s' t' = sequences s t').
Proof.
  intros Hp. unfold sqlInsertKeyed, bind, call, write, nextval, ret. rewrite no_fault.
  cbn [pending visible sequences catalog issued console]. rewrite Hp.
  eexists. split; [reflexivity|].
  cbn [pending visible sequences]. rewrite String.eqb_refl.
  repeat split; try reflexivity. intros t' Hne. rewrite Hne. reflexivity.
Qed.

Lemma txAt_trans s s1 s2 T1 T2 : txAt s s1 T1 -> txAt s1 s2 T2 -> txAt s s2 T2.
Proof. intros [_ Hv1] [Hp2 Hv2]. split; [exact Hp2 | congruence]. Qed.

Definition owned (fileId : value) (r : row) : Prop := Gff.ownedBy fileId r = true.

(** What one line changes, in terms of the file's content: the features
    stored or queued, the count of features, the sequence regions and the
    next region id; the file records stay as many. *)
Definition advanced (fileId : value) (line : string)
  (st : Gff.loopVars) (T : tables) (n : nat)
  (st' : Gff.loopVars) (T' : tables) (n' : nat) : Prop :=
  featuresOf fileId T' ++ Gff.batchValues st'
  = (featuresOf fileId T ++ Gff.batchValues st)
    ++ fileFeatures fileId [line]
  /\ Gff.featureCount st' = Gff.featureCount st + length (fileFeatures fileId [line])
  /\ (regionsOf fileId T', n') = regionStep fileId (regionsOf fileId T, n) line
  /\ length (fileRecords T') = length (fileRecords T)
  /\ Forall (owned fileId) (Gff.batchValues st').

Lemma fileFeatures_none fileId line :
  isFeatureLine line = false -> fileFeatures fileId [line] = [].
Proof. intros H. unfold fileFeatures. cbn [List.filter]. rewrite H. reflexivity. Qed.

Lemma fileFeatures_one fileId line :
  isFeatureLine line = true ->
  fileFeatures fileId [line] = [Gff.featureRow fileId (Js.split Gff.TAB line)].
Proof. intros H. unfold fileFeatures. cbn [List.filter]. rewrite H. reflexivity. Qed.

Lemma regionStep_idle fileId acc line :
  Js.startsWith "##sequence-region" line = false ->
  Js.startsWith "##species" line = false ->
  regionStep fileId acc line = acc.
Proof. intros H1 H2. unfold regionStep. rewrite H1, H2. reflexivity. Qed.

Lemma advanced_quiet fileId line st T T' n :
  featuresOf fileId T' = featuresOf fileId T ->
  regionsOf fileId T' = regionsOf fileId T ->
  length (fileRecords T') = length (fileRecords T) ->
  isFeatureLine line = false ->
  Js.startsWith "##sequence-region" line = false ->
  Js.startsWith "##species" line = false ->
  Forall (owned fileId) (Gff.batchValues st) ->
  advanced fileId line st T n st T' n.
Proof.
  intros Hf Hr Hc Hline H1 H2 Hb. unfold advanced.
  rewrite (fileFeatures_none _ _ Hline), regionStep_idle by assumption.
  rewrite Hf, Hr, app_nil_r. cbn [length]. repeat split; auto.
Qed.

Lemma header_not_feature line : Js.startsWith "#" line = true -> isFeatureLine line = false.
Proof.
  intros H. unfold isFeatureLine. rewrite H. cbn [negb].
  rewrite andb_false_r. reflexivity.
Qed.

Lemma plain_not_region p line :
  Js.startsWith "#" line = false -> Js.startsWith (String "#" p) line = false.
Proof.
  intros H. destruct (Js.startsWith (String "#" p) line) eqn:E; [|reflexivity].
  apply startsWith_hash in E. congruence.
Qed.

Lemma fileRecords_update set cond T :
  length (fileRecords (updateRows "gff_files" set cond T)) = length (fileRecords T).
Proof.
  unfold fileRecords. rewrite selectRows_update_same by reflexivity.
  apply length_map.
Qed.

Lemma owned_setCol fileId c v r :
  String.eqb "file_id" c = false ->
  Gff.ownedBy fileId (setCol c v r) = Gff.ownedBy fileId r.
Proof. intros H. unfold Gff.ownedBy. rewrite col_setCol_other by exact H. reflexivity. Qed.

Lemma filter_owned fileId (rs : list row) :
  Forall (owned fileId) rs -> List.filter (Gff.ownedBy fileId) rs = rs.
Proof.
  induction 1 as [|r rs Hr _ IH]; [reflexivity|].
  cbn [List.filter]. rewrite Hr, IH. reflexivity.
Qed.

Lemma owned_featureRow fileId columns :
  sqlEq fileId fileId = true -> 9 <= length columns ->
  owned fileId (Gff.featureRow fileId columns).
Proof.
  intros Hid Hlen. destruct (nth_split_columns columns Hlen) as (rest & ->).
  exact Hid.
Qed.

Lemma owned_regionRow fileId n parts :
  sqlEq fileId fileId = true -> Gff.ownedBy fileId (regionRow fileId n parts) = true.
Proof. intros H. exact H. Qed.

Definition regionSeq (s : session) : nat := sequences s "sequence_regions".

Lemma headerLine_ok fileId st line s T :
  sqlEq fileId fileId = true ->
  pending s = Some T ->
  Js.startsWith "#" line = true ->
  Forall (owned fileId) (Gff.batchValues st) ->
  exists st' s' T',
    Gff.headerLine faulty fileId st line s = (Ok st', s')
    /\ txAt s s' T'
    /\ advanced fileId line st T (regionSeq s) st' T' (regionSeq s').
Proof.
  intros Hid Hp Hhash Hbatch.
  pose proof (header_not_feature line Hhash) as Hnf.
  assert (Hcolumn : forall c v p,
            String.prefix p "##sequence-region" = false ->
            String.prefix "##sequence-region" p = false ->
            String.prefix p "##species" = false ->
            String.prefix "##species" p = false ->
            Js.startsWith p line = true ->
            exists st' s' T',
              (Gff.setFileColumn faulty c v fileId ;; ret st) s = (Ok st', s')
              /\ txAt s s' T'
              /\ advanced fileId line st T (regionSeq s) st' T' (regionSeq s')).
  { intros c v p Hp1 Hp2 Hp3 Hp4 Hline.
    unfold Gff.setFileColumn, sqlUpdate. unfold bind at 1.
    match goal with |- context [(call faulty ;; write ?f) s] =>
      destruct (run_statement f s T Hp) as (s' & Hrun & Htx & Hseq) end.
    rewrite Hrun. unfold ret. eexists st, s', _.
    split; [reflexivity|]. split; [exact Htx|]. unfold regionSeq. rewrite Hseq.
    apply advanced_quiet; auto.
    - apply selectRows_update_other. reflexivity.
    - apply selectRows_update_other. reflexivity.
    - apply fileRecords_update.
    - exact (startsWith_excludes p _ line Hp1 Hp2 Hline).
    - exact (startsWith_excludes p _ line Hp3 Hp4 Hline). }
  unfold Gff.headerLine.
  destruct (Js.startsWith "##gff-version" line) eqn:E1.
  { apply (Hcolumn _ _ "##gff-version"); auto. }
  destruct (Js.startsWith "#!genome-build" line) eqn:E2.
  { apply (Hcolumn _ _ "#!genome-build"); auto. }
  destruct (Js.startsWith "#!genome-build-accession" line) eqn:E3.
  { apply (Hcolumn _ _ "#!genome-build-accession"); auto. }
  destruct (Js.startsWith "#!annotation-date" line) eqn:E4.
  { apply (Hcolumn _ _ "#!annotation-date"); auto. }
  destruct (Js.startsWith "#!annotation-source" line) eqn:E5.
  { apply (Hcolumn _ _ "#!annotation-source"); auto. }
  destruct (Js.startsWith "##sequence-region" line) eqn:E6.
  { destruct (4 <=? length (Js.split " " line)) eqn:E.
    - unfold bind at 1.
      match goal with |- context [sqlInsertKeyed faulty ?t ?k ?r s] =>
        destruct (run_insertKeyed t k r s T Hp) as (s' & Hrun & Htx & Hseq & _) end.
      rewrite Hrun. unfold ret. eexists _, s', _.
      split; [reflexivity|]. split; [exact Htx|]. unfold regionSeq. rewrite Hseq.
      unfold advanced, regionStep. rewrite E6, E.
      rewrite (fileFeatures_none _ _ Hnf), app_nil_r.
      cbn [Gff.batchValues Gff.featureCount length fst snd].
      unfold featuresOf, regionsOf, fileRecords.
      rewrite !selectRows_insert.
      cbn [String.eqb Ascii.eqb Bool.eqb List.filter].
      fold (regionRow fileId (sequences s "sequence_regions") (Js.split " " line)).
      rewrite (owned_regionRow _ _ _ Hid), !app_nil_r. repeat split; auto.
    - unfold ret. eexists st, s, T. split; [reflexivity|].
      split; [split; [exact Hp | reflexivity]|].
      unfold advanced, regionStep. rewrite E6, E.
      rewrite (fileFeatures_none _ _ Hnf), app_nil_r. cbn [length].
      repeat split; auto. }
  destruct (Js.startsWith "##species" line) eqn:E7.
  { destruct (Gff.matchSpecies line) as [speciesUrl|] eqn:Em.
    - unfold bind, call, write, ret. rewrite no_fault.
      cbn [pending visible sequences catalog issued console]. rewrite Hp.
      eexists st, _, _. split; [reflexivity|].
      split; [split; reflexivity|]. unfold regionSeq. cbn [sequences].
      unfold advanced, regionStep. rewrite E6, E7, Em.
      rewrite (fileFeatures_none _ _ Hnf), app_nil_r.
      cbn [length fst snd].
      unfold featuresOf, regionsOf, fileRecords.
      rewrite (selectRows_update_other "gff_features") by reflexivity.
      rewrite (selectRows_update_other "gff_files") by reflexivity.
      rewrite selectRows_update_same by (intros r; apply owned_setCol; reflexivity).
      repeat split; auto.
    - unfold ret. eexists st, s, T. split; [reflexivity|].
      split; [split; [exact Hp | reflexivity]|].
      unfold advanced, regionStep. rewrite E6, E7, Em.
      rewrite (fileFeatures_none _ _ Hnf), app_nil_r. cbn [length].
      repeat split; auto. }
  unfold ret. eexists st, s, T. split; [reflexivity|].
  split; [split; [exact Hp | reflexivity]|].
  apply advanced_quiet; auto.
Qed.

Lemma blank_not_region p line :
  Js.truthy (Js.trim line) = false -> Js.startsWith (String "#" p) line = false.
Proof.
  intros Hb. destruct (Js.startsWith (String "#" p) line) eqn:E; [|reflexivity].
  apply startsWith_hash, hash_not_blank in E. congruence.
Qed.

Lemma lineStep_ok fileId st line s T :
  sqlEq fileId fileId = true ->
  pending s = Some T ->
  Forall (owned fileId) (Gff.batchValues st) ->
  exists st' s' T',
    Gff.lineStep faulty fileId st line s = (Ok st', s')
    /\ txAt s s' T'
    /\ advanced fileId line st T (regionSeq s) st' T' (regionSeq s').
Proof.
  intros Hid Hp Hbatch. unfold Gff.lineStep. unfold bind at 1.
  match goal with |- context [(if ?b then ?m1 else ?m2) s] =>
    assert (Hlog : exists s1, (if b then m1 else m2) s = (Ok tt, s1)
                     /\ pending s1 = Some T /\ visible s1 = visible s
                     /\ sequences s1 = sequences s)
      by (destruct b; eexists; (split; [reflexivity|]); repeat split; assumption)
  end.
  destruct Hlog as (s1 & Hrun1 & Hp1 & Hv1 & Hseq1). rewrite Hrun1.
  assert (Hseq : regionSeq s = regionSeq s1) by (unfold regionSeq; rewrite Hseq1; reflexivity).
  rewrite Hseq.
  cut (exists st' s' T',
         (if negb (Js.truthy (Js.trim line)) then
            ret (Gff.LoopVars (S (Gff.lineCount st)) (Gff.featureCount st)
                   (Gff.sequenceRegionCount st) (Gff.batchValues st))
          else if Js.startsWith "#" line then
            Gff.headerLine faulty fileId
              (Gff.LoopVars (S (Gff.lineCount st)) (Gff.featureCount st)
                 (Gff.sequenceRegionCount st) (Gff.batchValues st)) line
          else
            let columns := Js.split Gff.TAB line in
            if length columns <? 9 then
              ret (Gff.LoopVars (S (Gff.lineCount st)) (Gff.featureCount st)
                     (Gff.sequenceRegionCount st) (Gff.batchValues st))
            else
              let batch := Gff.batchValues st ++ [Gff.featureRow fileId columns] in
              if Gff.BATCH_SIZE <=? length batch then
                Gff.insertFeatureBatch faulty batch ;;
                ret (Gff.LoopVars (S (Gff.lineCount st)) (S (Gff.featureCount st))
                       (Gff.sequenceRegionCount st) [])
              else
                ret (Gff.LoopVars (S (Gff.lineCount st)) (S (Gff.featureCount st))
                       (Gff.sequenceRegionCount st) batch)) s1 = (Ok st', s')
         /\ txAt s1 s' T'
         /\ advanced fileId line st T (regionSeq s1) st' T' (regionSeq s')).
  { intros (st' & s' & T' & Hrun & [Hp' Hv'] & Hadv).
    exists st', s', T'. split; [exact Hrun|]. split; [|exact Hadv].
    split; [exact Hp' | congruence]. }
  clear s Hp Hrun1 Hv1 Hseq1 Hseq.
  destruct (Js.truthy (Js.trim line)) eqn:Eb; cbn [negb].
  2:{ unfold ret. eexists _, s1, T. split; [reflexivity|].
      split; [split; [exact Hp1 | reflexivity]|].
      apply (advanced_quiet fileId line st T T); auto.
      - unfold isFeatureLine. rewrite Eb. reflexivity.
      - apply blank_not_region, Eb.
      - apply blank_not_region, Eb. }
  destruct (Js.startsWith "#" line) eqn:Eh.
  { destruct (headerLine_ok fileId
                (Gff.LoopVars (S (Gff.lineCount st)) (Gff.featureCount st)
                   (Gff.sequenceRegionCount st) (Gff.batchValues st))
                line s1 T Hid Hp1 Eh Hbatch) as (st' & s' & T' & Hrun & Htx & Hadv).
    exists st', s', T'. split; [exact Hrun|]. split; [exact Htx | exact Hadv]. }
  cbv zeta.
  destruct (length (Js.split Gff.TAB line) <? 9) eqn:El.
  { unfold ret. eexists _, s1, T. split; [reflexivity|].
    split; [split; [exact Hp1 | reflexivity]|].
    apply (advanced_quiet fileId line st T T); auto.
    - unfold isFeatureLine. rewrite Eb, Eh. cbn [negb andb].
      apply Nat.ltb_lt in El. apply Nat.leb_gt. exact El.
    - apply plain_not_region, Eh.
    - apply plain_not_region, Eh. }
  apply Nat.ltb_ge in El.
  assert (Hfeat : isFeatureLine line = true).
  { unfold isFeatureLine. rewrite Eb, Eh. cbn [negb andb]. apply Nat.leb_le, El. }
  assert (Hown : Forall (owned fileId)
                   (Gff.batchValues st ++ [Gff.featureRow fileId (Js.split Gff.TAB line)])).
  { apply Forall_app. split; [exact Hbatch|].
    constructor; [|constructor]. apply owned_featureRow; assumption. }
  destruct (Gff.BATCH_SIZE <=? _) eqn:Ebatch.
  - unfold Gff.insertFeatureBatch, sqlInsert. unfold bind at 1.
    match goal with |- context [(call faulty ;; write ?f) s1] =>
      destruct (run_statement f s1 T Hp1) as (s' & Hrun & Htx & Hseq) end.
    rewrite Hrun. unfold ret. eexists _, s', _.
    split; [reflexivity|]. split; [exact Htx|].
    unfold regionSeq. rewrite Hseq.
    unfold advanced. rewrite (fileFeatures_one _ _ Hfeat).
    rewrite regionStep_idle by (apply plain_not_region, Eh).
    cbn [Gff.batchValues Gff.featureCount length].
    unfold featuresOf, regionsOf, fileRecords.
    rewrite !selectRows_insert.
    cbn [String.eqb Ascii.eqb Bool.eqb].
    rewrite (filter_owned _ _ Hown), !app_nil_r, app_assoc.
    repeat split; auto; lia.
  - unfold ret. eexists _, s1, T. split; [reflexivity|].
    split; [split; [exact Hp1 | reflexivity]|].
    unfold advanced. rewrite (fileFeatures_one _ _ Hfeat).
    rewrite regionStep_idle by (apply plain_not_region, Eh).
    cbn [Gff.batchValues Gff.featureCount length].
    rewrite app_assoc. repeat split; auto; lia.
Qed.

Lemma fileFeatures_cons fileId line lines :
  fileFeatures fileId (line :: lines)
  = fileFeatures fileId [line] ++ fileFeatures fileId lines.
Proof.
  unfold fileFeatures. cbn [List.filter].
  destruct (isFeatureLine line); reflexivity.
Qed.

Lemma lines_ok fileId lines :
  sqlEq fileId fileId = true ->
  forall st s T,
    pending s = Some T ->
    Forall (owned fileId) (Gff.batchValues st) ->
    exists st' s' T',
      foldM (Gff.lineStep faulty fileId) lines st s = (Ok st', s')
      /\ txAt s s' T'
      /\ featuresOf fileId T' ++ Gff.batchValues st'
         = (featuresOf fileId T ++ Gff.batchValues st) ++ fileFeatures fileId lines
      /\ Gff.featureCount st'
         = Gff.featureCount st + length (fileFeatures fileId lines)
      /\ (regionsOf fileId T', regionSeq s')
         = fold_left (regionStep fileId) lines (regionsOf fileId T, regionSeq s)
      /\ length (fileRecords T') = length (fileRecords T)
      /\ Forall (owned fileId) (Gff.batchValues st').
Proof.
  intros Hid. induction lines as [|line lines IH]; intros st s T Hp Hbatch.
  - exists st, s, T. cbn [foldM fold_left]. unfold ret.
    split; [reflexivity|]. split; [split; [exact Hp | reflexivity]|].
    unfold fileFeatures. cbn. rewrite app_nil_r.
    repeat split; auto.
  - cbn [foldM fold_left]. unfold bind at 1.
    destruct (lineStep_ok fileId st line s T Hid Hp Hbatch)
      as (st1 & s1 & T1 & Hrun1 & Htx1 & Hf1 & Hc1 & Hr1 & Hn1 & Hb1).
    rewrite Hrun1.
    destruct (IH st1 s1 T1 (proj1 Htx1) Hb1)
      as (st2 & s2 & T2 & Hrun2 & Htx2 & Hf2 & Hc2 & Hr2 & Hn2 & Hb2).
    exists st2, s2, T2. split; [exact Hrun2|].
    split; [exact (txAt_trans _ _ _ _ _ Htx1 Htx2)|].
    rewrite fileFeatures_cons, length_app.
    split; [rewrite Hf2, Hf1, <- app_assoc; reflexivity|].
    split; [lia|].
    split; [rewrite Hr2, Hr1; reflexivity|].
    split; [congruence | exact Hb2].
Qed.

(** The lines of a file read inside a transaction: the features of the
    file are appended to those the record owns, the sequence regions
    follow the pragmas, and the count of features is that of the feature
    lines. *)
Lemma readLines_ok fileId filePath info lines s T :
  sqlEq fileId fileId = true ->
  Gff.file_lines info = Some lines ->
  pending s = Some T ->
  exists st s' T',
    Gff.readLines faulty fileId filePath info s = (Ok st, s')
    /\ txAt s s' T'
    /\ featuresOf fileId T' = featuresOf fileId T ++ fileFeatures fileId lines
    /\ Gff.featureCount st = length (fileFeatures fileId lines)
    /\ (regionsOf fileId T', regionSeq s')
       = fold_left (regionStep fileId) lines (regionsOf fileId T, regionSeq s)
    /\ length (fileRecords T') = length (fileRecords T).
Proof.
  intros Hid Hlines Hp. unfold Gff.readLines. rewrite Hlines.
  unfold bind at 1. unfold ret at 1. unfold bind at 1.
  destruct (lines_ok fileId lines Hid (Gff.LoopVars 0 0 0 []) s T Hp (List.Forall_nil _))
    as (st & s1 & T1 & Hrun & Htx & Hf & Hc & Hr & Hn & Hb).
  rewrite Hrun. cbn [Gff.batchValues Gff.featureCount] in Hf, Hc.
  rewrite app_nil_r in Hf.
  destruct (0 <? length (Gff.batchValues st)) eqn:E.
  - unfold Gff.insertFeatureBatch, sqlInsert. unfold bind at 1.
    match goal with |- context [(call faulty ;; write ?f) s1] =>
      destruct (run_statement f s1 T1 (proj1 Htx)) as (s2 & Hrun2 & Htx2 & Hseq2) end.
    rewrite Hrun2. unfold ret. eexists st, s2, _.
    split; [reflexivity|]. split; [exact (txAt_trans _ _ _ _ _ Htx Htx2)|].
    unfold featuresOf, regionsOf, fileRecords in *.
    rewrite !selectRows_insert. cbn [String.eqb Ascii.eqb Bool.eqb].
    rewrite (filter_owned _ _ Hb), !app_nil_r.
    unfold regionSeq in *. rewrite Hseq2.
    repeat split; auto.
  - apply Nat.ltb_ge in E.
    assert (Hnil : Gff.batchValues st = []).
    { destruct (Gff.batchValues st); [reflexivity | cbn in E; lia]. }
    rewrite Hnil, app_nil_r in Hf.
    unfold bind, ret. exists st, s1, T1. repeat split; auto; apply Htx.
Qed.

(** The completion log of [processGffFile]. *)
Definition completionLog (fileId : value) (nLines nFeatures nRegions : nat)
  : list logline :=
  [ LogLine ConsoleLog "GFF file processed successfully:" [];
    LogLine ConsoleLog "- File ID: ${fileId}" [fileId];
    LogLine ConsoleLog "- Lines processed: ${lineCount.toLocaleString()}" [vnat nLines];
    LogLine ConsoleLog "- Features imported: ${featureCount.toLocaleString()}"
      [vnat nFeatures];
    LogLine ConsoleLog "- Sequence regions: ${sequenceRegionCount}" [vnat nRegions] ].

(** [importGff] from the reading of the lines on. *)
Definition importTail (fileId : value) (filePath : string) (info : Gff.fileInfo)
  : M value :=
  st <- Gff.readLines faulty fileId filePath info ;;
  sqlCommit faulty ;;
  say ConsoleLog "GFF file processed successfully:" [] ;;
  say ConsoleLog "- File ID: ${fileId}" [fileId] ;;
  say ConsoleLog "- Lines processed: ${lineCount.toLocaleString()}"
    [vnat (Gff.lineCount st)] ;;
  say ConsoleLog "- Features imported: ${featureCount.toLocaleString()}"
    [vnat (Gff.featureCount st)] ;;
  say ConsoleLog "- Sequence regions: ${sequenceRegionCount}"
    [vnat (Gff.sequenceRegionCount st)] ;;
  ret fileId.

Lemma importGff_unfold fileName filePath info :
  Gff.importGff faulty fileName filePath info
  = (sqlBegin faulty ;;
     fileId <- Gff.openFileRecord faulty fileName filePath (Gff.file_size info) ;;
     importTail fileId filePath info).
Proof. reflexivity. Qed.

Lemma importTail_ok fileId filePath info lines s T :
  sqlEq fileId fileId = true ->
  Gff.file_lines info = Some lines ->
  pending s = Some T ->
  exists s' nLines nRegions,
    importTail fileId filePath info s = (Ok fileId, s')
    /\ pending s' = None
    /\ featuresOf fileId (visible s') = featuresOf fileId T ++ fileFeatures fileId lines
    /\ (regionsOf fileId (visible s'), regionSeq s')
       = fold_left (regionStep fileId) lines (regionsOf fileId T, regionSeq s)
    /\ length (fileRecords (visible s')) = length (fileRecords T)
    /\ exists earlier,
         console s'
         = earlier ++ completionLog fileId nLines (length (fileFeatures fileId lines)) nRegions.
Proof.
  intros Hid Hlines Hp. unfold importTail. unfold bind at 1.
  destruct (readLines_ok fileId filePath info lines s T Hid Hlines Hp)
    as (st & s1 & T1 & Hrun & [Hp1 Hv1] & Hf & Hc & Hr & Hn).
  rewrite Hrun. unfold sqlCommit, bind, call, say, ret, current.
  rewrite no_fault. cbn [pending visible sequences catalog issued console].
  rewrite Hp1.
  eexists _, (Gff.lineCount st), (Gff.sequenceRegionCount st).
  split; [reflexivity|]. cbn [pending visible console].
  split; [reflexivity|]. split; [exact Hf|]. split; [exact Hr|]. split; [exact Hn|].
  exists (console s1). rewrite <- !app_assoc, Hc. reflexivity.
Qed.

Definition named (fileName : string) (r : row) : bool :=
  sqlEq (col "filename" r) (VText fileName).

Lemma bind_ok {A B} (m : M A) (k : A -> M B) s a s1 :
  m s = (Ok a, s1) -> bind m k s = k a s1.
Proof. intros H. unfold bind. rewrite H. reflexivity. Qed.

Lemma run_begin s :
  pending s = None ->
  exists s1, sqlBegin faulty s = (Ok tt, s1)
    /\ pending s1 = Some (visible s) /\ visible s1 = visible s
    /\ sequences s1 = sequences s.
Proof.
  intros Hp. unfold sqlBegin, bind, call, current. rewrite no_fault.
  cbn [pending visible sequences catalog issued console]. rewrite Hp.
  eexists. split; [reflexivity|]. repeat split; reflexivity.
Qed.

(** The record of a file that is already known: its features and sequence
    regions are deleted, its path and size updated. *)
Definition refreshed (fileId : value) (filePath : string) (fileSize : nat)
  (T : tables) : tables :=
  updateRows "gff_files"
    (fun r => setCol "file_size" (vnat fileSize)
                (setCol "original_path" (VText filePath) r))
    (Gff.ownedBy fileId)
    (deleteRows "sequence_regions" (Gff.ownedBy fileId)
       (deleteRows "gff_features" (Gff.ownedBy fileId) T)).

Lemma openFileRecord_update fileName filePath fileSize s T r0 others :
  pending s = Some T ->
  selectRows "gff_files" (named fileName) T = r0 :: others ->
  exists s',
    Gff.openFileRecord faulty fileName filePath fileSize s = (Ok (col "file_id" r0), s')
    /\ txAt s s' (refreshed (col "file_id" r0) filePath fileSize T)
    /\ sequences s' = sequences s.
Proof.
  intros Hp Hsel. unfold Gff.openFileRecord.
  destruct (run_select "gff_files" (named fileName) s T Hp)
    as (s1 & Hrun1 & [Hp1 Hv1] & Hseq1).
  rewrite (bind_ok _ _ _ _ _ Hrun1), Hsel.
  destruct (run_say ConsoleLog
              "File ${fileName} already exists in database with ID ${fileId}. Updating..."
              [VText fileName; col "file_id" r0] s1 T Hp1)
    as (s2 & Hrun2 & [Hp2 Hv2] & Hseq2).
  rewrite (bind_ok _ _ _ _ _ Hrun2).
  unfold sqlDelete, sqlUpdate.
  destruct (run_statement (deleteRows "gff_features" (Gff.ownedBy (col "file_id" r0)))
              s2 T Hp2) as (s3 & Hrun3 & [Hp3 Hv3] & Hseq3).
  rewrite (bind_ok _ _ _ _ _ Hrun3).
  destruct (run_statement (deleteRows "sequence_regions" (Gff.ownedBy (col "file_id" r0)))
              s3 _ Hp3) as (s4 & Hrun4 & [Hp4 Hv4] & Hseq4).
  rewrite (bind_ok _ _ _ _ _ Hrun4).
  destruct (run_statement
              (updateRows "gff_files"
                 (fun r => setCol "file_size" (vnat fileSize)
                             (setCol "original_path" (VText filePath) r))
                 (Gff.ownedBy (col "file_id" r0)))
              s4 _ Hp4) as (s5 & Hrun5 & [Hp5 Hv5] & Hseq5).
  rewrite (bind_ok _ _ _ _ _ Hrun5).
  exists s5. split; [reflexivity|]. split; [split; [exact Hp5 | congruence]|].
  congruence.
Qed.

Definition newFileRow (fileName filePath : string) (fileSize : nat) : row :=
  [ ("filename", VText fileName);
    ("original_path", VText filePath);
    ("file_size", vnat fileSize);
    ("version", VNull);
    ("genome_build", VNull);
    ("genome_build_accession", VNull);
    ("annotation_date", VNull);
    ("annotation_source", VNull) ].

Lemma openFileRecord_insert fileName filePath fileSize s T :
  pending s = Some T ->
  selectRows "gff_files" (named fileName) T = [] ->
  exists s',
    Gff.openFileRecord faulty fileName filePath fileSize s
    = (Ok (vnat (sequences s "gff_files")), s')
    /\ txAt s s'
         (insertRows "gff_files"
            [("file_id", vnat (sequences s "gff_files"))
             :: newFileRow fileName filePath fileSize] T)
    /\ regionSeq s' = regionSeq s.
Proof.
  intros Hp Hsel. unfold Gff.openFileRecord.
  destruct (run_select "gff_files" (named fileName) s T Hp)
    as (s1 & Hrun1 & [Hp1 Hv1] & Hseq1).
  rewrite (bind_ok _ _ _ _ _ Hrun1), Hsel.
  destruct (run_insertKeyed "gff_files" "file_id" (newFileRow fileName filePath fileSize)
              s1 T Hp1) as (s2 & Hrun2 & [Hp2 Hv2] & _ & Hother).
  unfold newFileRow in Hrun2. rewrite Hrun2. rewrite Hseq1.
  exists s2. split; [reflexivity|].
  split; [split; [rewrite Hp2, Hseq1; reflexivity | congruence]|].
  unfold regionSeq. rewrite Hother by reflexivity. rewrite Hseq1. reflexivity.
Qed.

Lemma importGff_update fileName filePath info lines s r0 others :
  pending s = None ->
  selectRows "gff_files" (named fileName) (visible s) = r0 :: others ->
  sqlEq (col "file_id" r0) (col "file_id" r0) = true ->
  Gff.file_lines info = Some lines ->
  let fileId := col "file_id" r0 in
  exists s' nLines nRegions,
    Gff.importGff faulty fileName filePath info s = (Ok fileId, s')
    /\ pending s' = None
    /\ featuresOf fileId (visible s') = fileFeatures fileId lines
    /\ regionsOf fileId (visible s') = fileRegions fileId (regionSeq s) lines
    /\ length (fileRecords (visible s')) = length (fileRecords (visible s))
    /\ exists earlier,
         console s'
         = earlier ++ completionLog fileId nLines (length (fileFeatures fileId lines)) nRegions.
Proof.
  intros Hp Hsel Hid Hlines fileId.
  rewrite importGff_unfold.
  destruct (run_begin s Hp) as (s1 & Hrun1 & Hp1 & Hv1 & Hseq1).
  rewrite (bind_ok _ _ _ _ _ Hrun1).
  destruct (openFileRecord_update fileName filePath (Gff.file_size info) s1 _ r0 others
              Hp1 Hsel) as (s2 & Hrun2 & [Hp2 Hv2] & Hseq2).
  rewrite (bind_ok _ _ _ _ _ Hrun2).
  destruct (importTail_ok fileId filePath info lines s2 _ Hid Hlines Hp2)
    as (s' & nLines & nRegions & Hrun & Hp' & Hf & Hr & Hn & Hlog).
  exists s', nLines, nRegions. split; [exact Hrun|]. split; [exact Hp'|].
  assert (Hseq : regionSeq s2 = regionSeq s).
  { unfold regionSeq. rewrite Hseq2, Hseq1. reflexivity. }
  assert (Hnone : regionsOf fileId
                    (refreshed fileId filePath (Gff.file_size info) (visible s)) = []).
  { unfold regionsOf, refreshed. rewrite selectRows_update_other by reflexivity.
    apply selectRows_delete_same. }
  split; [|split; [|split; [|exact Hlog]]].
  - rewrite Hf. unfold featuresOf, refreshed.
    rewrite selectRows_update_other by reflexivity.
    rewrite selectRows_delete_other by reflexivity.
    rewrite selectRows_delete_same. reflexivity.
  - unfold fileRegions. unfold fileId in *. rewrite Hnone, Hseq in Hr.
    rewrite <- Hr. reflexivity.
  - rewrite Hn. unfold refreshed. rewrite fileRecords_update. unfold fileRecords.
    rewrite !selectRows_delete_other by reflexivity. reflexivity.
Qed.

Lemma importGff_insert fileName filePath info lines s :
  pending s = None ->
  selectRows "gff_files" (named fileName) (visible s) = [] ->
  Gff.file_lines info = Some lines ->
  let fileId := vnat (sequences s "gff_files") in
  exists s' nLines nRegions,
    Gff.importGff faulty fileName filePath info s = (Ok fileId, s')
    /\ pending s' = None
    /\ featuresOf fileId (visible s')
       = featuresOf fileId (visible s) ++ fileFeatures fileId lines
    /\ length (fileRecords (visible s')) = S (length (fileRecords (visible s)))
    /\ exists earlier,
         console s'
         = earlier ++ completionLog fileId nLines (length (fileFeatures fileId lines)) nRegions.
Proof.
  intros Hp Hsel Hlines fileId.
  assert (Hid : sqlEq fileId fileId = true) by apply Z.eqb_refl.
  rewrite importGff_unfold.
  destruct (run_begin s Hp) as (s1 & Hrun1 & Hp1 & Hv1 & Hseq1).
  rewrite (bind_ok _ _ _ _ _ Hrun1).
  destruct (openFileRecord_insert fileName filePath (Gff.file_size info) s1 _
              Hp1 Hsel) as (s2 & Hrun2 & [Hp2 Hv2] & Hseq2).
  rewrite Hseq1 in Hrun2, Hp2. fold fileId in Hrun2, Hp2.
  rewrite (bind_ok _ _ _ _ _ Hrun2).
  destruct (importTail_ok fileId filePath info lines s2 _ Hid Hlines Hp2)
    as (s' & nLines & nRegions & Hrun & Hp' & Hf & Hr & Hn & Hlog).
  exists s', nLines, nRegions. split; [exact Hrun|]. split; [exact Hp'|].
  split; [|split; [|exact Hlog]].
  - rewrite Hf. unfold featuresOf. rewrite selectRows_insert.
    cbn [String.eqb Ascii.eqb Bool.eqb]. rewrite app_nil_r. reflexivity.
  - rewrite Hn. unfold fileRecords. rewrite selectRows_insert.
    cbn [String.eqb Ascii.eqb Bool.eqb List.filter]. rewrite length_app. cbn. lia.
Qed.

End FaultFree.

(** ** Importing a GFF file with no failure *)

(** A file record whose key is a number. *)
Definition keyed (r : row) : Prop := exists z, col "file_id" r = VNum (Some z).

Lemma keyed_sqlEq r : keyed r -> sqlEq (col "file_id" r) (col "file_id" r) = true.
Proof. intros [z Hz]. rewrite Hz. apply Z.eqb_refl. Qed.

Lemma processGffFile_ok faulty files filePath info s fileId s' :
  faulty (issued s) = false ->
  files filePath = Some info ->
  Gff.importGff faulty (basename filePath) filePath info
    (Session (visible s) (pending s) (sequences s) (catalog s) (S (issued s))
       (console s
        ++ [LogLine ConsoleLog
              "Processing file: ${fileName} (${(fileSize / 1024 / 1024).toFixed(2)} MB)"
              [VText (basename filePath); vnat (Gff.file_size info)]]))
  = (Ok fileId, s') ->
  Gff.processGffFile faulty files filePath s = (Ok fileId, s').
Proof.
  intros Hk Hfiles Hrun. unfold Gff.processGffFile. rewrite Hfiles.
  unfold bind at 1. unfold ret at 1. unfold bind at 1. unfold say at 1.
  unfold bind at 1. unfold connect, call at 1.
  cbn [visible pending sequences catalog issued console]. rewrite Hk.
  unfold tryCatch. rewrite Hrun. reflexivity.
Qed.

(** C1, as the code has it. In the GFF importer, when the file's name
    matches a record of [gff_files] and no statement fails, the import
    returns the id of that record (the first one of that name), and
    afterwards the features owned by the record are exactly the rows parsed
    from the new file, in its order, the sequence regions owned by it are
    exactly those its pragmas declare, and [gff_files] has as many records
    as before: the rows the record owned are replaced, none is kept. *)
Theorem gff_reimport_replaces (faulty : nat -> bool) (files : Gff.disk)
  (filePath : string) (info : Gff.fileInfo) (lines : list string)
  (s : session) (r0 : row) (others : list row) :
  (forall k, faulty k = false) ->
  files filePath = Some info ->
  Gff.file_lines info = Some lines ->
  pending s = None ->
  selectRows "gff_files" (named (basename filePath)) (visible s) = r0 :: others ->
  keyed r0 ->
  let fileId := col "file_id" r0 in
  exists s',
    Gff.processGffFile faulty files filePath s = (Ok fileId, s')
    /\ pending s' = None
    /\ featuresOf fileId (visible s') = fileFeatures fileId lines
    /\ regionsOf fileId (visible s') = fileRegions fileId (regionSeq s) lines
    /\ length (fileRecords (visible s')) = length (fileRecords (visible s)).
Proof.
  intros Hff Hfiles Hlines Hp Hsel Hkey fileId.
  match goal with |- context [Gff.processGffFile _ _ _ s] =>
    destruct (importGff_update faulty Hff (basename filePath) filePath info lines
                (Session (visible s) (pending s) (sequences s) (catalog s) (S (issued s))
                   (console s
                    ++ [LogLine ConsoleLog
                          "Processing file: ${fileName} (${(fileSize / 1024 / 1024).toFixed(2)} MB)"
                          [VText (basename filePath); vnat (Gff.file_size info)]]))
                r0 others Hp Hsel (keyed_sqlEq r0 Hkey) Hlines)
      as (s' & nLines & nRegions & Hrun & Hp' & Hf & Hr & Hn & _)
  end.
  exists s'. split; [|repeat split; assumption].
  apply (processGffFile_ok faulty files filePath info); [apply Hff | exact Hfiles | exact Hrun].
Qed.

(** C3, as the code has it (GFF importer). For every GFF file imported
    with no failure, the count printed in the completion log after
    [Features imported] is the number of lines that are not blank, do not
    start with [#] and hold 9 tab-separated columns or more. *)
Lemma gff_logged_count (faulty : nat -> bool) (files : Gff.disk)
  (filePath : string) (info : Gff.fileInfo) (lines : list string) (s : session) :
  (forall k, faulty k = false) ->
  files filePath = Some info ->
  Gff.file_lines info = Some lines ->
  pending s = None ->
  Forall keyed (selectRows "gff_files" (named (basename filePath)) (visible s)) ->
  exists fileId s' earlier nLines nRegions,
    Gff.processGffFile faulty files filePath s = (Ok fileId, s')
    /\ console s'
       = earlier
         ++ completionLog fileId nLines (length (List.filter isFeatureLine lines)) nRegions.
Proof.
  intros Hff Hfiles Hlines Hp Hkeys.
  set (s1 := Session (visible s) (pending s) (sequences s) (catalog s) (S (issued s))
               (console s
                ++ [LogLine ConsoleLog
                      "Processing file: ${fileName} (${(fileSize / 1024 / 1024).toFixed(2)} MB)"
                      [VText (basename filePath); vnat (Gff.file_size info)]])).
  assert (Hcount : forall fileId,
            length (fileFeatures fileId lines) = length (List.filter isFeatureLine lines)).
  { intros fileId. unfold fileFeatures. apply length_map. }
  destruct (selectRows "gff_files" (named (basename filePath)) (visible s))
    as [|r0 others] eqn:Hsel.
  - destruct (importGff_insert faulty Hff (basename filePath) filePath info lines s1
                Hp Hsel Hlines)
      as (s' & nLines & nRegions & Hrun & _ & _ & _ & earlier & Hlog).
    eexists _, s', earlier, nLines, nRegions. split.
    + apply (processGffFile_ok faulty files filePath info); [apply Hff | exact Hfiles | exact Hrun].
    + rewrite Hlog, Hcount. reflexivity.
  - inversion Hkeys as [|? ? Hkey _]; subst.
    destruct (importGff_update faulty Hff (basename filePath) filePath info lines s1
                r0 others Hp Hsel (keyed_sqlEq r0 Hkey) Hlines)
      as (s' & nLines & nRegions & Hrun & _ & _ & _ & _ & earlier & Hlog).
    eexists _, s', earlier, nLines, nRegions. split.
    + apply (processGffFile_ok faulty files filePath info); [apply Hff | exact Hfiles | exact Hrun].
    + rewrite Hlog, Hcount. reflexivity.
Qed.

(** ** Batches *)

Lemma firstn_plus {A} (a b : nat) (l : list A) :
  firstn (a + b) l = firstn a l ++ firstn b (skipn a l).
Proof.
  revert l. induction a as [|a IH]; intros l; [reflexivity|].
  destruct l as [|x l]; cbn [Nat.add firstn skipn app].
  - destruct b; reflexivity.
  - rewrite IH. reflexivity.
Qed.

Lemma batchOf_firstn {A} (b start : nat) (l : list A) :
  Tsv.slice start (Nat.min (start + b) (length l)) l = firstn b (skipn start l).
Proof.
  unfold Tsv.slice.
  destruct (Nat.le_gt_cases (start + b) (length l)) as [Hle|Hgt].
  - rewrite Nat.min_l by exact Hle. f_equal. lia.
  - rewrite Nat.min_r by lia.
    rewrite !firstn_all2; [reflexivity | |]; rewrite length_skipn; lia.
Qed.

Lemma batches_firstn (b : nat) (l : list string) (k : nat) :
  concat (map (Tsv.batchOf b l) (seq 0 k)) = firstn (k * b) l.
Proof.
  induction k as [|k IH]; [reflexivity|].
  rewrite seq_S, map_app, concat_app, IH. cbn [map concat Nat.add].
  rewrite app_nil_r. unfold Tsv.batchOf. rewrite batchOf_firstn.
  rewrite <- firstn_plus. f_equal. lia.
Qed.

Lemma ceilDiv_covers (n b : nat) : 0 < b -> n <= Tsv.ceilDiv n b * b.
Proof.
  intros Hb. unfold Tsv.ceilDiv.
  pose proof (Nat.div_mod_eq (n + (b - 1)) b) as Hdiv.
  pose proof (Nat.mod_upper_bound (n + (b - 1)) b ltac:(lia)) as Hmod.
  nia.
Qed.

(** The batches of the loop, one after the other, are the data lines. *)
Lemma batches_cover (b : nat) (l : list string) :
  0 < b ->
  concat (map (Tsv.batchOf b l) (seq 0 (Tsv.ceilDiv (length l) b))) = l.
Proof.
  intros Hb. rewrite batches_firstn. apply firstn_all2.
  apply ceilDiv_covers, Hb.
Qed.

(** ** What a TSV file holds *)

(** A data line of 8 columns or more. *)
Definition isWide (line : string) : bool := 8 <=? length (Js.split Tsv.TAB line).

(** The lines of the text that do not start with [#] and are not blank. *)
Definition dataLinesOf (text : string) : list string :=
  List.filter Tsv.isDataLine (Js.split Tsv.LF text).

(** One annotation row per data line of 8 columns or more. *)
Definition annotationRows (dbxrefs : list string -> value) (genomeId : value)
  (dataLines : list string) : list row :=
  map (fun line =>
         let parts := Js.split Tsv.TAB line in
         Tsv.annotationRow (dbxrefs parts) genomeId parts)
    (List.filter isWide dataLines).

Lemma pg_batchRows_rows genomeId l :
  Tsv.Pg.batchRows genomeId l = annotationRows Tsv.pgDbxrefs genomeId l.
Proof.
  unfold Tsv.Pg.batchRows, annotationRows, isWide.
  induction l as [|line l IH]; [reflexivity|].
  cbn [flat_map List.filter]. rewrite Nat.leb_antisym.
  destruct (length (Js.split Tsv.TAB line) <? 8); cbn [negb map app];
    rewrite IH; reflexivity.
Qed.

Lemma annotationRows_app dbxrefs genomeId l1 l2 :
  annotationRows dbxrefs genomeId (l1 ++ l2)
  = annotationRows dbxrefs genomeId l1 ++ annotationRows dbxrefs genomeId l2.
Proof. unfold annotationRows. rewrite List.filter_app, map_app. reflexivity. Qed.

Lemma annotationRows_concat dbxrefs genomeId (ls : list (list string)) :
  annotationRows dbxrefs genomeId (concat ls)
  = flat_map (annotationRows dbxrefs genomeId) ls.
Proof.
  induction ls as [|l ls IH]; [reflexivity|].
  cbn [concat flat_map]. rewrite annotationRows_app, IH. reflexivity.
Qed.

Definition tagged (t : string) (rs : list row) : tables := map (pair t) rs.

Section FaultFreeTsv.

Variable faulty : nat -> bool.
Hypothesis no_fault : forall k, faulty k = false.

Lemma run_commit s T :
  pending s = Some T ->
  exists s', sqlCommit faulty s = (Ok tt, s')
    /\ pending s' = None /\ visible s' = T /\ console s' = console s.
Proof.
  intros Hp. unfold sqlCommit, bind, call, current. rewrite no_fault.
  cbn [pending visible sequences catalog issued console]. rewrite Hp.
  eexists. split; [reflexivity|]. repeat split; reflexivity.
Qed.

Lemma run_call s T :
  pending s = Some T ->
  exists s', call faulty s = (Ok tt, s') /\ txAt s s' T
    /\ sequences s' = sequences s /\ console s' = console s.
Proof.
  intros Hp. unfold call. rewrite no_fault.
  eexists. split; [reflexivity|]. repeat split; assumption.
Qed.

Lemma run_insert t rs s T :
  pending s = Some T ->
  exists s', sqlInsert faulty t rs s = (Ok tt, s')
    /\ txAt s s' (T ++ tagged t rs) /\ console s' = console s.
Proof.
  intros Hp. unfold sqlInsert, bind, call, write. rewrite no_fault.
  cbn [pending visible sequences catalog issued console]. rewrite Hp.
  eexists. split; [reflexivity|]. repeat split; reflexivity.
Qed.

Lemma pg_batches_ok genomeId dataLines idxs :
  forall s T,
    pending s = Some T ->
    exists s',
      forM idxs
        (fun batchIndex =>
           let rows := Tsv.Pg.batchRows genomeId
                         (Tsv.batchOf Tsv.Pg.batchSize dataLines batchIndex) in
           if 0 <? length rows then sqlInsert faulty "annotations" rows else ret tt) s
      = (Ok tt, s')
      /\ txAt s s'
           (T ++ tagged "annotations"
                   (annotationRows Tsv.pgDbxrefs genomeId
                      (concat (map (Tsv.batchOf Tsv.Pg.batchSize dataLines) idxs))))
      /\ console s' = console s.
Proof.
  induction idxs as [|i idxs IH]; intros s T Hp.
  - exists s. cbn [forM map concat]. unfold ret, annotationRows, tagged. cbn.
    rewrite app_nil_r. repeat split; auto.
  - cbn [forM map concat]. rewrite annotationRows_app.
    set (rows := Tsv.Pg.batchRows genomeId (Tsv.batchOf Tsv.Pg.batchSize dataLines i)).
    assert (Hrows : annotationRows Tsv.pgDbxrefs genomeId
                      (Tsv.batchOf Tsv.Pg.batchSize dataLines i) = rows)
      by (symmetry; apply pg_batchRows_rows).
    rewrite Hrows. cbv zeta. fold rows.
    destruct (0 <? length rows) eqn:E.
    + destruct (run_insert "annotations" rows s T Hp) as (s1 & Hrun1 & [Hp1 Hv1] & Hc1).
      rewrite (bind_ok _ _ _ _ _ Hrun1).
      destruct (IH s1 _ Hp1) as (s' & Hrun & [Hp' Hv'] & Hc').
      exists s'. split; [exact Hrun|]. unfold tagged in *.
      rewrite map_app, app_assoc. repeat split; congruence.
    + assert (Hnil : rows = []).
      { apply Nat.ltb_ge in E. destruct rows; [reflexivity | cbn in E; lia]. }
      rewrite Hnil. unfold bind at 1, ret at 1.
      destruct (IH s T Hp) as (s' & Hrun & Htx & Hc').
      exists s'. split; [exact Hrun|]. cbn [app]. split; assumption.
Qed.

(** A TSV file imported by the PostgreSQL importer with no failure: the
    visible tables gain the genome row and one annotation row per data
    line of 8 columns or more, in the order of the file. *)
Lemma pg_importTsv_ok files filePath text s :
  files filePath = Some text ->
  pending s = None ->
  let genomeId := vnat (sequences s "genomes") in
  exists s',
    Tsv.Pg.importTsv faulty files filePath s = (Ok tt, s')
    /\ pending s' = None
    /\ visible s'
       = visible s
         ++ [("genomes",
              ("id", genomeId)
              :: Tsv.genomeRow (Tsv.stripExtension (basename filePath))
                   (Tsv.parseMetadata
                      (List.filter Tsv.isHeaderLine (Js.split Tsv.LF text)))
                   filePath)]
         ++ tagged "annotations"
              (annotationRows Tsv.pgDbxrefs genomeId (dataLinesOf text))
    /\ console s'
       = console s
         ++ [LogLine ConsoleLog "Imported ${dataLines.length} annotations from ${fileName}"
               [vnat (length (dataLinesOf text)); VText (basename filePath)]].
Proof.
  intros Hfile Hp genomeId. unfold Tsv.Pg.importTsv.
  destruct (run_begin faulty no_fault s Hp) as (s1 & Hrun1 & Hp1 & Hv1 & Hseq1).
  rewrite (bind_ok _ _ _ _ _ Hrun1).
  unfold Tsv.readFile. rewrite Hfile. unfold bind at 1. unfold ret at 1. cbv zeta.
  fold (dataLinesOf text).
  match goal with |- context [sqlInsertKeyed faulty "genomes" "id" ?r] =>
    destruct (run_insertKeyed faulty no_fault "genomes" "id" r s1 _ Hp1)
      as (s2 & Hrun2 & [Hp2 Hv2] & _ & _) end.
  rewrite (bind_ok _ _ _ _ _ Hrun2). rewrite Hseq1. fold genomeId.
  rewrite Hseq1 in Hp2. fold genomeId in Hp2.
  destruct (pg_batches_ok genomeId (dataLinesOf text)
              (seq 0 (Tsv.ceilDiv (length (dataLinesOf text)) Tsv.Pg.batchSize))
              s2 _ Hp2) as (s3 & Hrun3 & [Hp3 Hv3] & Hc3).
  rewrite (bind_ok _ _ _ _ _ Hrun3).
  rewrite batches_cover in Hp3 by (unfold Tsv.Pg.batchSize; lia).
  destruct (run_commit s3 _ Hp3) as (s4 & Hrun4 & Hp4 & Hv4 & Hc4).
  rewrite (bind_ok _ _ _ _ _ Hrun4).
  eexists. split; [reflexivity|]. cbn [pending visible console].
  split; [exact Hp4|]. split.
  - rewrite Hv4. unfold insertRows. cbn [map]. rewrite <- app_assoc. reflexivity.
  - rewrite Hc4, Hc3.
    assert (Hc2 : console s2 = console s1).
    { unfold sqlInsertKeyed, bind, call, write, nextval, ret in Hrun2.
      rewrite no_fault in Hrun2.
      cbn [pending visible sequences catalog issued console] in Hrun2.
      rewrite Hp1 in Hrun2. inversion Hrun2. reflexivity. }
    assert (Hc1 : console s1 = console s).
    { unfold sqlBegin, bind, call in Hrun1. rewrite no_fault in Hrun1.
      inversion Hrun1. reflexivity. }
    rewrite Hc2, Hc1. reflexivity.
Qed.

Lemma sqlite_lines_ok genomeId lines :
  forall s T,
    pending s = Some T ->
    exists s',
      forM lines (Tsv.Sqlite.insertLine faulty genomeId) s = (Ok tt, s')
      /\ txAt s s'
           (T ++ tagged "annotations" (annotationRows Tsv.sqliteDbxrefs genomeId lines))
      /\ console s' = console s.
Proof.
  induction lines as [|line lines IH]; intros s T Hp.
  - exists s. cbn [forM]. unfold ret, annotationRows, tagged. cbn.
    rewrite app_nil_r. repeat split; auto.
  - cbn [forM]. unfold Tsv.Sqlite.insertLine at 1.
    unfold annotationRows. cbn [List.filter]. unfold isWide at 1.
    rewrite Nat.leb_antisym.
    destruct (length (Js.split Tsv.TAB line) <? 8); cbn [negb map].
    + unfold bind at 1, ret at 1. apply IH, Hp.
    + match goal with |- context [sqlInsert faulty "annotations" ?rs] =>
        destruct (run_insert "annotations" rs s T Hp) as (s1 & Hrun1 & [Hp1 Hv1] & Hc1) end.
      rewrite (bind_ok _ _ _ _ _ Hrun1).
      destruct (IH s1 _ Hp1) as (s' & Hrun & [Hp' Hv'] & Hc').
      exists s'. split; [exact Hrun|].
      split; [|congruence]. split; [|congruence].
      rewrite Hp'. f_equal. rewrite <- app_assoc. reflexivity.
Qed.

Lemma sqlite_batches_ok genomeId dataLines idxs :
  forall s T,
    pending s = Some T ->
    exists s',
      forM idxs
        (fun batchIndex =>
           forM (Tsv.batchOf Tsv.Sqlite.batchSize dataLines batchIndex)
             (Tsv.Sqlite.insertLine faulty genomeId)) s
      = (Ok tt, s')
      /\ txAt s s'
           (T ++ tagged "annotations"
                   (annotationRows Tsv.sqliteDbxrefs genomeId
                      (concat (map (Tsv.batchOf Tsv.Sqlite.batchSize dataLines) idxs))))
      /\ console s' = console s.
Proof.
  induction idxs as [|i idxs IH]; intros s T Hp.
  - exists s. cbn [forM map concat]. unfold ret, annotationRows, tagged. cbn.
    rewrite app_nil_r. repeat split; auto.
  - cbn [forM map concat]. rewrite annotationRows_app.
    destruct (sqlite_lines_ok genomeId (Tsv.batchOf Tsv.Sqlite.batchSize dataLines i) s T Hp)
      as (s1 & Hrun1 & [Hp1 Hv1] & Hc1).
    rewrite (bind_ok _ _ _ _ _ Hrun1).
    destruct (IH s1 _ Hp1) as (s' & Hrun & [Hp' Hv'] & Hc').
    exists s'. split; [exact Hrun|]. unfold tagged in *.
    rewrite map_app, app_assoc. repeat split; congruence.
Qed.

(** The same in the SQLite importer. *)
Lemma sqlite_importTsv_ok files filePath text s :
  files filePath = Some text ->
  pending s = None ->
  let genomeId := vnat (sequences s "genomes") in
  exists s',
    Tsv.Sqlite.importTsv faulty files filePath s = (Ok tt, s')
    /\ pending s' = None
    /\ visible s'
       = visible s
         ++ [("genomes",
              ("id", genomeId)
              :: Tsv.genomeRow (Tsv.stripExtension (basename filePath))
                   (Tsv.parseMetadata
                      (List.filter Tsv.isHeaderLine (Js.split Tsv.LF text)))
                   filePath)]
         ++ tagged "annotations"
              (annotationRows Tsv.sqliteDbxrefs genomeId (dataLinesOf text))
    /\ console s'
       = console s
         ++ [LogLine ConsoleLog "Imported ${dataLines.length} annotations from ${fileName}"
               [vnat (length (dataLinesOf text)); VText (basename filePath)]].
Proof.
  intros Hfile Hp genomeId. unfold Tsv.Sqlite.importTsv.
  unfold Tsv.readFile. rewrite Hfile. unfold bind at 1. unfold ret at 1. cbv zeta.
  fold (dataLinesOf text).
  destruct (run_begin faulty no_fault s Hp) as (s1 & Hrun1 & Hp1 & Hv1 & Hseq1).
  rewrite (bind_ok _ _ _ _ _ Hrun1).
  match goal with |- context [sqlInsertKeyed faulty "genomes" "id" ?r] =>
    destruct (run_insertKeyed faulty no_fault "genomes" "id" r s1 _ Hp1)
      as (s2 & Hrun2 & [Hp2 Hv2] & _ & _) end.
  rewrite (bind_ok _ _ _ _ _ Hrun2). rewrite Hseq1. fold genomeId.
  rewrite Hseq1 in Hp2. fold genomeId in Hp2.
  unfold Tsv.Sqlite.prepare, Tsv.Sqlite.finalize.
  destruct (run_call s2 _ Hp2) as (s3 & Hrun3 & [Hp3 Hv3] & _ & Hc3).
  rewrite (bind_ok _ _ _ _ _ Hrun3).
  destruct (sqlite_batches_ok genomeId (dataLinesOf text)
              (seq 0 (Tsv.ceilDiv (length (dataLinesOf text)) Tsv.Sqlite.batchSize))
              s3 _ Hp3) as (s4 & Hrun4 & [Hp4 Hv4] & Hc4).
  rewrite (bind_ok _ _ _ _ _ Hrun4).
  rewrite batches_cover in Hp4 by (unfold Tsv.Sqlite.batchSize; lia).
  destruct (run_call s4 _ Hp4) as (s5 & Hrun5 & [Hp5 Hv5] & _ & Hc5).
  rewrite (bind_ok _ _ _ _ _ Hrun5).
  destruct (run_commit s5 _ Hp5) as (s6 & Hrun6 & Hp6 & Hv6 & Hc6).
  rewrite (bind_ok _ _ _ _ _ Hrun6).
  eexists. split; [reflexivity|]. cbn [pending visible console].
  split; [exact Hp6|]. split.
  - rewrite Hv6. unfold insertRows. cbn [map]. rewrite <- app_assoc. reflexivity.
  - rewrite Hc6, Hc5, Hc4, Hc3.
    assert (Hc2 : console s2 = console s1).
    { unfold sqlInsertKeyed, bind, call, write, nextval, ret in Hrun2.
      rewrite no_fault in Hrun2.
      cbn [pending visible sequences catalog issued console] in Hrun2.
      rewrite Hp1 in Hrun2. inversion Hrun2. reflexivity. }
    assert (Hc1 : console s1 = console s).
    { unfold sqlBegin, bind, call in Hrun1. rewrite no_fault in Hrun1.
      inversion Hrun1. reflexivity. }
    rewrite Hc2, Hc1. reflexivity.
Qed.

End FaultFreeTsv.

Lemma filter_twice {A} (p q : A -> bool) (l : list A) :
  List.filter q (List.filter p l) = List.filter (fun x => p x && q x) l.
Proof.
  induction l as [|x l IH]; [reflexivity|].
  cbn [List.filter]. destruct (p x); cbn [List.filter andb]; rewrite IH; reflexivity.
Qed.

(** The lines of a TSV text that do not start with [#], are not blank and
    hold 8 tab-separated columns or more. *)
Definition annotationLines (text : string) : list string :=
  List.filter
    (fun line =>
       negb (Js.startsWith "#" line) && Js.truthy (Js.trim line)
       && (8 <=? length (Js.split Tsv.TAB line)))
    (Js.split Tsv.LF text).

Lemma annotationRows_count dbxrefs genomeId text :
  length (annotationRows dbxrefs genomeId (dataLinesOf text))
  = length (annotationLines text).
Proof.
  unfold annotationRows, dataLinesOf, annotationLines.
  rewrite length_map, filter_twice. reflexivity.
Qed.

Definition genomeEntry (genomeId : value) (filePath text : string) : string * row :=
  ("genomes",
   ("id", genomeId)
   :: Tsv.genomeRow (Tsv.stripExtension (basename filePath))
        (Tsv.parseMetadata (List.filter Tsv.isHeaderLine (Js.split Tsv.LF text)))
        filePath).

Lemma pg_processTsvFile_ok faulty files filePath text s :
  (forall k, faulty k = false) ->
  files filePath = Some text ->
  pending s = None ->
  let genomeId := vnat (sequences s "genomes") in
  exists s',
    Tsv.Pg.processTsvFile faulty files filePath s = (Ok tt, s')
    /\ pending s' = None
    /\ visible s'
       = visible s ++ [genomeEntry genomeId filePath text]
         ++ tagged "annotations" (annotationRows Tsv.pgDbxrefs genomeId (dataLinesOf text))
    /\ console s'
       = console s
         ++ [ processingLine filePath;
              LogLine ConsoleLog "Imported ${dataLines.length} annotations from ${fileName}"
                [vnat (length (dataLinesOf text)); VText (basename filePath)] ].
Proof.
  intros Hff Hfile Hp genomeId. unfold Tsv.Pg.processTsvFile.
  unfold bind at 1. unfold say at 1. unfold bind at 1. unfold connect, call at 1.
  cbn [visible pending sequences catalog issued console]. rewrite Hff.
  match goal with |- context [tryCatch _ _ ?s1] =>
    destruct (pg_importTsv_ok faulty Hff files filePath text s1 Hfile Hp)
      as (s' & Hrun & Hp' & Hv' & Hc') end.
  unfold tryCatch. rewrite Hrun. exists s'. split; [reflexivity|].
  split; [exact Hp'|]. split; [exact Hv'|].
  rewrite Hc'. cbn [console]. rewrite <- app_assoc. reflexivity.
Qed.

Lemma sqlite_processTsvFile_ok faulty files filePath text s :
  (forall k, faulty k = false) ->
  files filePath = Some text ->
  pending s = None ->
  let genomeId := vnat (sequences s "genomes") in
  exists s',
    Tsv.Sqlite.processTsvFile faulty files filePath s = (Ok tt, s')
    /\ pending s' = None
    /\ visible s'
       = visible s ++ [genomeEntry genomeId filePath text]
         ++ tagged "annotations"
              (annotationRows Tsv.sqliteDbxrefs genomeId (dataLinesOf text))
    /\ console s'
       = console s
         ++ [ processingLine filePath;
              LogLine ConsoleLog "Imported ${dataLines.length} annotations from ${fileName}"
                [vnat (length (dataLinesOf text)); VText (basename filePath)] ].
Proof.
  intros Hff Hfile Hp genomeId. unfold Tsv.Sqlite.processTsvFile.
  unfold bind at 1. unfold say at 1.
  match goal with |- context [tryCatch _ _ ?s1] =>
    destruct (sqlite_importTsv_ok faulty Hff files filePath text s1 Hfile Hp)
      as (s' & Hrun & Hp' & Hv' & Hc') end.
  unfold tryCatch. rewrite Hrun. exists s'. split; [reflexivity|].
  split; [exact Hp'|]. split; [exact Hv'|].
  rewrite Hc'. cbn [console]. rewrite <- app_assoc. reflexivity.
Qed.

(** C3, as the code has it. With no failure: the count the GFF importer
    prints after [Features imported] is the number of lines of the file
    that are not blank, do not start with [#] and hold 9 tab-separated
    columns or more; and each TSV importer adds to the database, besides
    the genome row, exactly one annotation row per line that does not start
    with [#], is not blank and holds 8 tab-separated columns or more. *)
Theorem logged_and_inserted_counts (faulty : nat -> bool) (filePath : string)
  (s : session) :
  (forall k, faulty k = false) ->
  pending s = None ->
  (forall files info lines,
     files filePath = Some info ->
     Gff.file_lines info = Some lines ->
     Forall keyed (selectRows "gff_files" (named (basename filePath)) (visible s)) ->
     exists fileId s' earlier nLines nRegions,
       Gff.processGffFile faulty files filePath s = (Ok fileId, s')
       /\ console s'
          = earlier
            ++ completionLog fileId nLines (length (List.filter isFeatureLine lines))
                 nRegions)
  /\ (forall files text,
        files filePath = Some text ->
        let genomeId := vnat (sequences s "genomes") in
        exists s' rows,
          Tsv.Pg.processTsvFile faulty files filePath s = (Ok tt, s')
          /\ visible s'
             = visible s ++ [genomeEntry genomeId filePath text] ++ tagged "annotations" rows
          /\ rows = annotationRows Tsv.pgDbxrefs genomeId (dataLinesOf text)
          /\ length rows = length (annotationLines text))
  /\ (forall files text,
        files filePath = Some text ->
        let genomeId := vnat (sequences s "genomes") in
        exists s' rows,
          Tsv.Sqlite.processTsvFile faulty files filePath s = (Ok tt, s')
          /\ visible s'
             = visible s ++ [genomeEntry genomeId filePath text] ++ tagged "annotations" rows
          /\ rows = annotationRows Tsv.sqliteDbxrefs genomeId (dataLinesOf text)
          /\ length rows = length (annotationLines text)).
Proof.
  intros Hff Hp. split; [|split].
  - intros files info lines Hfile Hlines Hkeys.
    exact (gff_logged_count faulty files filePath info lines s Hff Hfile Hlines Hp Hkeys).
  - intros files text Hfile genomeId.
    destruct (pg_processTsvFile_ok faulty files filePath text s Hff Hfile Hp)
      as (s' & Hrun & _ & Hv & _).
    exists s', (annotationRows Tsv.pgDbxrefs genomeId (dataLinesOf text)).
    split; [exact Hrun|]. split; [exact Hv|]. split; [reflexivity|].
    apply annotationRows_count.
  - intros files text Hfile genomeId.
    destruct (sqlite_processTsvFile_ok faulty files filePath text s Hff Hfile Hp)
      as (s' & Hrun & _ & Hv & _).
    exists s', (annotationRows Tsv.sqliteDbxrefs genomeId (dataLinesOf text)).
    split; [exact Hrun|]. split; [exact Hv|]. split; [reflexivity|].
    apply annotationRows_count.
Qed.

(** A GFF file of one line with 8 columns, which the claim counts and the
    importer skips. *)
Definition eightColumns : Gff.disk :=
  fun p =>
    if String.eqb p "data/a.gff"
    then Some (Gff.FileInfo 30
                 (Some [tabbed ["chr1"; "src"; "gene"; "1"; "9"; "."; "+"; "."]]))
    else None.

(** The GFF importer prints 0 features for a file whose only line has 8
    columns, though that line does not start with [#], is not blank and
    holds at least 8 tab-separated columns. *)
Lemma gff_counts_nine_columns :
  let line := tabbed ["chr1"; "src"; "gene"; "1"; "9"; "."; "+"; "."] in
  let run := Gff.processGffFile (fun _ => false) eightColumns "data/a.gff" emptySession in
  (negb (Js.startsWith "#" line) && Js.truthy (Js.trim line)
   && (8 <=? length (Js.split Gff.TAB line))) = true
  /\ fst run = Ok (vnat 1)
  /\ In (LogLine ConsoleLog "- Features imported: ${featureCount.toLocaleString()}"
           [vnat 0])
       (console (snd run))
  /\ ~ In (LogLine ConsoleLog "- Features imported: ${featureCount.toLocaleString()}"
             [vnat 1])
         (console (snd run)).
Proof.
  vm_compute. split; [reflexivity|]. split; [reflexivity|]. split.
  - do 4 right. left. reflexivity.
  - intros H. repeat (destruct H as [H|H]; [discriminate H|]). exact H.
Qed.

Lemma logged_and_inserted_counts_witness :
  let run := Gff.processGffFile (fun _ => false) eightColumns "data/a.gff" emptySession in
  exists fileId s' earlier nLines nRegions,
    run = (Ok fileId, s')
    /\ console s' = earlier ++ completionLog fileId nLines 0 nRegions.
Proof.
  exact (proj1 (logged_and_inserted_counts (fun _ => false) "data/a.gff" emptySession
                  (fun _ => eq_refl) eq_refl)
           eightColumns
           (Gff.FileInfo 30 (Some [tabbed ["chr1"; "src"; "gene"; "1"; "9"; "."; "+"; "."]]))
           [tabbed ["chr1"; "src"; "gene"; "1"; "9"; "."; "+"; "."]]
           eq_refl eq_refl (List.Forall_nil _)).
Defined.

(** A database that already holds a record for [a.gff], with one feature
    and one sequence region from an earlier import, and the new content of
    the file. *)
Definition knownFile : session :=
  Session
    [ ("gff_files", [("file_id", vnat 1); ("filename", VText "a.gff")]);
      ("gff_features", [("file_id", vnat 1); ("seqid", VText "old")]);
      ("sequence_regions", [("region_id", vnat 1); ("file_id", vnat 1)]) ]
    None (fun _ => 2) [] 0 [].

Definition newLines : list string :=
  [ "##gff-version 3";
    "##sequence-region chr1 1 1000";
    tabbed ["chr1"; "src"; "gene"; "10"; "20"; "."; "+"; "."; "ID=g1"] ].

Definition newContent : Gff.disk :=
  fun p => if String.eqb p "data/a.gff" then Some (Gff.FileInfo 64 (Some newLines)) else None.

Lemma gff_reimport_replaces_witness :
  exists s',
    Gff.processGffFile (fun _ => false) newContent "data/a.gff" knownFile
    = (Ok (vnat 1), s')
    /\ pending s' = None
    /\ featuresOf (vnat 1) (visible s') = fileFeatures (vnat 1) newLines
    /\ regionsOf (vnat 1) (visible s') = fileRegions (vnat 1) 2 newLines
    /\ length (fileRecords (visible s')) = 1.
Proof.
  exact (gff_reimport_replaces (fun _ => false) newContent "data/a.gff"
           (Gff.FileInfo 64 (Some newLines)) newLines knownFile
           [("file_id", vnat 1); ("filename", VText "a.gff")] []
           (fun _ => eq_refl) eq_refl eq_refl eq_refl eq_refl
           (ex_intro _ 1%Z eq_refl)).
Defined.

(** The annotations that belong to a file path: those of the genome records
    with that path. *)
Definition annotationsOfPath (filePath : string) (T : tables) : list row :=
  selectRows "annotations"
    (fun r =>
       existsb (fun g => sqlEq (col "genome_id" r) (col "id" g))
         (selectRows "genomes"
            (fun g => sqlEq (col "file_path" g) (VText filePath)) T))
    T.

(** The TSV importer run twice on the same file, whose text has a single
    annotation line: the second run finds the genome record of the first,
    adds a second one for the same path and keeps the annotation of the
    first, so that two annotation rows belong to the file afterwards. *)
Lemma tsv_reimport_appends :
  let run1 := Tsv.Pg.processTsvFile (fun _ => false) twoFiles "data/b.tsv" emptySession in
  let run2 := Tsv.Pg.processTsvFile (fun _ => false) twoFiles "data/b.tsv" (snd run1) in
  fst run1 = Ok tt /\ fst run2 = Ok tt
  /\ length (annotationsOfPath "data/b.tsv" (visible (snd run1))) = 1
  /\ length (annotationsOfPath "data/b.tsv" (visible (snd run2))) = 2
  /\ annotationsOfPath "data/b.tsv" (visible (snd run2))
     <> annotationRows Tsv.pgDbxrefs (vnat 2)
          (dataLinesOf (tabbed ["c1"; "cds"; "1"; "9"; "+"; "L1"; "geneA"; "prod"])).
Proof. vm_compute. repeat split; try reflexivity. discriminate. Qed.

(** * Further properties of the importers *)

(** ** Header pragmas of the GFF importer *)

Lemma prefix_trans p : forall q s,
  String.prefix p q = true -> String.prefix q s = true -> String.prefix p s = true.
Proof.
  induction p as [|a p IH]; intros q s Hpq Hqs; [destruct s; reflexivity|].
  destruct q as [|b q]; [discriminate Hpq|].
  destruct s as [|c s]; [discriminate Hqs|].
  cbn [String.prefix] in *.
  destruct (ascii_dec a b) as [->|]; [|discriminate Hpq].
  destruct (ascii_dec b c) as [->|]; [|discriminate Hqs].
  apply (IH q s); assumption.
Qed.

(** The values of a column over the file records. *)
Definition fileColumn (c : string) (T : tables) : list value :=
  map (col c) (fileRecords T).

(** The column [c] of every file record is what it was. *)
Definition columnKept (c : string) (s s' : session) : Prop :=
  fileColumn c (current s') = fileColumn c (current s).

Lemma columnKept_refl c s : columnKept c s s.
Proof. reflexivity. Qed.

Lemma columnKept_trans c s1 s2 s3 :
  columnKept c s1 s2 -> columnKept c s2 s3 -> columnKept c s1 s3.
Proof. unfold columnKept. congruence. Qed.

Lemma columnKept_plain c {A} (m : M A) :
  (forall s, visible (snd (m s)) = visible s /\ pending (snd (m s)) = pending s) ->
  keeps (columnKept c) m.
Proof.
  intros H s. destruct (H s) as [Hv Hp]. unfold columnKept, current.
  rewrite Hv, Hp. reflexivity.
Qed.

Lemma columnKept_call c faulty : keeps (columnKept c) (call faulty).
Proof.
  apply columnKept_plain. intros s. unfold call. destruct (faulty _); split; reflexivity.
Qed.

Lemma columnKept_write c f :
  (forall T, fileColumn c (f T) = fileColumn c T) -> keeps (columnKept c) (write f).
Proof.
  intros Hf s. unfold columnKept, write, current.
  destruct (pending s); cbn [snd pending visible]; apply Hf.
Qed.

Lemma fileColumn_insert_other c t rs T :
  String.eqb t "gff_files" = false ->
  fileColumn c (insertRows t rs T) = fileColumn c T.
Proof.
  intros Hne. unfold fileColumn, fileRecords. rewrite selectRows_insert, Hne.
  rewrite app_nil_r. reflexivity.
Qed.

Lemma fileColumn_update_other c t set cond T :
  String.eqb t "gff_files" = false ->
  fileColumn c (updateRows t set cond T) = fileColumn c T.
Proof.
  intros Hne. unfold fileColumn, fileRecords.
  rewrite selectRows_update_other by exact Hne. reflexivity.
Qed.

Lemma fileColumn_set_other c c' v cond T :
  String.eqb c c' = false ->
  fileColumn c (updateRows "gff_files" (setCol c' v) cond T) = fileColumn c T.
Proof.
  intros Hne. unfold fileColumn, fileRecords.
  rewrite selectRows_update_same by reflexivity. rewrite map_map.
  apply map_ext. intros r. destruct (cond r); [|reflexivity].
  apply col_setCol_other, Hne.
Qed.

Lemma headerLine_keeps_accession faulty fileId st line :
  keeps (columnKept "genome_build_accession") (Gff.headerLine faulty fileId st line).
Proof.
  assert (Hset : forall c v,
            String.eqb "genome_build_accession" c = false ->
            keeps (columnKept "genome_build_accession")
              (Gff.setFileColumn faulty c v fileId ;; ret st)).
  { intros c v Hc. unfold Gff.setFileColumn, sqlUpdate.
    apply (keeps_bind _ (columnKept_trans _)).
    - apply (keeps_bind _ (columnKept_trans _)); [apply columnKept_call|].
      intros _. apply columnKept_write. intros T. apply fileColumn_set_other, Hc.
    - intros _. apply (keeps_ret _ (columnKept_refl _)). }
  unfold Gff.headerLine.
  destruct (Js.startsWith "##gff-version" line); [apply Hset; reflexivity|].
  destruct (Js.startsWith "#!genome-build" line) eqn:E2; [apply Hset; reflexivity|].
  destruct (Js.startsWith "#!genome-build-accession" line) eqn:E3.
  { exfalso. unfold Js.startsWith in *.
    rewrite (prefix_trans "#!genome-build" "#!genome-build-accession" line eq_refl E3) in E2.
    discriminate. }
  destruct (Js.startsWith "#!annotation-date" line); [apply Hset; reflexivity|].
  destruct (Js.startsWith "#!annotation-source" line); [apply Hset; reflexivity|].
  destruct (Js.startsWith "##sequence-region" line).
  { destruct (4 <=? _); [|apply (keeps_ret _ (columnKept_refl _))].
    unfold sqlInsertKeyed.
    apply (keeps_bind _ (columnKept_trans _)).
    - apply (keeps_bind _ (columnKept_trans _)); [apply columnKept_call|]. intros _.
      apply (keeps_bind _ (columnKept_trans _)).
      + apply columnKept_plain. intros s. split; reflexivity.
      + intros n. apply (keeps_bind _ (columnKept_trans _)).
        * apply columnKept_write. intros T. apply fileColumn_insert_other. reflexivity.
        * intros _. apply (keeps_ret _ (columnKept_refl _)).
    - intros _. apply (keeps_ret _ (columnKept_refl _)). }
  destruct (Js.startsWith "##species" line).
  { destruct (Gff.matchSpecies line); [|apply (keeps_ret _ (columnKept_refl _))].
    apply (keeps_bind _ (columnKept_trans _)); [apply columnKept_call|]. intros _.
    apply (keeps_bind _ (columnKept_trans _)).
    - apply columnKept_write. intros T. apply fileColumn_update_other. reflexivity.
    - intros _. apply (keeps_ret _ (columnKept_refl _)). }
  apply (keeps_ret _ (columnKept_refl _)).
Qed.

(** X1. A header line that starts with [#!genome-build-accession] also
    starts with [#!genome-build], which is tested first: the importer
    stores its second field in the column [genome_build], and no header
    line ever changes the column [genome_build_accession] of a file
    record, whatever fails. *)
Theorem accession_pragma_sets_genome_build (faulty : nat -> bool) (fileId : value)
  (st : Gff.loopVars) (line : string) :
  (Js.startsWith "#!genome-build-accession" line = true ->
   Gff.headerLine faulty fileId st line
   = (Gff.setFileColumn faulty "genome_build" (Gff.param (Js.split " " line) 1) fileId ;;
      ret st))
  /\ (forall s,
        fileColumn "genome_build_accession"
          (current (snd (Gff.headerLine faulty fileId st line s)))
        = fileColumn "genome_build_accession" (current s)).
Proof.
  split.
  - intros H. unfold Gff.headerLine.
    rewrite (startsWith_excludes "#!genome-build-accession" "##gff-version" line
               eq_refl eq_refl H).
    unfold Js.startsWith in *.
    rewrite (prefix_trans "#!genome-build" "#!genome-build-accession" line eq_refl H).
    reflexivity.
  - intros s. apply headerLine_keeps_accession.
Qed.

Lemma accession_pragma_sets_genome_build_witness :
  let s := Session [("gff_files", [("file_id", vnat 1); ("genome_build", VNull);
                                   ("genome_build_accession", VNull)])]
             None (fun _ => 2) [] 0 [] in
  let s' := snd (Gff.headerLine (fun _ => false) (vnat 1) (Gff.LoopVars 1 0 0 [])
                   "#!genome-build-accession NCBI:GCF_1" s) in
  fileColumn "genome_build" (visible s') = [VText "NCBI:GCF_1"]
  /\ fileColumn "genome_build_accession" (visible s') = [VNull].
Proof.
  pose proof (accession_pragma_sets_genome_build (fun _ => false) (vnat 1)
                (Gff.LoopVars 1 0 0 []) "#!genome-build-accession NCBI:GCF_1")
    as [Heq Hkept].
  split.
  - rewrite (Heq eq_refl). vm_compute. reflexivity.
  - exact (Hkept (Session [("gff_files", [("file_id", vnat 1); ("genome_build", VNull);
                                          ("genome_build_accession", VNull)])]
                    None (fun _ => 2) [] 0 [])).
Defined.

(** ** The file-name filter of the TSV importers *)

Definition isUpper (c : ascii) : bool :=
  let n := nat_of_ascii c in Nat.leb 65 n && Nat.leb n 90.

Lemma lowerChar_not_upper c : isUpper (Js.lowerChar c) = false.
Proof.
  destruct c as [[] [] [] [] [] [] [] []]; vm_compute; reflexivity.
Qed.

Lemma toLowerCase_not_upper c s :
  Js.includesChar c (Js.toLowerCase s) = true -> isUpper c = false.
Proof.
  induction s as [|d s IH]; cbn [Js.toLowerCase Js.includesChar]; [discriminate|].
  intros H. apply orb_true_iff in H as [H|H]; [|exact (IH H)].
  apply Ascii.eqb_eq in H. subst c. apply lowerChar_not_upper.
Qed.

Lemma prefix_chars p : forall s c,
  String.prefix p s = true -> Js.includesChar c p = true -> Js.includesChar c s = true.
Proof.
  induction p as [|a p IH]; intros s c Hp Hc; [discriminate Hc|].
  destruct s as [|b s]; [discriminate Hp|].
  cbn [String.prefix Js.includesChar] in *.
  destruct (ascii_dec a b) as [->|]; [|discriminate Hp].
  apply orb_true_iff in Hc as [Hc|Hc]; apply orb_true_iff;
    [left; exact Hc | right; exact (IH s c Hp Hc)].
Qed.

Lemma includes_chars p s c :
  Js.includes p s = true -> Js.includesChar c p = true -> Js.includesChar c s = true.
Proof.
  intros Hin Hc. induction s as [|b s IH].
  - cbn [Js.includes] in Hin. rewrite orb_false_r in Hin.
    exact (prefix_chars p _ c Hin Hc).
  - cbn [Js.includes] in Hin. apply orb_true_iff in Hin as [Hin|Hin].
    + exact (prefix_chars p _ c Hin Hc).
    + cbn [Js.includesChar]. rewrite (IH Hin). apply orb_true_r.
Qed.

Lemma filter_none {A} (p : A -> bool) (l : list A) :
  (forall x, p x = false) -> List.filter p l = [].
Proof.
  intros H. induction l as [|x l IH]; [reflexivity|].
  cbn [List.filter]. rewrite H. exact IH.
Qed.

Lemma pg_main_no_match faulty files folderPath filePattern ls s :
  List.filter (Tsv.matches filePattern) ls = [] ->
  fst (Tsv.Pg.main faulty files folderPath filePattern (Some ls) s) = Exit 1.
Proof.
  intros Hnone. unfold Tsv.Pg.main, tryCatch, bind, ret, say, processExit.
  rewrite Hnone. reflexivity.
Qed.

Lemma sqlite_main_no_match faulty files folderPath filePattern dbPath ls s :
  List.filter (Tsv.matches filePattern) ls = [] ->
  fst (Tsv.Sqlite.main faulty files folderPath filePattern dbPath (Some ls) s) = Exit 1.
Proof.
  intros Hnone.
  unfold Tsv.Sqlite.main, Tsv.Sqlite.openDatabase, Tsv.Sqlite.initializeDatabase,
    Tsv.Sqlite.closeDatabase, sqlCreate, tryCatch, bind, ret, say, processExit, call.
  rewrite Hnone.
  cbn [length Nat.eqb visible pending sequences catalog issued console].
  plan_cases; cbn [visible pending sequences catalog issued console];
    try reflexivity.
  all: destruct (existsb _ _); cbn [negb visible pending sequences catalog issued console];
    plan_cases; reflexivity.
Qed.

(** X2. The TSV importers compare the pattern with the lower-cased file
    name, and leave the pattern as given: a pattern that holds an
    upper-case letter A-Z matches no file at all, so that the run over any
    folder ends with exit code 1 before any file is read. *)
Theorem uppercase_pattern_matches_nothing (filePattern : string) (c : ascii) :
  isUpper c = true ->
  Js.includesChar c filePattern = true ->
  (forall file, Tsv.matches filePattern file = false)
  /\ (forall faulty files folderPath ls s,
        fst (Tsv.Pg.main faulty files folderPath filePattern (Some ls) s) = Exit 1)
  /\ (forall faulty files folderPath dbPath ls s,
        fst (Tsv.Sqlite.main faulty files folderPath filePattern dbPath (Some ls) s)
        = Exit 1).
Proof.
  intros Hup Hc.
  assert (Hno : forall file, Tsv.matches filePattern file = false).
  { intros file. unfold Tsv.matches.
    destruct (Js.includes filePattern (Js.toLowerCase file)) eqn:E; [|reflexivity].
    pose proof (toLowerCase_not_upper c file (includes_chars _ _ c E Hc)). congruence. }
  split; [exact Hno|]. split.
  - intros faulty files folderPath ls s.
    apply pg_main_no_match, filter_none, Hno.
  - intros faulty files folderPath dbPath ls s.
    apply sqlite_main_no_match, filter_none, Hno.
Qed.

Lemma uppercase_pattern_matches_nothing_witness :
  Tsv.matches ".TSV" "genome.TSV" = false /\ Tsv.matches ".tsv" "genome.TSV" = true.
Proof.
  split; [|reflexivity].
  exact (proj1 (uppercase_pattern_matches_nothing ".TSV" "T" eq_refl eq_refl) "genome.TSV").
Defined.

(** ** The sample id *)

Lemma stripExtension_keeps stem rest :
  Js.includesChar "." rest = true ->
  Tsv.stripExtension (stem +:+ rest) = stem +:+ Tsv.stripExtension rest.
Proof.
  intros Hdot. induction stem as [|c stem IH]; [reflexivity|].
  change (String c stem +:+ rest) with (String c (stem +:+ rest)).
  change (String c stem +:+ Tsv.stripExtension rest)
    with (String c (stem +:+ Tsv.stripExtension rest)).
  cbn [Tsv.stripExtension].
  rewrite (includesChar_app "."), Hdot, orb_true_r. cbn [negb].
  rewrite andb_false_r. rewrite IH. reflexivity.
Qed.

(** X3. The sample id of a TSV file is its name without the last
    extension: for a name [stem.ext] whose extension is not empty and
    holds neither a dot nor a slash the id is [stem], dots inside the stem
    staying; a name with no dot, or one that ends with a dot, is the id as
    it stands. *)
Theorem stripExtension_last_extension :
  (forall stem ext,
     ext <> EmptyString ->
     Js.includesChar "." ext = false -> Js.includesChar "/" ext = false ->
     Tsv.stripExtension (stem +:+ "." +:+ ext) = stem)
  /\ (forall name, Js.includesChar "." name = false -> Tsv.stripExtension name = name)
  /\ (forall stem,
        Js.includesChar "." stem = false ->
        Tsv.stripExtension (stem +:+ ".") = stem +:+ ".").
Proof.
  assert (Hplain : forall name,
            Js.includesChar "." name = false -> Tsv.stripExtension name = name).
  { induction name as [|c name IH]; [reflexivity|].
    cbn [Js.includesChar Tsv.stripExtension]. intros H.
    apply orb_false_iff in H as [Hc Hname]. rewrite Hc. cbn [andb].
    rewrite (IH Hname). reflexivity. }
  split; [|split; [exact Hplain|]].
  - intros stem ext Hne Hdot Hslash.
    rewrite stripExtension_keeps by reflexivity.
    change ("." +:+ ext) with (String "." ext). cbn [Tsv.stripExtension].
    rewrite Ascii.eqb_refl, (truthy_nonempty _ Hne), Hslash, Hdot. cbn [andb negb].
    induction stem as [|c stem IH]; [reflexivity|].
    change (String c stem +:+ "") with (String c (stem +:+ "")).
    rewrite IH. reflexivity.
  - intros stem Hdot. induction stem as [|c stem IH]; [reflexivity|].
    cbn [Js.includesChar] in Hdot. apply orb_false_iff in Hdot as [Hc Hstem].
    change (String c stem +:+ ".") with (String c (stem +:+ ".")).
    cbn [Tsv.stripExtension]. rewrite Hc. cbn [andb].
    rewrite (IH Hstem). reflexivity.
Qed.

Lemma stripExtension_last_extension_witness :
  Tsv.stripExtension "sample.v2.tsv" = "sample.v2" /\ Tsv.stripExtension "README" = "README".
Proof.
  destruct stripExtension_last_extension as (Hext & Hplain & _).
  split.
  - exact (Hext "sample.v2" "tsv" ltac:(discriminate) eq_refl eq_refl).
  - exact (Hplain "README" eq_refl).
Defined.

(** ** Header metadata of the TSV importers *)

Lemma metadataStep_software_kept m line :
  Js.startsWith "# Software:" line = false ->
  Tsv.software_version (Tsv.metadataStep m line) = Tsv.software_version m.
Proof.
  intros H. unfold Tsv.metadataStep. rewrite H.
  destruct (Js.startsWith "# Database:" line).
  { destruct (1 <=? _), (2 <=? _); reflexivity. }
  destruct (Js.startsWith "# DOI:" line); [reflexivity|].
  destruct (Js.startsWith "# URL:" line); reflexivity.
Qed.

Lemma metadata_software_kept lines : forall m,
  Forall (fun line => Js.startsWith "# Software:" line = false) lines ->
  Tsv.software_version (fold_left Tsv.metadataStep lines m) = Tsv.software_version m.
Proof.
  induction lines as [|line lines IH]; intros m Hall; [reflexivity|].
  inversion Hall as [|? ? Hline Hrest]; subst. cbn [fold_left].
  rewrite (IH _ Hrest). apply metadataStep_software_kept, Hline.
Qed.

(** X4. In [parseMetadata] the last header line that starts with
    [# Software:] decides the software version, which is the rest of that
    line, trimmed; earlier such lines are overwritten, and with no such
    line the version is the empty string. *)
Theorem parseMetadata_last_software_wins :
  (forall before line after,
     Js.startsWith "# Software:" line = true ->
     Forall (fun l => Js.startsWith "# Software:" l = false) after ->
     Tsv.software_version (Tsv.parseMetadata (before ++ line :: after))
     = Js.trim (Js.removeFirst "# Software:" line))
  /\ (forall lines,
        Forall (fun l => Js.startsWith "# Software:" l = false) lines ->
        Tsv.software_version (Tsv.parseMetadata lines) = EmptyString).
Proof.
  split.
  - intros before line after Hline Hafter. unfold Tsv.parseMetadata.
    rewrite fold_left_app. cbn [fold_left].
    rewrite (metadata_software_kept after _ Hafter).
    unfold Tsv.metadataStep. rewrite Hline. reflexivity.
  - intros lines Hall. unfold Tsv.parseMetadata.
    rewrite (metadata_software_kept lines _ Hall). reflexivity.
Qed.

Lemma parseMetadata_last_software_wins_witness :
  Tsv.software_version
    (Tsv.parseMetadata ["# Software: v1.8"; "# DOI: 10.1/x"; "# Software:  v1.9 "; "#Sequence Id"])
  = "v1.9".
Proof.
  refine (eq_trans
            (proj1 parseMetadata_last_software_wins
               ["# Software: v1.8"; "# DOI: 10.1/x"] "# Software:  v1.9 " ["#Sequence Id"]
               eq_refl _) eq_refl).
  repeat constructor.
Defined.

(** ** What the JSON importer never does *)










(** ** Importers that only add rows *)

(** Every table state of the session, visible or in the open transaction,
    is [V0] followed by more rows. *)
Definition extends (V0 : tables) (s : session) : Prop :=
  (exists e, visible s = V0 ++ e)
  /\ (forall T, pending s = Some T -> exists e, T = V0 ++ e).

(** A step that keeps and never changes the rows of any earlier state. *)
Definition addsOnly (s s' : session) : Prop := forall V0, extends V0 s -> extends V0 s'.

Lemma addsOnly_refl s : addsOnly s s.
Proof. intros V0 H. exact H. Qed.

Lemma addsOnly_trans s1 s2 s3 : addsOnly s1 s2 -> addsOnly s2 s3 -> addsOnly s1 s3.
Proof. intros H12 H23 V0 H. apply H23, H12, H. Qed.

Lemma addsOnly_plain {A} (m : M A) :
  (forall s, visible (snd (m s)) = visible s /\ pending (snd (m s)) = pending s) ->
  keeps addsOnly m.
Proof.
  intros H s V0 [Hv Hp]. destruct (H s) as [Ev Ep]. split.
  - rewrite Ev. exact Hv.
  - rewrite Ep. exact Hp.
Qed.

Lemma addsOnly_call faulty : keeps addsOnly (call faulty).
Proof.
  apply addsOnly_plain. intros s. unfold call. destruct (faulty _); split; reflexivity.
Qed.

Lemma addsOnly_insert t rs : keeps addsOnly (write (insertRows t rs)).
Proof.
  intros s V0 [[e Hv] Hp]. unfold write, insertRows.
  destruct (pending s) as [T|] eqn:E; cbn [snd visible pending].
  - split; [exists e; exact Hv|]. intros T' HT'. inversion HT'; subst T'.
    destruct (Hp T eq_refl) as [e' ->]. exists (e' ++ map (pair t) rs).
    symmetry. apply app_assoc.
  - split; [|discriminate]. exists (e ++ map (pair t) rs). rewrite Hv.
    symmetry. apply app_assoc.
Qed.

Lemma addsOnly_begin faulty : keeps addsOnly (sqlBegin faulty).
Proof.
  intros s V0 [Hv Hp]. unfold sqlBegin, bind, call, current.
  cbn [visible pending sequences catalog issued console].
  destruct (faulty _); cbn [snd visible pending]; [split; assumption|].
  split; [exact Hv|]. intros T HT. inversion HT; subst T.
  destruct (pending s) as [T|]; [apply Hp; reflexivity | exact Hv].
Qed.

Lemma addsOnly_commit faulty : keeps addsOnly (sqlCommit faulty).
Proof.
  intros s V0 [Hv Hp]. unfold sqlCommit, bind, call, current.
  cbn [visible pending sequences catalog issued console].
  destruct (faulty _); cbn [snd visible pending]; [split; assumption|].
  split; [|discriminate].
  destruct (pending s) as [T|]; [apply Hp; reflexivity | exact Hv].
Qed.

Lemma addsOnly_rollback : keeps addsOnly sqlRollback.
Proof. intros s V0 [Hv Hp]. split; [exact Hv | discriminate]. Qed.

Lemma addsOnly_sqliteRollback : keeps addsOnly sqliteRollback.
Proof.
  intros s V0 [Hv Hp]. unfold sqliteRollback, sqlRollback.
  destruct (pending s); (split; [exact Hv | discriminate]).
Qed.

Ltac addsOnly_tac :=
  repeat first
    [ apply (keeps_ret addsOnly addsOnly_refl)
    | apply (keeps_throw addsOnly addsOnly_refl)
    | apply addsOnly_call
    | apply addsOnly_insert
    | apply addsOnly_begin
    | apply addsOnly_commit
    | apply addsOnly_rollback
    | apply addsOnly_sqliteRollback
    | apply addsOnly_plain; intros ?; split; reflexivity
    | apply (keeps_bind addsOnly addsOnly_trans); [|intros ?]
    | apply (keeps_tryCatch addsOnly addsOnly_trans); [|intros ?]
    | apply (keeps_forM addsOnly addsOnly_refl addsOnly_trans); intros ?
    | apply (keeps_foldM addsOnly addsOnly_refl addsOnly_trans); intros ? ?
    | match goal with
      | |- keeps _ (if ?b then _ else _) => destruct b
      | |- keeps _ (match ?x with _ => _ end) => destruct x
      end ].

Lemma addsOnly_json_get x k : keeps addsOnly (Json.get x k).
Proof. unfold Json.get. destruct x; addsOnly_tac. Qed.

Lemma addsOnly_json_params x bindings : keeps addsOnly (Json.params x bindings).
Proof.
  induction bindings as [|[column k] rest IH]; cbn [Json.params]; [addsOnly_tac|].
  apply (keeps_bind addsOnly addsOnly_trans); [apply addsOnly_json_get|]. intros v.
  apply (keeps_bind addsOnly addsOnly_trans); [exact IH|]. intros r. addsOnly_tac.
Qed.

Lemma addsOnly_json_insertList faulty x k t oc ic owner :
  keeps addsOnly (Json.insertList faulty x k t oc ic owner).
Proof.
  unfold Json.insertList, sqlInsert.
  apply (keeps_bind addsOnly addsOnly_trans); [apply addsOnly_json_get|].
  intros l. addsOnly_tac.
Qed.

Lemma addsOnly_json_insertFeature faulty feature genomeId :
  keeps addsOnly (Json.insertFeature faulty feature genomeId).
Proof.
  unfold Json.insertFeature, sqlInsertKeyed, sqlInsert.
  repeat first
    [ apply addsOnly_json_get
    | apply addsOnly_json_params
    | apply addsOnly_json_insertList
    | apply (keeps_ret addsOnly addsOnly_refl)
    | apply addsOnly_call
    | apply addsOnly_insert
    | apply addsOnly_plain; intros ?; split; reflexivity
    | apply (keeps_bind addsOnly addsOnly_trans); [|intros ?]
    | match goal with
      | |- keeps _ (if ?b then _ else _) => destruct b
      | |- keeps _ (match ?x with _ => _ end) => destruct x
      end ].
Qed.

Lemma addsOnly_json_processFile faulty files filePath :
  keeps addsOnly (Json.processFile faulty files filePath).
Proof.
  unfold Json.processFile, connect, sqlInsertKeyed.
  apply (keeps_bind addsOnly addsOnly_trans); [addsOnly_tac|]. intros _.
  apply (keeps_tryCatch addsOnly addsOnly_trans); [|intros e; addsOnly_tac].
  apply (keeps_bind addsOnly addsOnly_trans); [destruct (files filePath); addsOnly_tac|].
  intros jsonData.
  apply (keeps_bind addsOnly addsOnly_trans); [apply addsOnly_json_get|]. intros features.
  destruct (if Json.truthy features then Json.asArray features else None);
    [|addsOnly_tac].
  apply (keeps_bind addsOnly addsOnly_trans); [addsOnly_tac|]. intros _.
  apply (keeps_tryCatch addsOnly addsOnly_trans); [|intros e; addsOnly_tac].
  cbv zeta. apply (keeps_bind addsOnly addsOnly_trans); [addsOnly_tac|]. intros genomeId.
  apply (keeps_bind addsOnly addsOnly_trans); [|intros _; addsOnly_tac].
  apply (keeps_forM addsOnly addsOnly_refl addsOnly_trans). intros feature.
  apply addsOnly_json_insertFeature.
Qed.

Lemma addsOnly_pg_processTsvFile faulty files filePath :
  keeps addsOnly (Tsv.Pg.processTsvFile faulty files filePath).
Proof.
  unfold Tsv.Pg.processTsvFile, Tsv.Pg.importTsv, Tsv.readFile, connect,
    sqlInsertKeyed, sqlInsert.
  addsOnly_tac.
Qed.

Lemma addsOnly_sqlite_processTsvFile faulty files filePath :
  keeps addsOnly (Tsv.Sqlite.processTsvFile faulty files filePath).
Proof.
  unfold Tsv.Sqlite.processTsvFile, Tsv.Sqlite.importTsv, Tsv.Sqlite.insertLine,
    Tsv.Sqlite.prepare, Tsv.Sqlite.finalize, Tsv.readFile, sqlInsertKeyed, sqlInsert.
  addsOnly_tac.
Qed.

Lemma extends_start s : pending s = None -> extends (visible s) s.
Proof.
  intros Hp. split; [exists []; symmetry; apply app_nil_r|].
  intros T HT. congruence.
Qed.

(** X6. The TSV importers and the JSON importer only ever insert: started
    with no open transaction, the import of a file, whatever fails in it,
    leaves every row that was visible before as it was and in its place,
    the rows visible afterwards being the earlier ones followed by new
    ones. *)
Theorem importers_only_add_rows (faulty : nat -> bool) (filePath : string) (s : session) :
  pending s = None ->
  (forall files,
     exists added,
       visible (snd (Tsv.Pg.processTsvFile faulty files filePath s)) = visible s ++ added)
  /\ (forall files,
        exists added,
          visible (snd (Tsv.Sqlite.processTsvFile faulty files filePath s))
          = visible s ++ added)
  /\ (forall files,
        exists added,
          visible (snd (Json.processFile faulty files filePath s)) = visible s ++ added).
Proof.
  intros Hp. pose proof (extends_start s Hp) as Hs.
  split; [|split]; intros files.
  - exact (proj1 (addsOnly_pg_processTsvFile faulty files filePath s _ Hs)).
  - exact (proj1 (addsOnly_sqlite_processTsvFile faulty files filePath s _ Hs)).
  - exact (proj1 (addsOnly_json_processFile faulty files filePath s _ Hs)).
Qed.

Lemma importers_only_add_rows_witness :
  let s := Session [("genomes", [("id", vnat 1); ("filename", VText "old.json")])]
             None (fun _ => 2) [] 0 [] in
  exists added,
    visible (snd (Json.processFile (fun k => k =? 2) oneFeature "data/a.json" s))
    = visible s ++ added.
Proof.
  exact (proj2 (proj2 (importers_only_add_rows (fun k => k =? 2) "data/a.json"
                         (Session [("genomes", [("id", vnat 1); ("filename", VText "old.json")])]
                            None (fun _ => 2) [] 0 [])
                         eq_refl))
           oneFeature).
Defined.

(** ** The folder loop of the GFF importer *)












(** ** The queue of features *)

Lemma bind_inv {A B} (m : M A) (k : A -> M B) s b s' :
  bind m k s = (Ok b, s') -> exists a s1, m s = (Ok a, s1) /\ k a s1 = (Ok b, s').
Proof.
  unfold bind. destruct (m s) as [[a|e|c] s1]; intros H; try discriminate.
  exists a, s1. split; [reflexivity | exact H].
Qed.

Lemma then_ret_inv {A B} (m : M A) (x : B) s y s' :
  (m ;; ret x) s = (Ok y, s') -> y = x.
Proof.
  intros H. apply bind_inv in H as (a & s1 & _ & H). inversion H. reflexivity.
Qed.

Lemma headerLine_queue faulty fileId st line s st' s' :
  Gff.headerLine faulty fileId st line s = (Ok st', s') ->
  Gff.batchValues st' = Gff.batchValues st.
Proof.
  unfold Gff.headerLine.
  repeat match goal with
         | |- (if ?b then _ else _) s = _ -> _ =>
             destruct b; [intros H; apply then_ret_inv in H; subst; reflexivity|]
         end.
  destruct (Js.startsWith "##sequence-region" line).
  { destruct (4 <=? _); intros H.
    - apply then_ret_inv in H. subst. reflexivity.
    - inversion H. reflexivity. }
  destruct (Js.startsWith "##species" line).
  { destruct (Gff.matchSpecies line); intros H.
    - apply bind_inv in H as (a & s1 & _ & H). apply then_ret_inv in H.
      subst. reflexivity.
    - inversion H. reflexivity. }
  intros H. inversion H. reflexivity.
Qed.

Lemma lineStep_queue faulty fileId st line s st' s' :
  length (Gff.batchValues st) < Gff.BATCH_SIZE ->
  Gff.lineStep faulty fileId st line s = (Ok st', s') ->
  length (Gff.batchValues st') < Gff.BATCH_SIZE.
Proof.
  intros Hlen H. unfold Gff.lineStep in H.
  apply bind_inv in H as ([] & s1 & _ & H).
  destruct (negb (Js.truthy (Js.trim line))).
  { inversion H. exact Hlen. }
  destruct (Js.startsWith "#" line).
  { apply headerLine_queue in H. rewrite H. exact Hlen. }
  cbv zeta in H. destruct (length (Js.split Gff.TAB line) <? 9).
  { inversion H. exact Hlen. }
  cbn [Gff.batchValues Gff.lineCount Gff.featureCount Gff.sequenceRegionCount] in H.
  destruct (Gff.BATCH_SIZE <=? _) eqn:E.
  - apply then_ret_inv in H. subst. unfold Gff.BATCH_SIZE. cbn [Gff.batchValues length]. lia.
  - inversion H. cbn [Gff.batchValues]. apply Nat.leb_gt, E.
Qed.

Lemma lines_queue faulty fileId lines : forall st s st' s',
  length (Gff.batchValues st) < Gff.BATCH_SIZE ->
  foldM (Gff.lineStep faulty fileId) lines st s = (Ok st', s') ->
  length (Gff.batchValues st') < Gff.BATCH_SIZE.
Proof.
  induction lines as [|line lines IH]; intros st s st' s' Hlen H.
  - inversion H. subst. exact Hlen.
  - cbn [foldM] in H. apply bind_inv in H as (st1 & s1 & H1 & H).
    exact (IH st1 s1 st' s' (lineStep_queue _ _ _ _ _ _ _ Hlen H1) H).
Qed.

(** X8. The queue of parsed features never reaches the batch size: after
    any number of lines, whatever the file holds and whichever statements
    fail, fewer than 1000 rows wait in [batchValues], so that neither an
    insertion in the loop nor the one after it carries more than 1000
    rows. *)
Theorem feature_queue_below_batch_size (faulty : nat -> bool) (fileId : value)
  (lines : list string) (s s' : session) (st' : Gff.loopVars) :
  foldM (Gff.lineStep faulty fileId) lines (Gff.LoopVars 0 0 0 []) s = (Ok st', s') ->
  length (Gff.batchValues st') < Gff.BATCH_SIZE
  /\ (forall line st'' s'',
        Gff.lineStep faulty fileId st' line s' = (Ok st'', s'') ->
        length (Gff.batchValues st'') < Gff.BATCH_SIZE).
Proof.
  intros H.
  assert (Hlen : length (Gff.batchValues st') < Gff.BATCH_SIZE).
  { apply (lines_queue faulty fileId lines (Gff.LoopVars 0 0 0 []) s st' s'); [|exact H].
    unfold Gff.BATCH_SIZE. cbn [Gff.batchValues length]. lia. }
  split; [exact Hlen|].
  intros line st'' s'' Hstep. exact (lineStep_queue _ _ _ _ _ _ _ Hlen Hstep).
Qed.

Lemma feature_queue_below_batch_size_witness :
  let run := foldM (Gff.lineStep (fun _ => false) (vnat 1)) newLines
               (Gff.LoopVars 0 0 0 []) knownFile in
  exists st' s', run = (Ok st', s') /\ length (Gff.batchValues st') < Gff.BATCH_SIZE.
Proof.
  pose (run := foldM (Gff.lineStep (fun _ => false) (vnat 1)) newLines
                 (Gff.LoopVars 0 0 0 []) knownFile).
  assert (Hrun : exists st', run = (Ok st', snd run)).
  { vm_compute. eexists. reflexivity. }
  destruct Hrun as [st' Hrun]. exists st', (snd run). split; [exact Hrun|].
  exact (proj1 (feature_queue_below_batch_size (fun _ => false) (vnat 1) newLines
                  knownFile (snd run) st' Hrun)).
Defined.

(** ** The connection after an import *)

(** A computation that, when it ends normally, leaves no transaction
    open. *)
Definition closes {A} (m : M A) : Prop :=
  forall s, match fst (m s) with
            | Ok _ => pending (snd (m s)) = None
            | _ => True
            end.

Lemma closes_bind {A B} (m : M A) (k : A -> M B) :
  (forall a, closes (k a)) -> closes (bind m k).
Proof.
  intros Hk s. unfold bind. destruct (m s) as [[a|e|c] s1]; cbn [fst]; auto.
  apply Hk.
Qed.

Lemma closes_commit {B} faulty (k : M B) :
  (forall s, pending (snd (k s)) = pending s) -> closes (sqlCommit faulty ;; k).
Proof.
  intros Hk s. unfold sqlCommit, bind, call.
  cbn [visible pending sequences catalog issued console].
  destruct (faulty _); cbn [fst]; [exact I|].
  match goal with |- context [k ?s1] =>
    specialize (Hk s1); destruct (k s1) as [[b|e|c] s2] end; cbn [fst snd] in *; auto.
Qed.

Lemma closes_gff_importGff faulty fileName filePath info :
  closes (Gff.importGff faulty fileName filePath info).
Proof.
  unfold Gff.importGff.
  apply closes_bind. intros _. apply closes_bind. intros fileId.
  apply closes_bind. intros st. apply closes_commit. intros s. reflexivity.
Qed.

Lemma closes_pg_importTsv faulty files filePath :
  closes (Tsv.Pg.importTsv faulty files filePath).
Proof.
  unfold Tsv.Pg.importTsv.
  apply closes_bind. intros _. apply closes_bind. intros fileContent.
  apply closes_bind. intros genomeId. apply closes_bind. intros _.
  apply closes_commit. intros s. reflexivity.
Qed.

Lemma closes_sqlite_importTsv faulty files filePath :
  closes (Tsv.Sqlite.importTsv faulty files filePath).
Proof.
  unfold Tsv.Sqlite.importTsv.
  apply closes_bind. intros fileContent. apply closes_bind. intros _.
  apply closes_bind. intros genomeId. apply closes_bind. intros _.
  apply closes_bind. intros _. apply closes_bind. intros _.
  apply closes_commit. intros s. reflexivity.
Qed.

Lemma returns_gff_importGff faulty fileName filePath info :
  returns (Gff.importGff faulty fileName filePath info).
Proof.
  unfold Gff.importGff, Gff.readLines, Gff.openFileRecord,
    Gff.lineStep, Gff.headerLine, Gff.setFileColumn, Gff.insertFeatureBatch,
    sqlBegin, sqlCommit, sqlSelect, sqlDelete, sqlUpdate, sqlInsert, sqlInsertKeyed.
  returns_tac.
Qed.

Lemma returns_pg_importTsv faulty files filePath :
  returns (Tsv.Pg.importTsv faulty files filePath).
Proof.
  unfold Tsv.Pg.importTsv, Tsv.readFile, sqlBegin, sqlCommit, sqlInsert, sqlInsertKeyed.
  returns_tac.
Qed.

Lemma returns_sqlite_importTsv faulty files filePath :
  returns (Tsv.Sqlite.importTsv faulty files filePath).
Proof.
  unfold Tsv.Sqlite.importTsv, Tsv.Sqlite.insertLine, Tsv.Sqlite.prepare,
    Tsv.Sqlite.finalize, Tsv.readFile, sqlBegin, sqlCommit, sqlInsert, sqlInsertKeyed.
  returns_tac.
Qed.

(** An import inside [try], with the handler that rolls back. *)
Lemma guarded_import_closes {A} (body : M A) (rollback : M unit) (h : error -> M A) s :
  closes body -> returns body ->
  (forall s1, pending (snd (rollback s1)) = None) ->
  (forall e s1, pending (snd (h e s1)) = pending s1) ->
  pending (snd (tryCatch body (fun e => rollback ;; h e) s)) = None.
Proof.
  intros Hclose Hret Hroll Hh. unfold tryCatch.
  specialize (Hclose s). specialize (Hret s).
  destruct (body s) as [[a|e|c] s1]; cbn [fst snd] in *.
  - exact Hclose.
  - unfold bind. specialize (Hroll s1).
    destruct (rollback s1) as [[[]|e'|c] s2]; cbn [snd] in *; try exact Hroll.
    rewrite Hh. exact Hroll.
  - exfalso. exact (Hret c eq_refl).
Qed.

(** X9. Every import of the GFF importer and of the TSV importers gives the
    connection back with no transaction open: started with none open, the
    import of a file ends with none open, whether it succeeds (COMMIT) or
    fails at any point (ROLLBACK in the handler). *)
Theorem import_leaves_no_transaction (faulty : nat -> bool) (filePath : string)
  (s : session) :
  pending s = None ->
  (forall files, pending (snd (Gff.processGffFile faulty files filePath s)) = None)
  /\ (forall files, pending (snd (Tsv.Pg.processTsvFile faulty files filePath s)) = None)
  /\ (forall files, pending (snd (Tsv.Sqlite.processTsvFile faulty files filePath s)) = None).
Proof.
  intros Hp. split; [|split]; intros files.
  - unfold Gff.processGffFile. unfold bind at 1.
    destruct (files filePath) as [info|]; cbn [throw ret snd]; [|exact Hp].
    unfold bind at 1. unfold say at 1. unfold bind at 1. unfold connect, call.
    cbn [visible pending sequences catalog issued console].
    destruct (faulty _); cbn [snd pending]; [exact Hp|].
    apply (guarded_import_closes (Gff.importGff faulty (basename filePath) filePath info)
             sqlRollback
             (fun err => say ConsoleError "Error processing GFF file:" [] ;; throw err)).
    + apply closes_gff_importGff.
    + apply returns_gff_importGff.
    + reflexivity.
    + reflexivity.
  - unfold Tsv.Pg.processTsvFile. unfold bind at 1. unfold say at 1.
    unfold bind at 1. unfold connect, call.
    cbn [visible pending sequences catalog issued console].
    destruct (faulty _); cbn [snd pending]; [exact Hp|].
    apply (guarded_import_closes (Tsv.Pg.importTsv faulty files filePath) sqlRollback
             (fun error =>
                say ConsoleError "Error processing file ${filePath}:" [VText filePath] ;;
                throw error)).
    + apply closes_pg_importTsv.
    + apply returns_pg_importTsv.
    + reflexivity.
    + reflexivity.
  - unfold Tsv.Sqlite.processTsvFile. unfold bind at 1. unfold say at 1.
    apply (guarded_import_closes (Tsv.Sqlite.importTsv faulty files filePath)
             sqliteRollback
             (fun error =>
                say ConsoleError "Error processing file ${filePath}:" [VText filePath] ;;
                throw error)).
    + apply closes_sqlite_importTsv.
    + apply returns_sqlite_importTsv.
    + intros s1. unfold sqliteRollback. destruct (pending s1); reflexivity.
    + reflexivity.
Qed.

Lemma import_leaves_no_transaction_witness :
  pending (snd (Tsv.Pg.processTsvFile (fun k => k =? 3) twoFiles "data/b.tsv" emptySession))
  = None
  /\ pending (snd (Tsv.Pg.processTsvFile (fun _ => false) twoFiles "data/b.tsv" emptySession))
     = None.
Proof.
  split.
  - exact (proj1 (proj2 (import_leaves_no_transaction (fun k => k =? 3) "data/b.tsv"
                           emptySession eq_refl)) twoFiles).
  - exact (proj1 (proj2 (import_leaves_no_transaction (fun _ => false) "data/b.tsv"
                           emptySession eq_refl)) twoFiles).
Defined.

(** ** Repeated attribute keys *)

Lemma setProperty_union k v o : setProperty k v o = setProperty k v ∅ ∪ o.
Proof.
  unfold setProperty. destruct (String.eqb k "__proto__").
  - symmetry. apply (left_id_L ∅ (∪)).
  - rewrite insert_empty. apply insert_union_singleton_l.
Qed.

(** What a token stores does not depend on the entries already there. *)
Lemma parsePair_union o t : parsePair o t = parsePair ∅ t ∪ o.
Proof.
  assert (Hid : o = ∅ ∪ o) by (symmetry; apply (left_id_L ∅ (∪))).
  unfold parsePair. destruct (negb _).
  - destruct (Js.split ":" t) as [|k [|v [|x l]]]; try exact Hid.
    apply setProperty_union.
  - destruct (Js.split "=" t) as [|key [|value l]]; try exact Hid.
    destruct (Js.truthy key && Js.truthy value); [apply setProperty_union | exact Hid].
Qed.

Lemma parsePairs_last before t after o k v :
  parsePair ∅ t !! k = Some v ->
  Forall (fun t' => parsePair ∅ t' !! k = None) after ->
  fold_left parsePair (before ++ t :: after) o !! k = Some v.
Proof.
  intros Ht Hafter. rewrite fold_left_app. cbn [fold_left].
  assert (H1 : parsePair (fold_left parsePair before o) t !! k = Some v).
  { rewrite parsePair_union. apply lookup_union_Some_l, Ht. }
  revert H1. generalize (parsePair (fold_left parsePair before o) t). clear Ht.
  induction Hafter as [|t' after Hnone _ IH]; intros o1 H1; [exact H1|].
  cbn [fold_left]. apply IH. rewrite parsePair_union, lookup_union_r; assumption.
Qed.

Lemma parsePairs_origin tokens : forall o k v,
  fold_left parsePair tokens o !! k = Some v ->
  o !! k = Some v \/ exists t, In t tokens /\ parsePair ∅ t !! k = Some v.
Proof.
  induction tokens as [|t tokens IH]; intros o k v H; [left; exact H|].
  cbn [fold_left] in H. destruct (IH _ _ _ H) as [H1|(t' & Hin & Ht')].
  - rewrite parsePair_union in H1. apply lookup_union_Some_raw in H1.
    destruct H1 as [H1|[_ H1]]; [|left; exact H1].
    right. exists t. split; [left; reflexivity | exact H1].
  - right. exists t'. split; [right; exact Hin | exact Ht'].
Qed.

(** X10. The attribute parser on any ninth column: every entry of the
    object comes from one of the [';']-separated tokens, and when several
    tokens give the same key the last of them decides the value. *)
Theorem attribute_last_token_wins (attributesStr k v : string) :
  (forall before t after,
     Js.split ";" attributesStr = before ++ t :: after ->
     parsePair ∅ t !! k = Some v ->
     Forall (fun t' => parsePair ∅ t' !! k = None) after ->
     parseAttributes attributesStr !! k = Some v)
  /\ (parseAttributes attributesStr !! k = Some v ->
      exists t, In t (Js.split ";" attributesStr) /\ parsePair ∅ t !! k = Some v).
Proof.
  split.
  - intros before t after Hsplit Ht Hafter. unfold parseAttributes.
    destruct attributesStr as [|c r].
    + exfalso. cbn in Hsplit.
      destruct before as [|b [|b' before]]; try discriminate Hsplit.
      injection Hsplit as <- <-. vm_compute in Ht. discriminate Ht.
    + cbn [Js.truthy]. rewrite Hsplit. apply parsePairs_last; assumption.
  - unfold parseAttributes. destruct (Js.truthy attributesStr).
    + intros H. destruct (parsePairs_origin _ _ _ _ H) as [H0|H0]; [|exact H0].
      rewrite lookup_empty in H0. discriminate H0.
    + rewrite lookup_empty. discriminate.
Qed.

Lemma attribute_last_token_wins_witness :
  parseAttributes "ID=a;Name=x;ID=b" !! "ID" = Some "b".
Proof.
  apply (proj1 (attribute_last_token_wins "ID=a;Name=x;ID=b" "ID" "b")
           ["ID=a"; "Name=x"] "ID=b" []).
  - vm_compute. reflexivity.
  - vm_compute. reflexivity.
  - constructor.
Defined.

(** ** The first import of a GFF file *)

(** X11. In the GFF importer, when no record of [gff_files] has the file's
    name and no statement fails, the import creates one record, returns its
    generated id, and adds under that id exactly the rows parsed from the
    file, in its order, after whatever rows the table already held under
    that id. *)
Theorem gff_first_import_adds_record (faulty : nat -> bool) (files : Gff.disk)
  (filePath : string) (info : Gff.fileInfo) (lines : list string) (s : session) :
  (forall k, faulty k = false) ->
  files filePath = Some info ->
  Gff.file_lines info = Some lines ->
  pending s = None ->
  selectRows "gff_files" (named (basename filePath)) (visible s) = [] ->
  let fileId := vnat (sequences s "gff_files") in
  exists s',
    Gff.processGffFile faulty files filePath s = (Ok fileId, s')
    /\ pending s' = None
    /\ featuresOf fileId (visible s')
       = featuresOf fileId (visible s) ++ fileFeatures fileId lines
    /\ length (fileRecords (visible s')) = S (length (fileRecords (visible s))).
Proof.
  intros Hff Hfiles Hlines Hp Hsel fileId.
  destruct (importGff_insert faulty Hff (basename filePath) filePath info lines
              (Session (visible s) (pending s) (sequences s) (catalog s) (S (issued s))
                 (console s
                  ++ [LogLine ConsoleLog
                        "Processing file: ${fileName} (${(fileSize / 1024 / 1024).toFixed(2)} MB)"
                        [VText (basename filePath); vnat (Gff.file_size info)]]))
              Hp Hsel Hlines)
    as (s' & nLines & nRegions & Hrun & Hp' & Hf & Hn & _).
  exists s'. split; [|repeat split; assumption].
  apply (processGffFile_ok faulty files filePath info); [apply Hff | exact Hfiles | exact Hrun].
Qed.

Lemma gff_first_import_adds_record_witness :
  exists s',
    Gff.processGffFile (fun _ => false) newContent "data/a.gff" emptySession
    = (Ok (vnat 1), s')
    /\ pending s' = None
    /\ featuresOf (vnat 1) (visible s') = [] ++ fileFeatures (vnat 1) newLines
    /\ length (fileRecords (visible s')) = 1.
Proof.
  exact (gff_first_import_adds_record (fun _ => false) newContent "data/a.gff"
           (Gff.FileInfo 64 (Some newLines)) newLines emptySession
           (fun _ => eq_refl) eq_refl eq_refl eq_refl eq_refl).
Defined.

(** ** What the TSV importers print and store *)

Lemma filter_all {A} (p : A -> bool) (l : list A) :
  length (List.filter p l) <= length l
  /\ (length (List.filter p l) = length l <-> forallb p l = true).
Proof.
  induction l as [|x l [IHle IHiff]]; [cbn; split; [lia | tauto]|].
  cbn [List.filter forallb length]. destruct (p x); cbn [length andb].
  - split; [lia|]. rewrite <- IHiff. split; lia.
  - split; [lia|]. split; [lia | discriminate].
Qed.

(** X12. With no failure, the number each TSV importer prints after
    [Imported] is the number of lines that do not start with [#] and are
    not blank; the annotation rows it stored are never more, and are as
    many exactly when every such line holds 8 tab-separated columns or
    more. *)
Theorem tsv_printed_count_bounds_rows (faulty : nat -> bool) (files : Tsv.disk)
  (filePath text : string) (s : session) :
  (forall k, faulty k = false) ->
  files filePath = Some text ->
  pending s = None ->
  let printed := length (dataLinesOf text) in
  let announced :=
    [ processingLine filePath;
      LogLine ConsoleLog "Imported ${dataLines.length} annotations from ${fileName}"
        [vnat printed; VText (basename filePath)] ] in
  (exists s' rows,
     Tsv.Pg.processTsvFile faulty files filePath s = (Ok tt, s')
     /\ console s' = console s ++ announced
     /\ selectRows "annotations" (fun _ => true) (visible s')
        = selectRows "annotations" (fun _ => true) (visible s) ++ rows
     /\ length rows <= printed
     /\ (length rows = printed <-> forallb isWide (dataLinesOf text) = true))
  /\ (exists s' rows,
        Tsv.Sqlite.processTsvFile faulty files filePath s = (Ok tt, s')
        /\ console s' = console s ++ announced
        /\ selectRows "annotations" (fun _ => true) (visible s')
           = selectRows "annotations" (fun _ => true) (visible s) ++ rows
        /\ length rows <= printed
        /\ (length rows = printed <-> forallb isWide (dataLinesOf text) = true)).
Proof.
  intros Hff Hfile Hp printed announced.
  assert (Hsel : forall T g rows,
            selectRows "annotations" (fun _ => true)
              (T ++ [genomeEntry g filePath text] ++ tagged "annotations" rows)
            = selectRows "annotations" (fun _ => true) T ++ rows).
  { intros T g rows. rewrite !selectRows_app. unfold tagged.
    rewrite selectRows_tagged. cbn. f_equal.
    induction rows as [|r rows IH]; [reflexivity|]. cbn. f_equal. exact IH. }
  assert (Hlen : forall dbxrefs g,
            length (annotationRows dbxrefs g (dataLinesOf text)) <= printed
            /\ (length (annotationRows dbxrefs g (dataLinesOf text)) = printed
                <-> forallb isWide (dataLinesOf text) = true)).
  { intros dbxrefs g. unfold annotationRows. rewrite length_map. apply filter_all. }
  split.
  - destruct (pg_processTsvFile_ok faulty files filePath text s Hff Hfile Hp)
      as (s' & Hrun & _ & Hv & Hc).
    exists s', (annotationRows Tsv.pgDbxrefs (vnat (sequences s "genomes")) (dataLinesOf text)).
    split; [exact Hrun|]. split; [exact Hc|]. split; [rewrite Hv; apply Hsel|]. apply Hlen.
  - destruct (sqlite_processTsvFile_ok faulty files filePath text s Hff Hfile Hp)
      as (s' & Hrun & _ & Hv & Hc).
    exists s', (annotationRows Tsv.sqliteDbxrefs (vnat (sequences s "genomes"))
                  (dataLinesOf text)).
    split; [exact Hrun|]. split; [exact Hc|]. split; [rewrite Hv; apply Hsel|]. apply Hlen.
Qed.

Lemma tsv_printed_count_bounds_rows_witness :
  exists s' rows,
    Tsv.Pg.processTsvFile (fun _ => false) twoFiles "data/b.tsv" emptySession = (Ok tt, s')
    /\ console s'
       = [ processingLine "data/b.tsv";
           LogLine ConsoleLog "Imported ${dataLines.length} annotations from ${fileName}"
             [vnat 1; VText "b.tsv"] ]
    /\ selectRows "annotations" (fun _ => true) (visible s') = rows
    /\ length rows <= 1
    /\ (length rows = 1
        <-> forallb isWide
              (dataLinesOf (tabbed ["c1"; "cds"; "1"; "9"; "+"; "L1"; "geneA"; "prod"]))
            = true).
Proof.
  exact (proj1 (tsv_printed_count_bounds_rows (fun _ => false) twoFiles "data/b.tsv"
                  (tabbed ["c1"; "cds"; "1"; "9"; "+"; "L1"; "geneA"; "prod"])
                  emptySession (fun _ => eq_refl) eq_refl eq_refl)).
Defined.

(** ** The two TSV importers side by side *)

(** The ninth column as SQLite stores it, from the array PostgreSQL
    stores: [JSON.stringify] of the array, NULL for NULL. *)
Definition stringified (v : value) : value :=
  match v with
  | VTexts l => VJson (JArr (map JStr l))
  | _ => v
  end.

Lemma sqliteDbxrefs_stringified parts :
  Tsv.sqliteDbxrefs parts = stringified (Tsv.pgDbxrefs parts).
Proof.
  unfold Tsv.sqliteDbxrefs, Tsv.pgDbxrefs. destruct (Tsv.dbxrefsOf parts); reflexivity.
Qed.

Lemma annotationRows_stringified genomeId dataLines :
  annotationRows Tsv.sqliteDbxrefs genomeId dataLines
  = map (fun r => setCol "dbxrefs" (stringified (col "dbxrefs" r)) r)
      (annotationRows Tsv.pgDbxrefs genomeId dataLines).
Proof.
  unfold annotationRows. rewrite map_map. apply map_ext. intros line.
  cbv zeta. rewrite sqliteDbxrefs_stringified. reflexivity.
Qed.

(** X13. With no failure, the PostgreSQL importer and the SQLite importer
    started on the same file and the same rows store the same genome row
    and, line for line, the same annotation rows, but for the column
    [dbxrefs]: where the first stores an array the second stores that
    array as JSON text. *)
Theorem tsv_importers_agree (faulty : nat -> bool) (files : Tsv.disk)
  (filePath text : string) (s : session) :
  (forall k, faulty k = false) ->
  files filePath = Some text ->
  pending s = None ->
  exists sPg sSqlite genome rows,
    Tsv.Pg.processTsvFile faulty files filePath s = (Ok tt, sPg)
    /\ Tsv.Sqlite.processTsvFile faulty files filePath s = (Ok tt, sSqlite)
    /\ visible sPg = visible s ++ [("genomes", genome)] ++ tagged "annotations" rows
    /\ visible sSqlite
       = visible s ++ [("genomes", genome)]
         ++ tagged "annotations"
              (map (fun r => setCol "dbxrefs" (stringified (col "dbxrefs" r)) r) rows).
Proof.
  intros Hff Hfile Hp.
  destruct (pg_processTsvFile_ok faulty files filePath text s Hff Hfile Hp)
    as (sPg & HrunPg & _ & HvPg & _).
  destruct (sqlite_processTsvFile_ok faulty files filePath text s Hff Hfile Hp)
    as (sSqlite & HrunSqlite & _ & HvSqlite & _).
  exists sPg, sSqlite,
    (snd (genomeEntry (vnat (sequences s "genomes")) filePath text)),
    (annotationRows Tsv.pgDbxrefs (vnat (sequences s "genomes")) (dataLinesOf text)).
  split; [exact HrunPg|]. split; [exact HrunSqlite|]. split; [exact HvPg|].
  rewrite HvSqlite, annotationRows_stringified. reflexivity.
Qed.

(** A file with one annotation that has two cross references. *)
Definition crossReferenced : Tsv.disk :=
  fun p =>
    if String.eqb p "data/x.tsv"
    then Some (tabbed ["c1"; "cds"; "1"; "9"; "+"; "L1"; "geneA"; "prod"; "GO:1, EC:2"])
    else None.

Lemma tsv_importers_agree_witness :
  exists sPg sSqlite genome rows,
    Tsv.Pg.processTsvFile (fun _ => false) crossReferenced "data/x.tsv" emptySession
    = (Ok tt, sPg)
    /\ Tsv.Sqlite.processTsvFile (fun _ => false) crossReferenced "data/x.tsv" emptySession
       = (Ok tt, sSqlite)
    /\ visible sPg = [] ++ [("genomes", genome)] ++ tagged "annotations" rows
    /\ visible sSqlite
       = [] ++ [("genomes", genome)]
         ++ tagged "annotations"
              (map (fun r => setCol "dbxrefs" (stringified (col "dbxrefs" r)) r) rows).
Proof.
  exact (tsv_importers_agree (fun _ => false) crossReferenced "data/x.tsv"
           (tabbed ["c1"; "cds"; "1"; "9"; "+"; "L1"; "geneA"; "prod"; "GO:1, EC:2"])
           emptySession (fun _ => eq_refl) eq_refl eq_refl).
Defined.

(** ** Which names the GFF importer takes for GFF files *)

Lemma append_assoc (a b c : string) : (a +:+ b) +:+ c = a +:+ (b +:+ c).
Proof.
  induction a as [|x a IH]; [reflexivity|].
  change ((String x a +:+ b) +:+ c) with (String x ((a +:+ b) +:+ c)).
  rewrite IH. reflexivity.
Qed.

Lemma rev_acc_app s : forall acc, Js.rev_acc s acc = Js.rev_acc s EmptyString +:+ acc.
Proof.
  induction s as [|c s IH]; intros acc; [reflexivity|].
  cbn [Js.rev_acc]. rewrite IH, (IH (String c EmptyString)).
  rewrite append_assoc. reflexivity.
Qed.

Lemma rev_append a b : Js.rev (a +:+ b) = Js.rev b +:+ Js.rev a.
Proof.
  unfold Js.rev. induction a as [|c a IH].
  - change (EmptyString +:+ b) with b. cbn [Js.rev_acc].
    induction (Js.rev_acc b EmptyString) as [|d r IHr]; [reflexivity|].
    change (String d r +:+ EmptyString) with (String d (r +:+ EmptyString)).
    rewrite <- IHr. reflexivity.
  - change (String c a +:+ b) with (String c (a +:+ b)). cbn [Js.rev_acc].
    rewrite rev_acc_app, IH, (rev_acc_app a (String c EmptyString)).
    apply append_assoc.
Qed.

Lemma prefix_append p s : String.prefix p (p +:+ s) = true.
Proof.
  induction p as [|c p IH]; [destruct s; reflexivity|].
  change (String c p +:+ s) with (String c (p +:+ s)). cbn [String.prefix].
  destruct (ascii_dec c c); [exact IH | congruence].
Qed.

Lemma endsWith_append name ext : Js.endsWith ext (name +:+ ext) = true.
Proof. unfold Js.endsWith. rewrite rev_append. apply prefix_append. Qed.

Lemma toLowerCase_append a b :
  Js.toLowerCase (a +:+ b) = Js.toLowerCase a +:+ Js.toLowerCase b.
Proof.
  induction a as [|c a IH]; [reflexivity|].
  change (String c a +:+ b) with (String c (a +:+ b)). cbn [Js.toLowerCase].
  rewrite IH. reflexivity.
Qed.

Lemma lowerChar_twice c : Js.lowerChar (Js.lowerChar c) = Js.lowerChar c.
Proof. destruct c as [[] [] [] [] [] [] [] []]; vm_compute; reflexivity. Qed.

Lemma toLowerCase_twice s : Js.toLowerCase (Js.toLowerCase s) = Js.toLowerCase s.
Proof.
  induction s as [|c s IH]; [reflexivity|].
  cbn [Js.toLowerCase]. rewrite lowerChar_twice, IH. reflexivity.
Qed.

(** X14. The GFF importer takes a name for a GFF file whatever the case of
    its letters: a name and the same name in lower case are judged alike,
    and every name that ends in [.gff] or [.gff3] written in any mix of
    upper and lower case is taken. *)
Theorem isGffFile_any_case (name ext : string) :
  Gff.isGffFile (Js.toLowerCase name) = Gff.isGffFile name
  /\ (Js.toLowerCase ext = ".gff" \/ Js.toLowerCase ext = ".gff3" ->
      Gff.isGffFile (name +:+ ext) = true).
Proof.
  split.
  - unfold Gff.isGffFile. cbv zeta. rewrite toLowerCase_twice. reflexivity.
  - intros Hext. unfold Gff.isGffFile. cbv zeta. rewrite toLowerCase_append.
    destruct Hext as [-> | ->]; rewrite endsWith_append.
    + reflexivity.
    + apply orb_true_r.
Qed.

Lemma isGffFile_any_case_witness :
  Gff.isGffFile "Sample.GfF3" = true.
Proof.
  exact (proj2 (isGffFile_any_case "Sample" ".GfF3") (or_intror eq_refl)).
Defined.

(** ** A JSON import in which nothing fails *)

Definition rowsIn (t : string) (s : session) : nat :=
  length (selectRows t (fun _ => true) (visible s)).

(** A computation that, outside a transaction, ends normally, stays
    outside a transaction, adds [n] rows to [features] and none to
    [genomes]. *)
Definition stores {A} (n : nat) (m : M A) : Prop :=
  forall s, pending s = None ->
    exists a s', m s = (Ok a, s')
      /\ pending s' = None
      /\ rowsIn "features" s' = n + rowsIn "features" s
      /\ rowsIn "genomes" s' = rowsIn "genomes" s.

Lemma stores_ret {A} (a : A) : stores 0 (ret a).
Proof. intros s Hp. exists a, s. auto. Qed.

Lemma stores_bind {A B} n n' N (m : M A) (k : A -> M B) :
  stores n m -> (forall a, stores n' (k a)) -> n + n' = N -> stores N (bind m k).
Proof.
  intros Hm Hk <- s Hp. destruct (Hm s Hp) as (a & s1 & Hrun & Hp1 & Hf1 & Hg1).
  destruct (Hk a s1 Hp1) as (b & s2 & Hrun2 & Hp2 & Hf2 & Hg2).
  exists b, s2. unfold bind. rewrite Hrun. split; [exact Hrun2|].
  split; [exact Hp2|]. split; lia.
Qed.

Lemma stores_forM {A} n (l : list A) (f : A -> M unit) :
  Forall (fun x => stores n (f x)) l -> stores (length l * n) (forM l f).
Proof.
  induction 1 as [|x l Hx _ IH]; [apply stores_ret|].
  cbn [forM length]. eapply stores_bind; [exact Hx | intros _; exact IH | reflexivity].
Qed.

Lemma stores_get x k : x <> JNull -> stores 0 (Json.get x k).
Proof.
  intros Hx s Hp. destruct x; try contradiction; cbn [Json.get]; eexists _, s; auto.
Qed.

Lemma stores_params x bindings : x <> JNull -> stores 0 (Json.params x bindings).
Proof.
  intros Hx. induction bindings as [|[column k] rest IH]; [apply stores_ret|].
  cbn [Json.params].
  eapply stores_bind; [apply stores_get, Hx| |reflexivity]. intros v.
  eapply stores_bind; [exact IH| |reflexivity]. intros r. apply stores_ret.
Qed.

Section FaultFreeJson.

Variable faulty : nat -> bool.
Hypothesis fault_free : forall k, faulty k = false.

Lemma rowsIn_insert t t' rs T :
  length (selectRows t (fun _ => true) (insertRows t' rs T))
  = (if String.eqb t' t then length rs else 0) + length (selectRows t (fun _ => true) T).
Proof.
  unfold insertRows. rewrite selectRows_app, selectRows_tagged, length_app.
  destruct (String.eqb t' t); cbn [length]; [|lia].
  assert (H : List.filter (fun _ : row => true) rs = rs).
  { induction rs as [|r rs' IH]; [reflexivity|]. cbn. f_equal. exact IH. }
  rewrite H. lia.
Qed.

Lemma stores_sqlInsert t rs :
  String.eqb t "features" = false -> String.eqb t "genomes" = false ->
  stores 0 (sqlInsert faulty t rs).
Proof.
  intros Hf Hg [T p seqs cat k out] Hp. cbn in Hp. subst p.
  unfold sqlInsert, bind, call, write, rowsIn.
  cbn [visible pending sequences catalog issued console]. rewrite fault_free.
  eexists tt, _. split; [reflexivity|]. cbn [visible pending].
  split; [reflexivity|]. rewrite !rowsIn_insert, Hf, Hg. split; reflexivity.
Qed.

Lemma stores_sqlInsertKeyed t key r :
  String.eqb t "genomes" = false ->
  stores (if String.eqb t "features" then 1 else 0) (sqlInsertKeyed faulty t key r).
Proof.
  intros Hg [T p seqs cat k out] Hp. cbn in Hp. subst p.
  unfold sqlInsertKeyed, bind, call, write, nextval, ret, rowsIn.
  cbn [visible pending sequences catalog issued console]. rewrite fault_free.
  cbn [visible pending sequences catalog issued console].
  eexists _, _. split; [reflexivity|]. cbn [visible pending].
  split; [reflexivity|]. rewrite !rowsIn_insert, Hg. cbn [length]. split; reflexivity.
Qed.

Lemma stores_insertList x k t ownerColumn itemColumn owner :
  x <> JNull ->
  String.eqb t "features" = false -> String.eqb t "genomes" = false ->
  stores 0 (Json.insertList faulty x k t ownerColumn itemColumn owner).
Proof.
  intros Hx Hf Hg. unfold Json.insertList.
  eapply stores_bind; [apply stores_get, Hx| |reflexivity]. intros l.
  destruct (Json.asArray l) as [items|]; [|apply stores_ret].
  replace 0 with (length items * 0) by lia.
  apply stores_forM. apply Forall_forall. intros item _.
  apply stores_sqlInsert; assumption.
Qed.

(** A property that is truthy is not [null]. *)
Lemma truthy_not_null x : Json.truthy (Some x) = true -> x <> JNull.
Proof. intros H ->. discriminate H. Qed.

Lemma stores_then {A B} N (m : M A) (k : A -> M B) :
  stores 0 m -> (forall a, stores N (k a)) -> stores N (bind m k).
Proof. intros Hm Hk. exact (stores_bind 0 N N m k Hm Hk eq_refl). Qed.

Ltac stores_seq := apply stores_then; [ | intros ? ].

Lemma stores_insertFeature feature genomeId :
  feature <> JNull -> stores 1 (Json.insertFeature faulty feature genomeId).
Proof.
  intros Hx. unfold Json.insertFeature.
  stores_seq; [apply stores_params, Hx|].
  apply (stores_bind 1 0 1); [apply (stores_sqlInsertKeyed "features"); reflexivity
                             | intros featureId | reflexivity].
  stores_seq; [apply stores_insertList; [exact Hx | reflexivity | reflexivity]|].
  stores_seq; [apply stores_insertList; [exact Hx | reflexivity | reflexivity]|].
  stores_seq; [apply stores_get, Hx|].
  stores_seq.
  { match goal with |- stores _ (match ?o with _ => _ end) => destruct o as [u|] end;
      [|apply stores_ret].
    destruct (Json.truthy (Some u)) eqn:Ht; [|apply stores_ret].
    apply truthy_not_null in Ht.
    stores_seq; [apply stores_params, Ht|].
    stores_seq; [apply (stores_sqlInsertKeyed "ups"); reflexivity|].
    apply stores_insertList; [exact Ht | reflexivity | reflexivity]. }
  stores_seq; [apply stores_get, Hx|].
  stores_seq.
  { match goal with |- stores _ (match ?o with _ => _ end) => destruct o as [u|] end;
      [|apply stores_ret].
    destruct (Json.truthy (Some u)) eqn:Ht; [|apply stores_ret].
    apply truthy_not_null in Ht.
    stores_seq; [apply stores_params, Ht|].
    apply stores_sqlInsert; reflexivity. }
  stores_seq; [apply stores_get, Hx|].
  stores_seq.
  { match goal with |- stores _ (match ?o with _ => _ end) => destruct o as [u|] end;
      [|apply stores_ret].
    destruct (Json.truthy (Some u)) eqn:Ht; [|apply stores_ret].
    apply truthy_not_null in Ht.
    stores_seq; [apply stores_params, Ht|].
    stores_seq; [apply (stores_sqlInsertKeyed "psc"); reflexivity|].
    stores_seq; [apply stores_insertList; [exact Ht | reflexivity | reflexivity]|].
    apply stores_insertList; [exact Ht | reflexivity | reflexivity]. }
  stores_seq; [apply stores_get, Hx|].
  match goal with |- stores _ (match ?o with _ => _ end) => destruct o as [u|] end;
    [|apply stores_ret].
  destruct (Json.truthy (Some u)) eqn:Ht; [|apply stores_ret].
  apply truthy_not_null in Ht.
  stores_seq; [apply stores_params, Ht|].
  stores_seq; [apply (stores_sqlInsertKeyed "pscc"); reflexivity|].
  apply stores_insertList; [exact Ht | reflexivity | reflexivity].
Qed.

Lemma json_processFile_run (files : Json.disk) filePath fields items s :
  files filePath = Some (JObj fields) ->
  Json.field "features" fields = Some (JArr items) ->
  Forall (fun feature => feature <> JNull) items ->
  pending s = None ->
  exists s',
    Json.processFile faulty files filePath s = (Ok tt, s')
    /\ pending s' = None
    /\ rowsIn "features" s' = length items + rowsIn "features" s
    /\ rowsIn "genomes" s' = S (rowsIn "genomes" s)
    /\ exists earlier,
         console s'
         = earlier
           ++ [LogLine ConsoleLog
                 "Successfully imported ${jsonData.features.length} features from ${filePath}"
                 [vnat (length items); VText filePath]].
Proof.
  intros Hfile Hfeatures Hitems Hp. destruct s as [T p seqs cat k out].
  cbn in Hp. subst p.
  unfold Json.processFile. rewrite Hfile.
  unfold bind at 1. unfold say at 1. unfold tryCatch at 1.
  unfold bind at 1. unfold ret at 1. unfold bind at 1. cbn [Json.get].
  unfold ret at 1. rewrite Hfeatures. cbn [Json.truthy Json.asArray].
  unfold bind at 1. unfold connect, call.
  cbn [visible pending sequences catalog issued console]. rewrite fault_free.
  unfold tryCatch at 1. unfold bind at 1. unfold sqlInsertKeyed at 1.
  unfold bind at 1. unfold call.
  cbn [visible pending sequences catalog issued console]. rewrite fault_free.
  unfold bind at 1. unfold nextval at 1.
  cbn [visible pending sequences catalog issued console].
  unfold bind at 1. unfold write at 1.
  cbn [visible pending sequences catalog issued console].
  unfold ret at 1.
  match goal with |- context [forM items ?f] =>
    assert (Hloop : stores (length items * 1) (forM items f))
  end.
  { apply stores_forM. eapply Forall_impl; [exact Hitems|].
    intros feature Hx. apply stores_insertFeature, Hx. }
  match goal with |- context [bind (forM items ?f) ?k ?s1] =>
    destruct (Hloop s1 eq_refl) as ([] & s2 & Hrun & Hp2 & Hf2 & Hg2);
    unfold bind at 1; rewrite Hrun
  end.
  unfold say. eexists. split; [reflexivity|]. cbn [visible pending console].
  split; [exact Hp2|].
  unfold rowsIn in *. cbn [visible] in *. rewrite rowsIn_insert in Hf2, Hg2.
  cbn in Hf2, Hg2. split; [lia|]. split; [lia|].
  exists (console s2). reflexivity.
Qed.

End FaultFreeJson.

(** X15. In the JSON importer, when the document is an object whose
    [features] is an array with no [null] in it and no statement fails,
    the import of the file ends normally, adds one genome row and one
    feature row per entry of the array, whatever else the entries hold,
    and its last log line reports that number of features. *)
Theorem json_import_stores_every_feature (faulty : nat -> bool) (files : Json.disk)
  (filePath : string) (fields : list (string * json)) (items : list json)
  (s : session) :
  (forall k, faulty k = false) ->
  files filePath = Some (JObj fields) ->
  Json.field "features" fields = Some (JArr items) ->
  Forall (fun feature => feature <> JNull) items ->
  pending s = None ->
  exists s',
    Json.processFile faulty files filePath s = (Ok tt, s')
    /\ rowsIn "features" s' = length items + rowsIn "features" s
    /\ rowsIn "genomes" s' = S (rowsIn "genomes" s)
    /\ exists earlier,
         console s'
         = earlier
           ++ [LogLine ConsoleLog
                 "Successfully imported ${jsonData.features.length} features from ${filePath}"
                 [vnat (length items); VText filePath]].
Proof.
  intros Hff Hfile Hfeatures Hitems Hp.
  destruct (json_processFile_run faulty Hff files filePath fields items s
              Hfile Hfeatures Hitems Hp) as (s' & Hrun & _ & Hf & Hg & Hlog).
  exists s'. auto.
Qed.

Lemma json_import_stores_every_feature_witness :
  exists s',
    Json.processFile (fun _ => false) oneFeature "data/a.json" emptySession = (Ok tt, s')
    /\ rowsIn "features" s' = 1 + 0
    /\ rowsIn "genomes" s' = 1
    /\ exists earlier,
         console s'
         = earlier
           ++ [LogLine ConsoleLog
                 "Successfully imported ${jsonData.features.length} features from ${filePath}"
                 [vnat 1; VText "data/a.json"]].
Proof.
  assert (Hitems : Forall (fun feature => feature <> JNull)
                     [JObj [("id", JStr "f1"); ("type", JStr "cds")]]).
  { repeat constructor. discriminate. }
  exact (json_import_stores_every_feature (fun _ => false) oneFeature "data/a.json"
           [("features", JArr [JObj [("id", JStr "f1"); ("type", JStr "cds")]])]
           [JObj [("id", JStr "f1"); ("type", JStr "cds")]]
           emptySession (fun _ => eq_refl) eq_refl eq_refl Hitems eq_refl).
Defined.

(** ** The rows of the other files *)

(** The features and the file records held under the id [other]. *)
Definition rowsOf (other : value) (T : tables) : list row * list row :=
  (selectRows "gff_features" (Gff.ownedBy other) T,
   selectRows "gff_files" (Gff.ownedBy other) T).

(** A step that leaves them as they are, as the connection sees them. *)
Definition othersKept (other : value) (s s' : session) : Prop :=
  rowsOf other (current s') = rowsOf other (current s).

Lemma othersKept_refl other s : othersKept other s s.
Proof. reflexivity. Qed.

Lemma othersKept_trans other s1 s2 s3 :
  othersKept other s1 s2 -> othersKept other s2 s3 -> othersKept other s1 s3.
Proof. unfold othersKept. congruence. Qed.

Lemma othersKept_plain other {A} (m : M A) :
  (forall s, visible (snd (m s)) = visible s /\ pending (snd (m s)) = pending s) ->
  keeps (othersKept other) m.
Proof.
  intros H s. destruct (H s) as [Hv Hp]. unfold othersKept, current.
  rewrite Hv, Hp. reflexivity.
Qed.

Lemma othersKept_call other faulty : keeps (othersKept other) (call faulty).
Proof.
  apply othersKept_plain. intros s. unfold call. destruct (faulty _); split; reflexivity.
Qed.

Lemma othersKept_write other f :
  (forall T, rowsOf other (f T) = rowsOf other T) -> keeps (othersKept other) (write f).
Proof.
  intros Hf s. unfold othersKept, write, current.
  destruct (pending s); cbn [snd pending visible]; apply Hf.
Qed.

Lemma keeps_run (I : session -> session -> Prop) {A} (m : M A) s o s' :
  keeps I m -> m s = (o, s') -> I s s'.
Proof. intros H E. specialize (H s). rewrite E in H. exact H. Qed.

(** A row found under one id is not found under an id that differs. *)
Lemma sqlEq_apart x a other :
  sqlEq a other = false -> sqlEq x a = true -> sqlEq x other = false.
Proof.
  intros H1 H2.
  destruct x as [|[?|]|?|?|?|?], a as [|[?|]|?|?|?|?]; cbn in H2; try discriminate H2;
    destruct other as [|[?|]|?|?|?|?]; cbn in *; try reflexivity;
    first [apply Z.eqb_eq in H2 | apply String.eqb_eq in H2]; subst; exact H1.
Qed.

Lemma selectRows_delete_apart t t' c c' T :
  (forall r, c' r = true -> c r = false) ->
  selectRows t c (deleteRows t' c' T) = selectRows t c T.
Proof.
  intros H. unfold selectRows, deleteRows, inTable.
  induction T as [|[t0 r] T IH]; [reflexivity|].
  cbn [map List.filter fst snd].
  destruct (String.eqb t0 t' && c' r) eqn:E; cbn [negb].
  - apply andb_true_iff in E as [_ E]. rewrite (H r E), andb_false_r. exact IH.
  - cbn [List.filter fst snd].
    destruct (String.eqb t0 t && c r); cbn [map snd]; rewrite IH; reflexivity.
Qed.

Lemma selectRows_update_apart t t' c set cond T :
  (forall r, cond r = true -> c r = false /\ c (set r) = false) ->
  selectRows t c (updateRows t' set cond T) = selectRows t c T.
Proof.
  intros H. unfold selectRows, updateRows, inTable.
  induction T as [|[t0 r] T IH]; [reflexivity|].
  cbn [map List.filter fst snd].
  destruct (String.eqb t0 t' && cond r) eqn:E; cbn [fst snd].
  - apply andb_true_iff in E as [_ E]. destruct (H r E) as [H1 H2].
    rewrite H1, H2, !andb_false_r. exact IH.
  - destruct (String.eqb t0 t && c r); cbn [map snd]; rewrite IH; reflexivity.
Qed.

Lemma selectRows_insert_apart t t' c rs T :
  Forall (fun r => c r = false) rs ->
  selectRows t c (insertRows t' rs T) = selectRows t c T.
Proof.
  intros H. unfold insertRows. rewrite selectRows_app, selectRows_tagged.
  assert (Hnone : List.filter c rs = []).
  { induction H as [|r rs Hr _ IH]; [reflexivity|]. cbn [List.filter]. rewrite Hr. exact IH. }
  rewrite Hnone. destruct (String.eqb t' t); apply app_nil_r.
Qed.

Lemma rowsOf_delete other fileId t T :
  sqlEq fileId other = false ->
  rowsOf other (deleteRows t (Gff.ownedBy fileId) T) = rowsOf other T.
Proof.
  intros H. unfold rowsOf.
  rewrite !selectRows_delete_apart; [reflexivity| |];
    intros r Hr; exact (sqlEq_apart _ _ _ H Hr).
Qed.

Lemma rowsOf_update other fileId t set T :
  sqlEq fileId other = false ->
  (forall r, col "file_id" (set r) = col "file_id" r) ->
  rowsOf other (updateRows t set (Gff.ownedBy fileId) T) = rowsOf other T.
Proof.
  intros H Hset. unfold rowsOf.
  rewrite !selectRows_update_apart; [reflexivity| |];
    intros r Hr; unfold Gff.ownedBy; rewrite Hset; split;
    exact (sqlEq_apart _ _ _ H Hr).
Qed.

Lemma rowsOf_insert other t rs T :
  Forall (fun r => Gff.ownedBy other r = false) rs ->
  rowsOf other (insertRows t rs T) = rowsOf other T.
Proof.
  intros H. unfold rowsOf. rewrite !selectRows_insert_apart by exact H. reflexivity.
Qed.

Lemma rowsOf_regions other set cond T :
  rowsOf other (updateRows "sequence_regions" set cond T) = rowsOf other T.
Proof.
  unfold rowsOf.
  rewrite (selectRows_update_other "gff_features") by reflexivity.
  rewrite (selectRows_update_other "gff_files") by reflexivity. reflexivity.
Qed.

Lemma foreign_featureRow other fileId columns :
  sqlEq fileId other = false ->
  Gff.ownedBy other (Gff.featureRow fileId columns) = false.
Proof.
  intros H. unfold Gff.featureRow.
  do 9 (destruct columns as [|? columns]; [reflexivity|]). exact H.
Qed.

Section OtherFiles.

Variable faulty : nat -> bool.
Variable other fileId : value.
Hypothesis apart : sqlEq fileId other = false.

Ltac others_seq := apply (keeps_bind _ (othersKept_trans other)); [|intros ?].
Ltac others_ret := apply (keeps_ret _ (othersKept_refl other)).

Lemma setFileColumn_others c v :
  String.eqb "file_id" c = false ->
  keeps (othersKept other) (Gff.setFileColumn faulty c v fileId).
Proof.
  intros Hc. unfold Gff.setFileColumn, sqlUpdate.
  others_seq; [apply othersKept_call|]. apply othersKept_write. intros T.
  apply rowsOf_update; [exact apart|]. intros r. apply col_setCol_other, Hc.
Qed.

Lemma headerLine_others st line :
  keeps (othersKept other) (Gff.headerLine faulty fileId st line).
Proof.
  unfold Gff.headerLine.
  repeat match goal with
         | |- keeps _ (if Js.startsWith ?p line then Gff.setFileColumn _ _ _ _ ;; _ else _) =>
             destruct (Js.startsWith p line);
             [others_seq; [apply setFileColumn_others; reflexivity | others_ret]|]
         end.
  destruct (Js.startsWith "##sequence-region" line).
  { destruct (4 <=? _); [|others_ret]. unfold sqlInsertKeyed.
    others_seq; [|others_ret].
    others_seq; [apply othersKept_call|].
    others_seq; [apply othersKept_plain; intros s; split; reflexivity|].
    others_seq; [|others_ret].
    apply othersKept_write. intros T. unfold rowsOf, insertRows.
    rewrite !selectRows_app, !selectRows_tagged. cbn [String.eqb Ascii.eqb Bool.eqb].
    rewrite !app_nil_r. reflexivity. }
  destruct (Js.startsWith "##species" line).
  { destruct (Gff.matchSpecies line); [|others_ret].
    others_seq; [apply othersKept_call|].
    others_seq; [|others_ret].
    apply othersKept_write. intros T. apply rowsOf_regions. }
  others_ret.
Qed.

Lemma insertFeatureBatch_others batch :
  Forall (fun r => Gff.ownedBy other r = false) batch ->
  keeps (othersKept other) (Gff.insertFeatureBatch faulty batch).
Proof.
  intros H. unfold Gff.insertFeatureBatch, sqlInsert.
  others_seq; [apply othersKept_call|]. apply othersKept_write. intros T.
  apply rowsOf_insert, H.
Qed.

Lemma lineStep_others st line :
  Forall (fun r => Gff.ownedBy other r = false) (Gff.batchValues st) ->
  keeps (othersKept other) (Gff.lineStep faulty fileId st line).
Proof.
  intros Hq. unfold Gff.lineStep. cbv zeta.
  others_seq.
  { destruct (_ =? _)%N; [|others_ret].
    apply othersKept_plain. intros s. split; reflexivity. }
  destruct (negb _); [others_ret|].
  destruct (Js.startsWith "#" line); [apply headerLine_others|].
  destruct (_ <? 9); [others_ret|].
  destruct (Gff.BATCH_SIZE <=? _); [|others_ret].
  others_seq; [|others_ret].
  apply insertFeatureBatch_others. cbn [Gff.batchValues].
  apply Forall_app. split; [exact Hq|].
  constructor; [|constructor]. apply foreign_featureRow, apart.
Qed.

Lemma lineStep_foreign st line s st' s' :
  Forall (fun r => Gff.ownedBy other r = false) (Gff.batchValues st) ->
  Gff.lineStep faulty fileId st line s = (Ok st', s') ->
  Forall (fun r => Gff.ownedBy other r = false) (Gff.batchValues st').
Proof.
  intros Hq H. unfold Gff.lineStep in H.
  apply bind_inv in H as ([] & s1 & _ & H).
  destruct (negb (Js.truthy (Js.trim line))).
  { inversion H. exact Hq. }
  destruct (Js.startsWith "#" line).
  { apply headerLine_queue in H. rewrite H. exact Hq. }
  cbv zeta in H. destruct (length (Js.split Gff.TAB line) <? 9).
  { inversion H. exact Hq. }
  cbn [Gff.batchValues Gff.lineCount Gff.featureCount Gff.sequenceRegionCount] in H.
  destruct (Gff.BATCH_SIZE <=? _).
  - apply then_ret_inv in H. subst. constructor.
  - inversion H. cbn [Gff.batchValues]. apply Forall_app. split; [exact Hq|].
    constructor; [|constructor]. apply foreign_featureRow, apart.
Qed.

Lemma lines_others lines : forall st s,
  Forall (fun r => Gff.ownedBy other r = false) (Gff.batchValues st) ->
  othersKept other s (snd (foldM (Gff.lineStep faulty fileId) lines st s))
  /\ (forall st' s',
        foldM (Gff.lineStep faulty fileId) lines st s = (Ok st', s') ->
        Forall (fun r => Gff.ownedBy other r = false) (Gff.batchValues st')).
Proof.
  induction lines as [|line lines IH]; intros st s Hq.
  - split; [apply othersKept_refl|]. intros st' s' H. inversion H. subst. exact Hq.
  - cbn [foldM]. unfold bind.
    pose proof (lineStep_others st line Hq s) as Hstep.
    destruct (Gff.lineStep faulty fileId st line s) as [[st1|e|c] s1] eqn:E;
      cbn [snd] in *; try (split; [exact Hstep | discriminate]).
    destruct (IH st1 s1 (lineStep_foreign st line s st1 s1 Hq E)) as [Hk Hf].
    split; [exact (othersKept_trans _ _ _ _ Hstep Hk) | exact Hf].
Qed.

Lemma readLines_others filePath info :
  keeps (othersKept other) (Gff.readLines faulty fileId filePath info).
Proof.
  intros s. unfold Gff.readLines.
  destruct (Gff.file_lines info) as [lines|]; [|apply othersKept_refl].
  unfold bind at 1. unfold ret at 1. unfold bind at 1.
  destruct (lines_others lines (Gff.LoopVars 0 0 0 []) s (List.Forall_nil _)) as [Hk Hf].
  destruct (foldM _ lines _ s) as [[st|e|c] s1]; cbn [snd] in *; try exact Hk.
  specialize (Hf st s1 eq_refl).
  eapply othersKept_trans; [exact Hk|].
  match goal with |- othersKept _ _ (snd (?m s1)) =>
    cut (keeps (othersKept other) m); [intros Hm; apply Hm|] end.
  others_seq; [|others_ret].
  destruct (0 <? _); [apply insertFeatureBatch_others, Hf | others_ret].
Qed.

Lemma openFileRecord_others fileName filePath fileSize s s' :
  Gff.openFileRecord faulty fileName filePath fileSize s = (Ok fileId, s') ->
  othersKept other s s'.
Proof.
  intros H. unfold Gff.openFileRecord in H.
  apply bind_inv in H as (existingFile & s1 & Hsel & H).
  assert (H1 : othersKept other s s1).
  { refine (keeps_run _ _ _ _ _ _ Hsel). unfold sqlSelect.
    others_seq; [apply othersKept_call|].
    apply othersKept_plain. intros ?. split; reflexivity. }
  eapply othersKept_trans; [exact H1|]. clear H1 Hsel.
  destruct existingFile as [|r0 rest].
  - unfold sqlInsertKeyed, bind, call, nextval, write, ret in H.
    cbn [visible pending sequences catalog issued console] in H.
    destruct (faulty _); [discriminate H|].
    cbn [visible pending sequences catalog issued console] in H.
    unfold othersKept, current.
    destruct (pending s1) as [T|]; inversion H as [[Hid Hs]];
      cbn [pending visible]; apply rowsOf_insert; constructor; try constructor;
      unfold Gff.ownedBy; cbn [col String.eqb Ascii.eqb Bool.eqb]; rewrite Hid; exact apart.
  - assert (Hid : fileId = col "file_id" r0).
    { apply bind_inv in H as (? & ? & _ & H). apply bind_inv in H as (? & ? & _ & H).
      apply bind_inv in H as (? & ? & _ & H). apply then_ret_inv in H. exact H. }
    rewrite <- Hid in H. refine (keeps_run _ _ _ _ _ _ H).
    others_seq; [apply othersKept_plain; intros ?; split; reflexivity|].
    unfold sqlDelete, sqlUpdate.
    others_seq.
    { others_seq; [apply othersKept_call|]. apply othersKept_write. intros T.
      apply rowsOf_delete, apart. }
    others_seq.
    { others_seq; [apply othersKept_call|]. apply othersKept_write. intros T.
      apply rowsOf_delete, apart. }
    others_seq; [|others_ret].
    others_seq; [apply othersKept_call|]. apply othersKept_write. intros T.
    apply rowsOf_update; [exact apart|]. intros r.
    rewrite !col_setCol_other by reflexivity. reflexivity.
Qed.

Lemma begin_current s s1 :
  sqlBegin faulty s = (Ok tt, s1) -> current s1 = current s.
Proof.
  unfold sqlBegin, bind, call.
  cbn [visible pending sequences catalog issued console].
  destruct (faulty _); intros H; inversion H. reflexivity.
Qed.

Lemma commit_visible s s1 :
  sqlCommit faulty s = (Ok tt, s1) -> visible s1 = current s.
Proof.
  unfold sqlCommit, bind, call.
  cbn [visible pending sequences catalog issued console].
  destruct (faulty _); intros H; inversion H. reflexivity.
Qed.

Lemma importGff_others fileName filePath info s s' :
  pending s = None ->
  Gff.importGff faulty fileName filePath info s = (Ok fileId, s') ->
  rowsOf other (visible s') = rowsOf other (visible s).
Proof.
  intros Hp H. unfold Gff.importGff in H.
  apply bind_inv in H as ([] & s1 & Hbegin & H).
  apply bind_inv in H as (fid & s2 & Hopen & H).
  apply bind_inv in H as (st & s3 & Hread & H).
  apply bind_inv in H as ([] & s4 & Hcommit & H).
  assert (Hend : fid = fileId /\ visible s' = visible s4).
  { unfold bind, say, ret in H. inversion H. split; reflexivity. }
  destruct Hend as [-> Hv]. clear H.
  apply begin_current in Hbegin. apply commit_visible in Hcommit.
  pose proof (openFileRecord_others _ _ _ _ _ Hopen) as H12.
  pose proof (keeps_run _ _ _ _ _ (readLines_others filePath info) Hread) as H23.
  unfold othersKept in H12, H23.
  rewrite Hv, Hcommit, H23, H12, Hbegin. unfold current. rewrite Hp. reflexivity.
Qed.

End OtherFiles.

(** X16. An import of the GFF importer that ends normally leaves the rows
    of every other file as they were: for an id that differs from the one
    the import returns, the features stored under it and the file records
    that carry it are the same rows, in the same order, after the import
    as before, whether the file was new or imported again. *)
Theorem gff_import_keeps_other_files (faulty : nat -> bool) (files : Gff.disk)
  (filePath : string) (s s' : session) (fileId other : value) :
  pending s = None ->
  Gff.processGffFile faulty files filePath s = (Ok fileId, s') ->
  sqlEq fileId other = false ->
  featuresOf other (visible s') = featuresOf other (visible s)
  /\ selectRows "gff_files" (Gff.ownedBy other) (visible s')
     = selectRows "gff_files" (Gff.ownedBy other) (visible s).
Proof.
  intros Hp H Hne. unfold Gff.processGffFile in H.
  destruct (files filePath) as [info|]; [|discriminate H].
  apply bind_inv in H as (i & s0 & H0 & H). inversion H0. subst i s0. clear H0.
  apply bind_inv in H as ([] & s1 & Hsay & H). unfold say in Hsay.
  inversion Hsay as [Hs1]. subst s1. clear Hsay.
  apply bind_inv in H as ([] & s2 & Hconn & H).
  unfold connect, call in Hconn. destruct (faulty _); [discriminate Hconn|].
  inversion Hconn as [Hs2]. subst s2. clear Hconn. unfold tryCatch in H.
  match type of H with context [Gff.importGff _ _ _ _ ?s2] =>
    destruct (Gff.importGff faulty (basename filePath) filePath info s2)
      as [[a|e|c] s3] eqn:Hrun; try discriminate H
  end.
  inversion H. subst a s3.
  pose proof (fun Hp' => importGff_others faulty other fileId Hne _ _ _ _ _ Hp' Hrun) as Hk.
  specialize (Hk Hp).
  cbn [visible] in Hk.
  unfold rowsOf in Hk. injection Hk as Hf Hr. split; [exact Hf | exact Hr].
Qed.

(** A database with the records of two files, a feature and a sequence
    region under each. *)
Definition twoRecords : session :=
  Session
    [ ("gff_files", [("file_id", vnat 1); ("filename", VText "a.gff")]);
      ("gff_files", [("file_id", vnat 2); ("filename", VText "b.gff")]);
      ("gff_features", [("file_id", vnat 1); ("seqid", VText "old")]);
      ("gff_features", [("file_id", vnat 2); ("seqid", VText "kept")]);
      ("sequence_regions", [("region_id", vnat 1); ("file_id", vnat 1)]);
      ("sequence_regions", [("region_id", vnat 2); ("file_id", vnat 2)]) ]
    None (fun _ => 3) [] 0 [].

Lemma gff_import_keeps_other_files_witness :
  let run := Gff.processGffFile (fun _ => false) newContent "data/a.gff" twoRecords in
  fst run = Ok (vnat 1)
  /\ featuresOf (vnat 2) (visible (snd run)) = [[("file_id", vnat 2); ("seqid", VText "kept")]]
  /\ selectRows "gff_files" (Gff.ownedBy (vnat 2)) (visible (snd run))
     = [[("file_id", vnat 2); ("filename", VText "b.gff")]].
Proof.
  intros run.
  assert (Hrun : run = (Ok (vnat 1), snd run)) by (vm_compute; reflexivity).
  split; [rewrite Hrun; reflexivity|].
  exact (gff_import_keeps_other_files (fun _ => false) newContent "data/a.gff"
           twoRecords (snd run) (vnat 1) (vnat 2) eq_refl Hrun eq_refl).
Defined.
